(** * Bronson: directory housekeeping service (src/app/main.py)

    A shallow embedding of the scan / cleanup / compare engine and of the
    directory validator that gates it, together with the properties the
    specification states about them.

    Modelling choices, all visible in the definitions below:
    - paths are strings, exactly as the code compares them ([str(...)],
      [startswith]); the file system is a tree of named entries reached
      through the components of a path;
    - [Path.resolve] is a function of the world: symbolic links are the
      operating system's business and are not part of the tree;
    - an exception is a value of [exn]; code that can raise returns a
      [result];
    - [cleanup_unwanted_files] threads the world explicitly, because
      [unlink] changes it;
    - the Prometheus counters are write-only: no branch of the program
      reads them, so they are left out, and with them the
      [operation_type] arguments that only select a counter. *)

From Stdlib Require Import ZArith Ascii String List Lia.
From stdpp Require Import base option list strings gmap pretty.

Local Open Scope Z_scope.
Local Open Scope stdpp_scope.

(** ** Exceptions and results *)

Inductive exn : Type :=
| HTTPException (status_code : nat) (detail : string)
| OSError (strerror : string) (filename : string)
| KeyError (key : string)
| re_error (msg : string).

Inductive result (A : Type) : Type :=
| Ok (a : A)
| Raise (e : exn).
Arguments Ok {A} a.
Arguments Raise {A} e.

Definition bind {A B : Type} (r : result A) (k : A -> result B) : result B :=
  match r with
  | Ok a => k a
  | Raise e => Raise e
  end.

Notation "x <- r ;; k" := (bind r (fun x => k))
  (at level 100, r at next level, right associativity, only parsing).
Notation "r ;;; k" := (bind r (fun _ => k))
  (at level 100, right associativity, only parsing).

(** [for x in l: body] over a state that the body may abandon by raising. *)
Fixpoint for_each {A S : Type} (l : list A) (body : A -> S -> result S) (s : S)
  : result S :=
  match l with
  | [] => Ok s
  | x :: rest => s' <- body x s ;; for_each rest body s'
  end.

(** [str(e)].  [HTTPException.__str__] is Starlette's
    [f"{status_code}: {detail}"]; an [OSError] prints its message followed
    by the quoted file name. *)
Definition str_exn (e : exn) : string :=
  match e with
  | HTTPException status_code detail => pretty status_code +:+ ": " +:+ detail
  | OSError strerror filename => strerror +:+ ": '" +:+ filename +:+ "'"
  | KeyError key => "'" +:+ key +:+ "'"
  | re_error msg => msg
  end.

Definition status_of {A : Type} (r : result A) : option nat :=
  match r with
  | Raise (HTTPException status_code _) => Some status_code
  | _ => None
  end.

(** ** Strings and paths *)

(** [s.startswith(pre)] *)
Fixpoint startswith (s pre : string) {struct pre} : bool :=
  match pre with
  | "" => true
  | String a pre' =>
      match s with
      | "" => false
      | String b s' => Ascii.eqb a b && startswith s' pre'
      end
  end.

(** [s.endswith("/")] *)
Fixpoint endswith_sep (s : string) : bool :=
  match s with
  | "" => false
  | String c "" => Ascii.eqb c "/"
  | String _ s' => endswith_sep s'
  end.

(** [os.path.join(a, b)] on POSIX.  [Path(a) / b] agrees with it whenever
    [a] is a resolved path and [b] the name of a directory entry. *)
Definition path_join (a b : string) : string :=
  if startswith b "/" then b
  else if (String.eqb a "" || endswith_sep a)%bool then a +:+ b
  else a +:+ "/" +:+ b.

(** The components of a path: the non-empty pieces between separators. *)
Fixpoint parts_go (cur s : string) : list string :=
  match s with
  | "" => if String.eqb cur "" then [] else [cur]
  | String c s' =>
      if Ascii.eqb c "/"
      then (if String.eqb cur "" then [] else [cur]) ++ parts_go "" s'
      else parts_go (cur +:+ String c "") s'
  end.

Definition path_parts (p : string) : list string := parts_go "" p.

(** ** The file system *)

(** A file carries what [stat] and [unlink] answer for it: [st_size] is
    [None] when [stat] raises, [unlink_error] is the message of the
    [OSError] that [unlink] raises, if it does.  A directory can be listed
    or not ([scandir] / [iterdir] raising). *)
#[warnings="-register-all"]
Inductive node : Type :=
| File (st_size : option Z) (unlink_error : option string)
| Dir (listable : bool) (entries : list (string * node)).

Definition is_dir_node (n : node) : bool :=
  match n with
  | Dir _ _ => true
  | File _ _ => false
  end.

Fixpoint entry_lookup (name : string) (es : list (string * node)) : option node :=
  match es with
  | [] => None
  | (n, c) :: rest => if String.eqb n name then Some c else entry_lookup name rest
  end.

Fixpoint entry_remove (name : string) (es : list (string * node))
  : list (string * node) :=
  match es with
  | [] => []
  | (n, c) :: rest =>
      if String.eqb n name then rest else (n, c) :: entry_remove name rest
  end.

Fixpoint entry_replace (name : string) (c' : node) (es : list (string * node))
  : list (string * node) :=
  match es with
  | [] => []
  | (n, c) :: rest =>
      if String.eqb n name then (n, c') :: rest
      else (n, c) :: entry_replace name c' rest
  end.

Fixpoint lookup_node (n : node) (ps : list string) : option node :=
  match ps with
  | [] => Some n
  | name :: rest =>
      match n with
      | Dir _ es =>
          match entry_lookup name es with
          | Some c => lookup_node c rest
          | None => None
          end
      | File _ _ => None
      end
  end.

Definition ENOENT : string := "[Errno 2] No such file or directory".
Definition EISDIR : string := "[Errno 21] Is a directory".
Definition ENOTDIR : string := "[Errno 20] Not a directory".

(** Removing the file at the end of the components [ps]; [path] is only
    used to fill in the error. *)
Fixpoint unlink_node (path : string) (n : node) (ps : list string) : result node :=
  match ps with
  | [] => Raise (OSError EISDIR path)
  | name :: rest =>
      match n with
      | File _ _ => Raise (OSError ENOTDIR path)
      | Dir l es =>
          match entry_lookup name es with
          | None => Raise (OSError ENOENT path)
          | Some c =>
              match rest with
              | [] =>
                  match c with
                  | Dir _ _ => Raise (OSError EISDIR path)
                  | File _ (Some msg) => Raise (OSError msg path)
                  | File _ None => Ok (Dir l (entry_remove name es))
                  end
              | _ :: _ =>
                  c' <- unlink_node path c rest ;;
                  Ok (Dir l (entry_replace name c' es))
              end
          end
      end
  end.

(** The world a request runs in. *)
Record world : Type := World {
  environ : gmap string string;
  resolve : string -> string;
  fs : node
}.

Definition set_fs (w : world) (t : node) : world :=
  {| environ := environ w; resolve := resolve w; fs := t |}.

Definition node_at (w : world) (path : string) : option node :=
  lookup_node (fs w) (path_parts path).

(** [Path.exists()] *)
Definition path_exists (w : world) (path : string) : bool :=
  bool_decide (is_Some (node_at w path)).

(** [Path.is_dir()]: false for a path that does not exist.  An error of the
    underlying [stat] other than that is not modelled. *)
Definition is_dir (w : world) (path : string) : bool :=
  match node_at w path with
  | Some n => is_dir_node n
  | None => false
  end.

(** [Path.stat().st_size].  Sizes of directories are not modelled: the
    scanner only stats names that the walk reported as files. *)
Definition stat_size (w : world) (path : string) : result Z :=
  match node_at w path with
  | Some (File (Some size) _) => Ok size
  | Some (File None _) => Raise (OSError "[Errno 13] Permission denied" path)
  | Some (Dir _ _) => Ok 0
  | None => Raise (OSError ENOENT path)
  end.

(** [Path.unlink()] *)
Definition unlink (w : world) (path : string) : result world :=
  t <- unlink_node path (fs w) (path_parts path) ;; Ok (set_fs w t).

(** [os.getenv(name, default)] *)
Definition getenv (w : world) (name default : string) : string :=
  match environ w !! name with
  | Some v => v
  | None => default
  end.

Definition get_cleanup_directory (w : world) : string :=
  getenv w "CLEANUP_DIRECTORY" "/data".

Definition get_target_directory (w : world) : string :=
  getenv w "TARGET_DIRECTORY" "/target".

(** ** validate_directory *)

Definition critical_dirs : list string :=
  ["/"; "/home"; "/usr"; "/etc"; "/var"; "/bin"; "/sbin"; "/boot"; "/root"].

Definition tmp_paths : list string := ["/tmp"; "/private/tmp"; "/private/var"].

(** The test the code writes twice:
    [dir_str == p or dir_str.startswith(p + "/")]. *)
Definition at_or_under (dir_str p : string) : bool :=
  (String.eqb dir_str p || startswith dir_str (p +:+ "/"))%bool.

Definition protected_location : exn :=
  HTTPException 400
    "Configured cleanup directory is in a protected system location".

Definition validate_directory (w : world) (directory_path cleanup_dir : string)
  : result unit :=
  if negb (path_exists w directory_path) then
    Raise (HTTPException 404
             ("Configured directory " +:+ cleanup_dir +:+ " not found"))
  else
    let dir_str := resolve w directory_path in
    let allowed_tmp_paths := map (resolve w) tmp_paths in
    if negb (existsb (fun tmp_path => at_or_under dir_str tmp_path)
                     allowed_tmp_paths)
    then
      for_each critical_dirs
        (fun sys_dir _ =>
           let sys_dir_path := resolve w sys_dir in
           if at_or_under dir_str sys_dir_path
           then Raise protected_location
           else Ok tt)
        tt
    else Ok tt.

(** ** A fragment of Python's [re]

    The theorems below hold for any function standing for [re.search]; this
    module gives one that computes, for the worked examples.  It covers
    literals, [.], [\] before a punctuation character, character sets with
    ranges and negation, groups, [|], the quantifiers [*], [+], [?] (and
    their lazy forms, which match the same strings), [^] and [$], under
    [re.IGNORECASE] on ASCII.  It answers [re.error] with Python's message
    for the syntax errors of this fragment; counted repetition, possessive
    quantifiers, [\d]-style escapes and [(?...)] extensions are outside the
    fragment and rejected as unsupported. *)
Module Re.

Inductive regex : Type :=
| Empty
| Eps
| Chr (c : ascii)
| Any
| Cls (negated : bool) (ranges : list (ascii * ascii))
| Bol
| Eol
| Seq (r1 r2 : regex)
| Alt (r1 r2 : regex)
| Star (r : regex).

Definition error {A : Type} (msg : string) (pos : nat) : result A :=
  Raise (re_error (msg +:+ " at position " +:+ pretty pos)).

Definition is_alnum (c : ascii) : bool :=
  let n := nat_of_ascii c in
  ((48 <=? n) && (n <=? 57) || (65 <=? n) && (n <=? 90)
   || (97 <=? n) && (n <=? 122))%nat%bool.

Definition is_quantifier (c : ascii) : bool :=
  (Ascii.eqb c "*" || Ascii.eqb c "+" || Ascii.eqb c "?")%bool.

Definition is_anchor (r : regex) : bool :=
  match r with
  | Bol | Eol => true
  | _ => false
  end.

Section Parser.
(** Length of the whole pattern, to report positions. *)
Variable total : nat.

Definition pos_of (rest : list ascii) : nat := (total - length rest)%nat.

(** The items of a character set, after the opening bracket and an
    optional [^]; [first] says whether [cs] starts right there, where a
    closing bracket is an ordinary character. *)
Fixpoint parse_set (fuel : nat) (start : nat) (first : bool)
    (acc : list (ascii * ascii)) (cs : list ascii)
  : result (list (ascii * ascii) * list ascii) :=
  match fuel with
  | O => error "unterminated character set" start
  | S fuel =>
      match cs with
      | [] => error "unterminated character set" start
      | c :: cs1 =>
          if (Ascii.eqb c "]" && negb first)%bool then Ok (rev acc, cs1)
          else
            lo <- (if Ascii.eqb c "\" then
                     match cs1 with
                     | [] => error "unterminated character set" start
                     | e :: cs2 =>
                         if is_alnum e
                         then error "unsupported escape" (pos_of cs)
                         else Ok (e, cs2)
                     end
                   else Ok (c, cs1)) ;;
            match snd lo with
            | "-"%char :: hi :: cs3 =>
                if Ascii.eqb hi "]"
                then parse_set fuel start false ((fst lo, fst lo) :: acc) (snd lo)
                else if Ascii.eqb hi "\"
                then error "unsupported escape" (pos_of (hi :: cs3))
                else if (nat_of_ascii hi <? nat_of_ascii (fst lo))%nat
                then error "bad character range" (pos_of cs)
                else parse_set fuel start false ((fst lo, hi) :: acc) cs3
            | _ => parse_set fuel start false ((fst lo, fst lo) :: acc) (snd lo)
            end
      end
  end.

Definition quantify (a : regex) (cs : list ascii)
  : result (regex * list ascii) :=
  match cs with
  | q :: cs1 =>
      if is_quantifier q then
        if is_anchor a then error "nothing to repeat" (pos_of cs)
        else
          let r := if Ascii.eqb q "*" then Star a
                   else if Ascii.eqb q "+" then Seq a (Star a)
                   else Alt a Eps in
          let cs2 := match cs1 with
                     | "?"%char :: cs2 => cs2
                     | _ => cs1
                     end in
          match cs1, cs2 with
          | "+"%char :: _, _ =>
              error "unsupported possessive quantifier" (pos_of cs1)
          | _, q2 :: _ =>
              if is_quantifier q2 then error "multiple repeat" (pos_of cs2)
              else Ok (r, cs2)
          | _, [] => Ok (r, cs2)
          end
      else Ok (a, cs)
  | [] => Ok (a, cs)
  end.

(** [parse_alt] reads alternatives up to a closing parenthesis or the
    end, [parse_seq] one alternative, [parse_atom] one item. *)
Fixpoint parse_alt (fuel : nat) (cs : list ascii)
  : result (regex * list ascii) :=
  match fuel with
  | O => error "pattern too deep" (pos_of cs)
  | S fuel =>
      r1 <- parse_seq fuel Eps cs ;;
      match snd r1 with
      | "|"%char :: cs2 =>
          r2 <- parse_alt fuel cs2 ;; Ok (Alt (fst r1) (fst r2), snd r2)
      | _ => Ok r1
      end
  end
with parse_seq (fuel : nat) (acc : regex) (cs : list ascii)
  : result (regex * list ascii) :=
  match fuel with
  | O => error "pattern too deep" (pos_of cs)
  | S fuel =>
      match cs with
      | [] => Ok (acc, cs)
      | c :: _ =>
          if (Ascii.eqb c "|" || Ascii.eqb c ")")%bool then Ok (acc, cs)
          else
            a <- parse_atom fuel cs ;;
            q <- quantify (fst a) (snd a) ;;
            parse_seq fuel (Seq acc (fst q)) (snd q)
      end
  end
with parse_atom (fuel : nat) (cs : list ascii)
  : result (regex * list ascii) :=
  match fuel with
  | O => error "pattern too deep" (pos_of cs)
  | S fuel =>
      match cs with
      | [] => Ok (Eps, cs)
      | c :: cs1 =>
          if Ascii.eqb c "(" then
            match cs1 with
            | "?"%char :: _ => error "unsupported extension" (pos_of cs1)
            | _ =>
                r <- parse_alt fuel cs1 ;;
                match snd r with
                | ")"%char :: cs2 => Ok (fst r, cs2)
                | _ => error "missing ), unterminated subpattern" (pos_of cs)
                end
            end
          else if Ascii.eqb c "[" then
            let neg := match cs1 with
                       | "^"%char :: _ => true
                       | _ => false
                       end in
            let body := if neg then tl cs1 else cs1 in
            s <- parse_set (S (length body)) (pos_of cs) true [] body ;;
            Ok (Cls neg (fst s), snd s)
          else if Ascii.eqb c "\" then
            match cs1 with
            | [] => error "bad escape (end of pattern)" (pos_of cs)
            | e :: cs2 =>
                if is_alnum e then error "unsupported escape" (pos_of cs)
                else Ok (Chr e, cs2)
            end
          else if Ascii.eqb c "." then Ok (Any, cs1)
          else if Ascii.eqb c "^" then Ok (Bol, cs1)
          else if Ascii.eqb c "$" then Ok (Eol, cs1)
          else if is_quantifier c then error "nothing to repeat" (pos_of cs)
          else if Ascii.eqb c "{" then error "unsupported repetition" (pos_of cs)
          else Ok (Chr c, cs1)
      end
  end.
End Parser.

Definition compile (pattern : string) : result regex :=
  let cs := list_ascii_of_string pattern in
  let total := length cs in
  r <- parse_alt total (3 * total + 3) cs ;;
  match snd r with
  | [] => Ok (fst r)
  | rest => error "unbalanced parenthesis" (pos_of total rest)
  end.

(** *** Matching, by derivatives *)

Definition lower (c : ascii) : ascii :=
  let n := nat_of_ascii c in
  if ((65 <=? n) && (n <=? 90))%nat%bool then ascii_of_nat (n + 32) else c.

Definition upper (c : ascii) : ascii :=
  let n := nat_of_ascii c in
  if ((97 <=? n) && (n <=? 122))%nat%bool then ascii_of_nat (n - 32) else c.

Definition in_range (c : ascii) (r : ascii * ascii) : bool :=
  let within x :=
    ((nat_of_ascii (fst r) <=? nat_of_ascii x)
     && (nat_of_ascii x <=? nat_of_ascii (snd r)))%nat%bool in
  (within (lower c) || within (upper c))%bool.

Definition newline : ascii := "010"%char.

Definition mk_seq (r1 r2 : regex) : regex :=
  match r1, r2 with
  | Empty, _ | _, Empty => Empty
  | Eps, _ => r2
  | _, _ => Seq r1 r2
  end.

Definition mk_alt (r1 r2 : regex) : regex :=
  match r1, r2 with
  | Empty, _ => r2
  | _, Empty => r1
  | _, _ => Alt r1 r2
  end.

(** [bol]: the position is the start of the string; [eol]: it is the end,
    or just before a final newline. *)
Fixpoint nullable (bol eol : bool) (r : regex) : bool :=
  match r with
  | Empty | Chr _ | Any | Cls _ _ => false
  | Eps | Star _ => true
  | Bol => bol
  | Eol => eol
  | Seq r1 r2 => nullable bol eol r1 && nullable bol eol r2
  | Alt r1 r2 => nullable bol eol r1 || nullable bol eol r2
  end.

Fixpoint deriv (bol eol : bool) (c : ascii) (r : regex) : regex :=
  match r with
  | Empty | Eps | Bol | Eol => Empty
  | Chr a => if Ascii.eqb (lower a) (lower c) then Eps else Empty
  | Any => if Ascii.eqb c newline then Empty else Eps
  | Cls negated ranges =>
      if xorb negated (existsb (in_range c) ranges) then Eps else Empty
  | Seq r1 r2 =>
      mk_alt (mk_seq (deriv bol eol c r1) r2)
             (if nullable bol eol r1 then deriv bol eol c r2 else Empty)
  | Alt r1 r2 => mk_alt (deriv bol eol c r1) (deriv bol eol c r2)
  | Star r1 => mk_seq (deriv bol eol c r1) (Star r1)
  end.

Definition at_eol (s : string) : bool :=
  match s with
  | "" => true
  | String c "" => Ascii.eqb c newline
  | _ => false
  end.

(** Does [r] match some prefix of [s]? *)
Fixpoint match_here (r : regex) (bol : bool) (s : string) : bool :=
  (nullable bol (at_eol s) r
   || match s with
      | "" => false
      | String c s' => match_here (deriv bol (at_eol s) c r) false s'
      end)%bool.

(** Does [r] match somewhere in [s]? *)
Fixpoint search_from (r : regex) (bol : bool) (s : string) : bool :=
  (match_here r bol s
   || match s with
      | "" => false
      | String _ s' => search_from r false s'
      end)%bool.

(** [bool(re.search(pattern, s, re.IGNORECASE))] *)
Definition search (pattern s : string) : result bool :=
  r <- compile pattern ;; Ok (search_from r true s).

End Re.

(** ** os.walk

    Top-down, [followlinks=False], [onerror=None]: a directory that cannot
    be listed is skipped silently, and anything that is not a directory
    yields nothing. *)
Fixpoint walk_node (top : string) (n : node)
  : list (string * list string * list string) :=
  match n with
  | File _ _ => []
  | Dir false _ => []
  | Dir true es =>
      let dirs := fst <$> filter (fun e => is_dir_node (snd e) = true) es in
      let nondirs := fst <$> filter (fun e => is_dir_node (snd e) = false) es in
      (top, dirs, nondirs) ::
      (fix walk_entries (es : list (string * node)) :=
         match es with
         | [] => []
         | (name, c) :: rest =>
             (if is_dir_node c then walk_node (path_join top name) c else [])
             ++ walk_entries rest
         end) es
  end.

Definition os_walk (w : world) (top : string)
  : list (string * list string * list string) :=
  match node_at w top with
  | Some n => walk_node top n
  | None => []
  end.

(** [Path.iterdir()]: the names of the entries, or the error of listing. *)
Definition iterdir (w : world) (directory_path : string) : result (list string) :=
  match node_at w directory_path with
  | Some (Dir true es) => Ok (fst <$> es)
  | Some (Dir false _) =>
      Raise (OSError "[Errno 13] Permission denied" directory_path)
  | Some (File _ _) => Raise (OSError ENOTDIR directory_path)
  | None => Raise (OSError ENOENT directory_path)
  end.

(** ** get_subdirectories *)
Definition get_subdirectories (w : world) (directory_path : string) : list string :=
  match iterdir w directory_path with
  | Ok items =>
      filter (fun name => is_dir w (path_join directory_path name) = true) items
  | Raise _ => []
  end.

Definition DEFAULT_UNWANTED_PATTERNS : list string :=
  [ "www\.YTS\.MX\.jpg$";
    "www\.YTS\.AM\.jpg$";
    "www\.YTS\.LT\.jpg$";
    "WWW\.YTS\.[A-Z]+\.jpg$";
    "WWW\.YIFY-TORRENTS\.COM\.jpg$";
    "YIFYStatus\.com\.txt$";
    "YTSProxies\.com\.txt$";
    "YTSYifyUP.*\(TOR\)\.txt$";
    "\.DS_Store$";
    "Thumbs\.db$";
    "desktop\.ini$";
    "\.tmp$";
    "\.temp$";
    "\.log$";
    "\.cache$";
    "\.bak$";
    "\.backup$" ].

(** What [find_unwanted_files] accumulates and returns. *)
Record scan_state : Type := ScanState {
  found_files : list string;
  file_sizes : gmap string Z;
  pattern_matches : gmap string string
}.

Record scan_response : Type := ScanResponse {
  scan_directory : string;
  scan_patterns_used : list string;
  scan_files_found : nat;
  scan_total_size_bytes : Z;
  scan_found_files : list string;
  scan_file_sizes : gmap string Z
}.

Record cleanup_response : Type := CleanupResponse {
  cleanup_directory : string;
  cleanup_dry_run : bool;
  cleanup_patterns_used : list string;
  cleanup_files_found : nat;
  cleanup_files_removed : nat;
  cleanup_errors : nat;
  cleanup_found_files : list string;
  cleanup_removed_files : list string;
  cleanup_error_details : list string
}.

Record compare_response : Type := CompareResponse {
  cmp_cleanup_directory : string;
  cmp_target_directory : string;
  cmp_duplicates : list string;
  cmp_duplicate_count : nat;
  cmp_total_cleanup_subdirectories : nat;
  cmp_total_target_subdirectories : nat;
  cmp_cleanup_subdirectories : option (list string);
  cmp_target_subdirectories : option (list string)
}.

(** [sum(d.values())] *)
Definition sum_values (d : gmap string Z) : Z :=
  map_fold (fun _ v acc => v + acc) 0 d.

Section Engine.

(** [re.search(pattern, file, re.IGNORECASE)] as a truth value; a pattern
    that does not compile raises [re.error]. *)
Variable re_search : string -> string -> result bool.

(** The body of [if re.search(...)]: record the file, its pattern and its
    size, 0 when [stat] raises. *)
Definition record_match (w : world) (file_path pattern : string)
    (st : scan_state) : scan_state :=
  {| found_files := found_files st ++ [file_path];
     pattern_matches := <[file_path := pattern]> (pattern_matches st);
     file_sizes :=
       match stat_size w file_path with
       | Ok file_size => <[file_path := file_size]> (file_sizes st)
       | Raise _ => <[file_path := 0]> (file_sizes st)
       end |}.

(** [for pattern in patterns: if re.search(...): ...; break] *)
Fixpoint match_patterns (w : world) (file_path file : string)
    (patterns : list string) (st : scan_state) : result scan_state :=
  match patterns with
  | [] => Ok st
  | pattern :: rest =>
      m <- re_search pattern file ;;
      if (m : bool) then Ok (record_match w file_path pattern st)
      else match_patterns w file_path file rest st
  end.

Definition empty_scan : scan_state :=
  {| found_files := []; file_sizes := ∅; pattern_matches := ∅ |}.

Definition find_unwanted_files (w : world) (directory_path : string)
    (patterns : list string) : result scan_state :=
  for_each (os_walk w directory_path)
    (fun '(root, _, files) st =>
       for_each files
         (fun file st =>
            match_patterns w (path_join root file) file patterns st)
         st)
    empty_scan.

(** The removal loop of [cleanup_unwanted_files]. *)
Fixpoint remove_files (dry_run : bool) (pattern_matches : gmap string string)
    (found_files removed_files errors : list string) (w : world)
  : result (list string * list string) * world :=
  match found_files with
  | [] => (Ok (removed_files, errors), w)
  | file_path_str :: rest =>
      match pattern_matches !! file_path_str with
      | None => (Raise (KeyError file_path_str), w)
      | Some _ =>
          if negb dry_run then
            match unlink w file_path_str with
            | Ok w' =>
                remove_files dry_run pattern_matches rest
                  (removed_files ++ [file_path_str]) errors w'
            | Raise e =>
                let error_msg :=
                  "Failed to remove " +:+ file_path_str +:+ ": " +:+ str_exn e in
                remove_files dry_run pattern_matches rest
                  removed_files (errors ++ [error_msg]) w
            end
          else
            remove_files dry_run pattern_matches rest removed_files errors w
      end
  end.

(** The first [try] block of the scan and cleanup endpoints. *)
Definition resolve_and_validate (w : world) (cleanup_dir : string)
  : result string :=
  let directory_path := resolve w cleanup_dir in
  validate_directory w directory_path cleanup_dir ;;;
  Ok directory_path.

Definition cleanup_unwanted_files (w : world) (dry_run : bool)
    (patterns : option (list string)) : result cleanup_response * world :=
  let cleanup_dir := get_cleanup_directory w in
  let patterns := default DEFAULT_UNWANTED_PATTERNS patterns in
  match resolve_and_validate w cleanup_dir with
  | Raise e =>
      (Raise (HTTPException 400 ("Invalid cleanup directory: " +:+ str_exn e)), w)
  | Ok directory_path =>
      match find_unwanted_files w directory_path patterns with
      | Raise e =>
          (Raise (HTTPException 500 ("Error during cleanup: " +:+ str_exn e)), w)
      | Ok st =>
          match remove_files dry_run (pattern_matches st) (found_files st)
                  [] [] w with
          | (Raise e, w') =>
              (Raise (HTTPException 500
                        ("Error during cleanup: " +:+ str_exn e)), w')
          | (Ok (removed_files, errors), w') =>
              (Ok {| cleanup_directory := directory_path;
                     cleanup_dry_run := dry_run;
                     cleanup_patterns_used := patterns;
                     cleanup_files_found := length (found_files st);
                     cleanup_files_removed := length removed_files;
                     cleanup_errors := length errors;
                     cleanup_found_files := found_files st;
                     cleanup_removed_files := removed_files;
                     cleanup_error_details := errors |}, w')
          end
      end
  end.

(** [total_size_mb], a float rendering of [total_size_bytes], is not part
    of the model. *)
Definition scan_for_unwanted_files (w : world)
    (patterns : option (list string)) : result scan_response :=
  let patterns := default DEFAULT_UNWANTED_PATTERNS patterns in
  let cleanup_dir := get_cleanup_directory w in
  match resolve_and_validate w cleanup_dir with
  | Raise e =>
      Raise (HTTPException 400 ("Invalid cleanup directory: " +:+ str_exn e))
  | Ok directory_path =>
      match find_unwanted_files w directory_path patterns with
      | Raise e =>
          Raise (HTTPException 500 ("Error during scan: " +:+ str_exn e))
      | Ok st =>
          Ok {| scan_directory := directory_path;
                scan_patterns_used := patterns;
                scan_files_found := length (found_files st);
                scan_total_size_bytes := sum_values (file_sizes st);
                scan_found_files := found_files st;
                scan_file_sizes := file_sizes st |}
      end
  end.

End Engine.

(** ** compare_directories *)
Definition compare_body (w : world) (verbose : bool) : result compare_response :=
  let cleanup_dir := get_cleanup_directory w in
  let target_dir := get_target_directory w in
  let cleanup_path := resolve w cleanup_dir in
  let target_path := resolve w target_dir in
  validate_directory w cleanup_path cleanup_dir ;;;
  validate_directory w target_path target_dir ;;;
  let cleanup_subdirs := get_subdirectories w cleanup_path in
  let target_subdirs := get_subdirectories w target_path in
  let cleanup_set : gset string := list_to_set cleanup_subdirs in
  let target_set : gset string := list_to_set target_subdirs in
  let duplicates := elements (cleanup_set ∩ target_set) in
  Ok {| cmp_cleanup_directory := cleanup_path;
        cmp_target_directory := target_path;
        cmp_duplicates := duplicates;
        cmp_duplicate_count := length duplicates;
        cmp_total_cleanup_subdirectories := length cleanup_subdirs;
        cmp_total_target_subdirectories := length target_subdirs;
        cmp_cleanup_subdirectories :=
          if verbose then Some cleanup_subdirs else None;
        cmp_target_subdirectories :=
          if verbose then Some target_subdirs else None |}.

Definition compare_directories (w : world) (verbose : bool)
  : result compare_response :=
  match compare_body w verbose with
  | Ok response => Ok response
  | Raise (HTTPException status_code detail) =>
      Raise (HTTPException status_code detail)
  | Raise e =>
      Raise (HTTPException 500
               ("Error during directory comparison: " +:+ str_exn e))
  end.


(** ** Notions used to state and prove the properties *)

(** A name of a directory entry: not empty, no separator in it. *)
Fixpoint no_sep (s : string) : bool :=
  match s with
  | "" => true
  | String c s' => negb (Ascii.eqb c "/") && no_sep s'
  end.

Definition valid_name (name : string) : bool :=
  negb (String.eqb name "") && no_sep name.

(** "Equals, or is a descendant of": [p] is [root] itself or continues it
    after a separator (the root directory already ends with one). *)
Definition equals_or_descends (root p : string) : bool :=
  String.eqb p root
  || startswith p (if endswith_sep root then root else root +:+ "/").

(** The files a walk reaches, each with its path and its base name, in
    the order of the walk. *)
Definition files_of_walk (entries : list (string * list string * list string))
  : list (string * string) :=
  entries ≫= fun '(root, _, files) =>
    (fun file => (path_join root file, file)) <$> files.

Definition walk_files (w : world) (top : string) : list (string * string) :=
  files_of_walk (os_walk w top).

(** A well-formed tree: in every directory the names are distinct, not
    empty and free of separators.  Every directory of a file system is so;
    the condition keeps out lists of entries that are none. *)
Fixpoint wf_node (n : node) : bool :=
  match n with
  | File _ _ => true
  | Dir _ es =>
      bool_decide (NoDup (fst <$> es))
      && forallb (fun e => valid_name (fst e)) es
      && (fix wf_entries (es : list (string * node)) :=
            match es with
            | [] => true
            | (_, c) :: rest => wf_node c && wf_entries rest
            end) es
  end.

(** The files below a node that a walk reaches, by their components
    relative to the node. *)
Fixpoint rel_files (n : node) : list (list string) :=
  match n with
  | File _ _ => []
  | Dir false _ => []
  | Dir true es =>
      ((fun e => [fst e]) <$> filter (fun e => is_dir_node (snd e) = false) es)
      ++ (fix rel_entries (es : list (string * node)) :=
            match es with
            | [] => []
            | (name, c) :: rest =>
                (if is_dir_node c then (name ::.) <$> rel_files c else [])
                ++ rel_entries rest
            end) es
  end.

(** A relative file, placed under [top]: its path and its base name. *)
Definition place (top : string) (rel : list string) : string * string :=
  (foldl path_join top rel, default "" (last rel)).

(** Every file found has its pattern recorded. *)
Definition patterns_recorded (st : scan_state) : Prop :=
  forall fp, fp ∈ found_files st -> is_Some (pattern_matches st !! fp).

(** The size a scan records for a path. *)
Definition recorded_size (w : world) (path : string) : Z :=
  match stat_size w path with
  | Ok file_size => file_size
  | Raise _ => 0
  end.

Section Matching.

Variable re_search : string -> string -> result bool.

(** A pattern compiles when searching with it never raises. *)
Definition compiles (pattern : string) : Prop :=
  forall s, exists b, re_search pattern s = Ok b.

(** [p] is the first pattern of the list, in order, that matches [file]. *)
Definition first_matching (file : string) (patterns : list string) (p : string)
  : Prop :=
  exists before after,
    patterns = before ++ p :: after
    /\ Forall (fun q => re_search q file = Ok false) before
    /\ re_search p file = Ok true.

Definition matches_none (file : string) (patterns : list string) : Prop :=
  Forall (fun q => re_search q file = Ok false) patterns.

Fixpoint first_match (file : string) (patterns : list string) : option string :=
  match patterns with
  | [] => None
  | p :: rest =>
      match re_search p file with
      | Ok true => Some p
      | _ => first_match file rest
      end
  end.

(** One file of the walk, as [find_unwanted_files] treats it when every
    pattern compiles. *)
Definition scan_step (w : world) (patterns : list string)
    (st : scan_state) (f : string * string) : scan_state :=
  match first_match (snd f) patterns with
  | Some p => record_match w (fst f) p st
  | None => st
  end.

End Matching.

(** The exception a call ends with, if any. *)
Definition failure {A : Type} (r : result A) : option exn :=
  match r with
  | Ok _ => None
  | Raise e => Some e
  end.

(** The entry that the removal loop adds to [errors] for a path whose
    [unlink] raises. *)
Definition removal_error (w : world) (file_path_str : string) : option string :=
  (fun e => "Failed to remove " +:+ file_path_str +:+ ": " +:+ str_exn e)
    <$> failure (unlink w file_path_str).

(** The world with the two configured roots set in the environment. *)
Definition with_dirs (w : world) (cleanup_dir target_dir : string) : world :=
  {| environ := <["CLEANUP_DIRECTORY" := cleanup_dir]>
                  (<["TARGET_DIRECTORY" := target_dir]> (environ w));
     resolve := resolve w;
     fs := fs w |}.

(** The names of the immediate child directories of a node. *)
Definition child_directory_names (n : node) : list string :=
  match n with
  | Dir _ es => fst <$> filter (fun e => is_dir_node (snd e) = true) es
  | File _ _ => []
  end.

(** Do all the patterns compile, for the [re] fragment? *)
Definition all_compile (patterns : list string) : bool :=
  forallb (fun p => match Re.compile p with Ok _ => true | Raise _ => false end)
          patterns.

(** ** Worlds for the worked examples *)
Module Examples.

Definition permission_denied : string := "[Errno 13] Permission denied".

(** A Linux-like layout without symbolic links on the paths used. *)
Definition linux_fs : node :=
  Dir true
    [ ("data", Dir true
         [ ("a", Dir true
              [ ("x.tmp", File (Some 10) None);
                ("Thumbs.db", File None None);
                ("keep.txt", File (Some 5) None) ]);
           ("locked.bak", File (Some 3) (Some permission_denied));
           ("b.log", File (Some 7) None);
           ("movieA", Dir true []);
           ("movieB", Dir true [ ("inner", Dir true []) ]) ]);
      ("target", Dir true
         [ ("movieB", Dir true []);
           ("movieC", Dir true []);
           ("moviea", Dir true []);
           ("notes.txt", File (Some 1) None) ]);
      ("etc", Dir true [ ("cron.d", Dir true []) ]);
      ("tmp", Dir true [ ("work", Dir true []) ]);
      ("empty", Dir true []) ].

Definition linux : world :=
  {| environ := ∅; resolve := fun p => p; fs := linux_fs |}.

(** [linux] with the cleanup root [/data] and the target root [/target]. *)
Definition housekeeping : world := with_dirs linux "/data" "/target".

(** The patterns of the specification's scan example. *)
Definition junk : list string := [".tmp$"; "Thumbs\.db$"].

(** A macOS-like layout: [/tmp], [/var] and [/etc] are links into
    [/private]. *)
Definition macos_resolve (p : string) : string :=
  if String.eqb p "/tmp" then "/private/tmp"
  else if String.eqb p "/var" then "/private/var"
  else if String.eqb p "/etc" then "/private/etc"
  else p.

Definition macos : world :=
  {| environ := ∅;
     resolve := macos_resolve;
     fs := Dir true
             [ ("private", Dir true
                  [ ("var", Dir true [ ("folders", Dir true []) ]);
                    ("tmp", Dir true []);
                    ("etc", Dir true []) ]) ] |}.

End Examples.

(** The sizes that a scan records for a list of paths, added up. *)
Definition sizes_total (w : world) (paths : list string) : Z :=
  foldr (fun fp acc => recorded_size w fp + acc) 0 paths.

(** ** The Prometheus registry

    The counters, gauges and histograms that the module declares, by metric
    name and label values (in the order of their declaration).  They are
    written and never read, so the definitions above leave them out; the
    definitions below are the same functions with the registry threaded
    through, which survives an exception.  A duration is a float taken
    from the clock: its observation is recorded as [None]. *)

Record registry : Type := Registry {
  counters : gmap (string * list string) Z;
  gauges : gmap (string * list string) Z;
  histograms : gmap (string * list string) (list (option Z))
}.

Definition empty_registry : registry :=
  {| counters := ∅; gauges := ∅; histograms := ∅ |}.

Definition counter_value (m : registry) (name : string) (labels : list string) : Z :=
  default 0 (counters m !! (name, labels)).

Definition gauge_value (m : registry) (name : string) (labels : list string) : Z :=
  default 0 (gauges m !! (name, labels)).

Definition observations (m : registry) (name : string) (labels : list string)
  : list (option Z) :=
  default [] (histograms m !! (name, labels)).

(** [counter.labels(...).inc(amount)] *)
Definition inc (name : string) (labels : list string) (amount : Z) (m : registry)
  : registry :=
  {| counters := <[(name, labels) := counter_value m name labels + amount]> (counters m);
     gauges := gauges m;
     histograms := histograms m |}.

(** [gauge.labels(...).set(value)] *)
Definition gauge_set (name : string) (labels : list string) (value : Z) (m : registry)
  : registry :=
  {| counters := counters m;
     gauges := <[(name, labels) := value]> (gauges m);
     histograms := histograms m |}.

(** [histogram.labels(...).observe(value)] *)
Definition observe (name : string) (labels : list string) (value : option Z)
    (m : registry) : registry :=
  {| counters := counters m;
     gauges := gauges m;
     histograms := <[(name, labels) := observations m name labels ++ [value]]>
                     (histograms m) |}.

Definition cleanup_files_found_total : string := "bronson_cleanup_files_found_total".
Definition cleanup_current_files : string := "bronson_cleanup_current_files".
Definition cleanup_files_removed_total : string := "bronson_cleanup_files_removed_total".
Definition cleanup_errors_total : string := "bronson_cleanup_errors_total".
Definition cleanup_operation_duration : string :=
  "bronson_cleanup_operation_duration_seconds".
Definition cleanup_directory_size_bytes : string :=
  "bronson_cleanup_directory_size_bytes".
Definition scan_files_found_total : string := "bronson_scan_files_found_total".
Definition scan_current_files : string := "bronson_scan_current_files".
Definition scan_errors_total : string := "bronson_scan_errors_total".
Definition scan_operation_duration : string :=
  "bronson_scan_operation_duration_seconds".
Definition scan_directory_size_bytes : string := "bronson_scan_directory_size_bytes".
Definition comparison_duplicates_found_total : string :=
  "bronson_comparison_duplicates_found_total".
Definition comparison_errors_total : string := "bronson_comparison_errors_total".
Definition comparison_operation_duration : string :=
  "bronson_comparison_operation_duration_seconds".
Definition subdirectories_found_total : string := "bronson_subdirectories_found_total".

(** A loop whose body may raise, over a state and the registry. *)
Fixpoint for_each_observed {A S : Type} (l : list A)
    (body : A -> S -> registry -> result S * registry) (s : S) (m : registry)
  : result S * registry :=
  match l with
  | [] => (Ok s, m)
  | x :: rest =>
      match body x s m with
      | (Ok s', m') => for_each_observed rest body s' m'
      | (Raise e, m') => (Raise e, m')
      end
  end.

Definition validate_directory_observed (w : world)
    (directory_path cleanup_dir operation_type : string) (m : registry)
  : result unit * registry :=
  if negb (path_exists w directory_path) then
    let m :=
      if String.eqb operation_type "scan" then
        inc scan_errors_total [cleanup_dir; "directory_not_found"] 1 m
      else if String.eqb operation_type "cleanup" then
        inc cleanup_errors_total [cleanup_dir; "directory_not_found"] 1 m
      else if String.eqb operation_type "comparison" then
        inc comparison_errors_total [cleanup_dir; "directory_not_found"] 1 m
      else m in
    (Raise (HTTPException 404
              ("Configured directory " +:+ cleanup_dir +:+ " not found")), m)
  else
    let dir_str := resolve w directory_path in
    let allowed_tmp_paths := map (resolve w) tmp_paths in
    if negb (existsb (fun tmp_path => at_or_under dir_str tmp_path)
                     allowed_tmp_paths)
    then
      (for_each critical_dirs
         (fun sys_dir _ =>
            let sys_dir_path := resolve w sys_dir in
            if at_or_under dir_str sys_dir_path
            then Raise protected_location
            else Ok tt)
         tt, m)
    else (Ok tt, m).

(** The loop that fills the dictionary [pattern_counts]. *)
Definition pattern_counts (pattern_matches : gmap string string) : gmap string Z :=
  map_fold
    (fun _ pattern pattern_counts =>
       <[pattern := default 0 (pattern_counts !! pattern) + 1]> pattern_counts)
    ∅ pattern_matches.

(** "Record metrics for found files or zero out if none found": the block
    that scan and cleanup share, each with its own counter and gauge. *)
Definition record_found (found_total current_files cleanup_dir : string)
    (patterns : list string) (pattern_matches : gmap string string) (m : registry)
  : registry :=
  if bool_decide (pattern_matches <> ∅) then
    let pattern_counts := pattern_counts pattern_matches in
    foldl
      (fun m pattern =>
         let count := default 0 (pattern_counts !! pattern) in
         gauge_set current_files [cleanup_dir; pattern] count
           (inc found_total [cleanup_dir; pattern] count m))
      m patterns
  else
    foldl
      (fun m pattern =>
         gauge_set current_files [cleanup_dir; pattern] 0
           (inc found_total [cleanup_dir; pattern] 0 m))
      m patterns.

(** "Update current files gauge after removal".  Each key was already
    looked up by the removal loop, so no lookup fails here. *)
Definition zero_removed (cleanup_dir : string)
    (pattern_matches : gmap string string) (removed_files : list string)
    (m : registry) : registry :=
  let removed_patterns : gset string :=
    list_to_set (omap (fun file_path_str => pattern_matches !! file_path_str)
                      removed_files) in
  foldl (fun m pattern => gauge_set cleanup_current_files [cleanup_dir; pattern] 0 m)
        m (elements removed_patterns).

Definition get_subdirectories_observed (w : world)
    (directory_path operation_type : string) (m : registry)
  : list string * registry :=
  let subdirectories := get_subdirectories w directory_path in
  (subdirectories,
   if negb (String.eqb operation_type "comparison") then
     inc subdirectories_found_total [directory_path; operation_type]
       (Z.of_nat (length subdirectories)) m
   else m).

Fixpoint remove_files_observed (cleanup_dir : string) (dry_run : bool)
    (pattern_matches : gmap string string)
    (found_files removed_files errors : list string) (w : world) (m : registry)
  : result (list string * list string) * world * registry :=
  match found_files with
  | [] => (Ok (removed_files, errors), w, m)
  | file_path_str :: rest =>
      match pattern_matches !! file_path_str with
      | None => (Raise (KeyError file_path_str), w, m)
      | Some pattern =>
          if negb dry_run then
            match unlink w file_path_str with
            | Ok w' =>
                remove_files_observed cleanup_dir dry_run pattern_matches rest
                  (removed_files ++ [file_path_str]) errors w'
                  (inc cleanup_files_removed_total [cleanup_dir; pattern] 1 m)
            | Raise e =>
                let error_msg :=
                  "Failed to remove " +:+ file_path_str +:+ ": " +:+ str_exn e in
                remove_files_observed cleanup_dir dry_run pattern_matches rest
                  removed_files (errors ++ [error_msg]) w
                  (inc cleanup_errors_total [cleanup_dir; "file_removal_error"] 1 m)
            end
          else
            remove_files_observed cleanup_dir dry_run pattern_matches rest
              removed_files errors w m
      end
  end.

Definition is_empty_list {A : Type} (l : list A) : bool :=
  match l with
  | [] => true
  | _ :: _ => false
  end.

Section Observed.

Variable re_search : string -> string -> result bool.

Fixpoint match_patterns_observed (w : world)
    (directory_path operation_type file_path file : string)
    (patterns : list string) (st : scan_state) (m : registry)
  : result scan_state * registry :=
  match patterns with
  | [] => (Ok st, m)
  | pattern :: rest =>
      match re_search pattern file with
      | Raise e => (Raise e, m)
      | Ok true =>
          (Ok (record_match w file_path pattern st),
           match stat_size w file_path with
           | Ok file_size =>
               if String.eqb operation_type "scan" then
                 observe scan_directory_size_bytes [directory_path; pattern]
                   (Some file_size) m
               else
                 observe cleanup_directory_size_bytes [directory_path; pattern]
                   (Some file_size) m
           | Raise _ => m
           end)
      | Ok false =>
          match_patterns_observed w directory_path operation_type file_path file
            rest st m
      end
  end.

Definition find_unwanted_files_observed (w : world) (directory_path : string)
    (patterns : list string) (operation_type : string) (m : registry)
  : result scan_state * registry :=
  for_each_observed (os_walk w directory_path)
    (fun '(root, _, files) st m =>
       for_each_observed files
         (fun file st m =>
            match_patterns_observed w directory_path operation_type
              (path_join root file) file patterns st m)
         st m)
    empty_scan m.

Definition cleanup_unwanted_files_observed (w : world) (dry_run : bool)
    (patterns : option (list string)) (m : registry)
  : result cleanup_response * world * registry :=
  let cleanup_dir := get_cleanup_directory w in
  let patterns := default DEFAULT_UNWANTED_PATTERNS patterns in
  let directory_path := resolve w cleanup_dir in
  match validate_directory_observed w directory_path cleanup_dir "cleanup" m with
  | (Raise e, m) =>
      (Raise (HTTPException 400 ("Invalid cleanup directory: " +:+ str_exn e)), w,
       inc cleanup_errors_total [cleanup_dir; "validation_error"] 1 m)
  | (Ok _, m) =>
      match find_unwanted_files_observed w directory_path patterns "cleanup" m with
      | (Raise e, m) =>
          (Raise (HTTPException 500 ("Error during cleanup: " +:+ str_exn e)), w,
           inc cleanup_errors_total [cleanup_dir; "operation_error"] 1 m)
      | (Ok st, m) =>
          match remove_files_observed cleanup_dir dry_run (pattern_matches st)
                  (found_files st) [] [] w m with
          | (Raise e, w', m) =>
              (Raise (HTTPException 500
                        ("Error during cleanup: " +:+ str_exn e)), w',
               inc cleanup_errors_total [cleanup_dir; "operation_error"] 1 m)
          | (Ok (removed_files, errors), w', m) =>
              let m := record_found cleanup_files_found_total cleanup_current_files
                         cleanup_dir patterns (pattern_matches st) m in
              let m := if negb dry_run && negb (is_empty_list removed_files)
                       then zero_removed cleanup_dir (pattern_matches st)
                              removed_files m
                       else m in
              let m := observe cleanup_operation_duration ["cleanup"; cleanup_dir]
                         None m in
              (Ok {| cleanup_directory := directory_path;
                     cleanup_dry_run := dry_run;
                     cleanup_patterns_used := patterns;
                     cleanup_files_found := length (found_files st);
                     cleanup_files_removed := length removed_files;
                     cleanup_errors := length errors;
                     cleanup_found_files := found_files st;
                     cleanup_removed_files := removed_files;
                     cleanup_error_details := errors |}, w', m)
          end
      end
  end.

Definition scan_for_unwanted_files_observed (w : world)
    (patterns : option (list string)) (m : registry)
  : result scan_response * registry :=
  let patterns := default DEFAULT_UNWANTED_PATTERNS patterns in
  let cleanup_dir := get_cleanup_directory w in
  let directory_path := resolve w cleanup_dir in
  match validate_directory_observed w directory_path cleanup_dir "scan" m with
  | (Raise e, m) =>
      (Raise (HTTPException 400 ("Invalid cleanup directory: " +:+ str_exn e)),
       inc scan_errors_total [cleanup_dir; "directory_error"] 1 m)
  | (Ok _, m) =>
      match find_unwanted_files_observed w directory_path patterns "scan" m with
      | (Raise e, m) =>
          (Raise (HTTPException 500 ("Error during scan: " +:+ str_exn e)),
           inc scan_errors_total [cleanup_dir; "operation_error"] 1 m)
      | (Ok st, m) =>
          let m := record_found scan_files_found_total scan_current_files
                     cleanup_dir patterns (pattern_matches st) m in
          let m := observe scan_operation_duration ["scan"; cleanup_dir] None m in
          (Ok {| scan_directory := directory_path;
                 scan_patterns_used := patterns;
                 scan_files_found := length (found_files st);
                 scan_total_size_bytes := sum_values (file_sizes st);
                 scan_found_files := found_files st;
                 scan_file_sizes := file_sizes st |}, m)
      end
  end.

End Observed.

Definition compare_directories_observed (w : world) (verbose : bool) (m : registry)
  : result compare_response * registry :=
  let cleanup_dir := get_cleanup_directory w in
  let target_dir := get_target_directory w in
  let cleanup_path := resolve w cleanup_dir in
  let target_path := resolve w target_dir in
  match validate_directory_observed w cleanup_path cleanup_dir "comparison" m with
  | (Raise (HTTPException status_code detail), m) =>
      (Raise (HTTPException status_code detail), m)
  | (Raise e, m) =>
      (Raise (HTTPException 500
                ("Error during directory comparison: " +:+ str_exn e)),
       inc comparison_errors_total
         [cleanup_dir +:+ ":" +:+ target_dir; "operation_error"] 1 m)
  | (Ok _, m) =>
      match validate_directory_observed w target_path target_dir "comparison" m with
      | (Raise (HTTPException status_code detail), m) =>
          (Raise (HTTPException status_code detail), m)
      | (Raise e, m) =>
          (Raise (HTTPException 500
                    ("Error during directory comparison: " +:+ str_exn e)),
           inc comparison_errors_total
             [cleanup_dir +:+ ":" +:+ target_dir; "operation_error"] 1 m)
      | (Ok _, m) =>
          let '(cleanup_subdirs, m) :=
            get_subdirectories_observed w cleanup_path "comparison" m in
          let '(target_subdirs, m) :=
            get_subdirectories_observed w target_path "comparison" m in
          let cleanup_set : gset string := list_to_set cleanup_subdirs in
          let target_set : gset string := list_to_set target_subdirs in
          let duplicates := elements (cleanup_set ∩ target_set) in
          let m := gauge_set comparison_duplicates_found_total
                     [cleanup_dir; target_dir] (Z.of_nat (length duplicates)) m in
          let m := observe comparison_operation_duration
                     ["compare"; cleanup_dir; target_dir] None m in
          (Ok {| cmp_cleanup_directory := cleanup_path;
                 cmp_target_directory := target_path;
                 cmp_duplicates := duplicates;
                 cmp_duplicate_count := length duplicates;
                 cmp_total_cleanup_subdirectories := length cleanup_subdirs;
                 cmp_total_target_subdirectories := length target_subdirs;
                 cmp_cleanup_subdirectories :=
                   if verbose then Some cleanup_subdirs else None;
                 cmp_target_subdirectories :=
                   if verbose then Some target_subdirs else None |}, m)
      end
  end.

(** The number of entries of [pattern_matches] recorded with [pattern]. *)
Definition matched_with (pattern_matches : gmap string string) (pattern : string)
  : nat :=
  length (filter (fun kv => kv.2 = pattern) (map_to_list pattern_matches)).

(** The registries reached from [m] by incrementing counters named in [cs]
    by amounts that are not negative, setting gauges named in [gs] and
    observing in histograms named in [hs]. *)
Inductive updates (cs gs hs : list string) (m : registry) : registry -> Prop :=
| updates_refl : updates cs gs hs m m
| updates_inc m' name labels amount :
    updates cs gs hs m m' -> name ∈ cs -> 0 <= amount ->
    updates cs gs hs m (inc name labels amount m')
| updates_set m' name labels value :
    updates cs gs hs m m' -> name ∈ gs ->
    updates cs gs hs m (gauge_set name labels value m')
| updates_observe m' name labels value :
    updates cs gs hs m m' -> name ∈ hs ->
    updates cs gs hs m (observe name labels value m').

(** The metrics that each endpoint declares for itself. *)
Definition scan_metrics : list string :=
  [scan_files_found_total; scan_current_files; scan_errors_total;
   scan_operation_duration; scan_directory_size_bytes].

Definition cleanup_metrics : list string :=
  [cleanup_files_found_total; cleanup_current_files; cleanup_files_removed_total;
   cleanup_errors_total; cleanup_operation_duration; cleanup_directory_size_bytes].

Definition comparison_metrics : list string :=
  [comparison_duplicates_found_total; comparison_errors_total;
   comparison_operation_duration].

Section SizeObservations.

Variable re_search : string -> string -> result bool.

(** What one file of the walk adds to the size histograms, when every
    pattern compiles. *)
Definition observe_size (w : world) (directory_path operation_type : string)
    (patterns : list string) (m : registry) (f : string * string) : registry :=
  match first_match re_search (snd f) patterns with
  | Some pattern =>
      match stat_size w (fst f) with
      | Ok file_size =>
          if String.eqb operation_type "scan" then
            observe scan_directory_size_bytes [directory_path; pattern]
              (Some file_size) m
          else
            observe cleanup_directory_size_bytes [directory_path; pattern]
              (Some file_size) m
      | Raise _ => m
      end
  | None => m
  end.

(** The sizes of the files of [l] whose first matching pattern is [p] and
    whose [stat] succeeds. *)
Definition readable_sizes (w : world) (patterns : list string) (p : string)
    (l : list (string * string)) : list Z :=
  omap (fun f => match stat_size w (fst f) with
                 | Ok file_size => Some file_size
                 | Raise _ => None
                 end)
       (filter (fun f => first_match re_search (snd f) patterns = Some p) l).

End SizeObservations.

(** * Properties *)

#[local] Arguments String.append !s1 s2 : simpl nomatch.

(** ** Strings *)

Lemma startswith_spec (s pre : string) :
  startswith s pre = true <-> exists t, s = pre +:+ t.
Proof.
  revert s. induction pre as [|a pre IH]; intros s; simpl.
  - split; [intros _; by exists s | done].
  - destruct s as [|b s]; [split; [done | by intros [t Ht]] |].
    destruct (Ascii.eqb_spec a b) as [->|Hab]; simpl.
    + rewrite IH. split; intros [t Ht]; exists t; congruence.
    + split; [done | intros [t Ht]; congruence].
Qed.

Lemma string_app_assoc (a b c : string) : (a +:+ b) +:+ c = a +:+ (b +:+ c).
Proof. induction a; simpl; [done | by f_equal]. Qed.

Lemma string_app_empty_r (a : string) : a +:+ "" = a.
Proof. induction a; simpl; [done | by f_equal]. Qed.

Lemma string_eqb_true (a b : string) : String.eqb a b = true <-> a = b.
Proof. apply String.eqb_eq. Qed.

Lemma string_eqb_false (a b : string) : String.eqb a b = false <-> a <> b.
Proof. apply String.eqb_neq. Qed.

Lemma parts_go_sep (cur a b : string) :
  parts_go cur (a +:+ "/" +:+ b) = parts_go cur a ++ parts_go "" b.
Proof.
  revert cur. induction a as [|c a IH]; intros cur; simpl.
  - by destruct (String.eqb cur "").
  - destruct (Ascii.eqb c "/").
    + rewrite IH. by rewrite <- app_assoc.
    + apply IH.
Qed.

Lemma parts_go_no_sep (cur name : string) :
  no_sep name = true ->
  parts_go cur name = if String.eqb (cur +:+ name) "" then [] else [cur +:+ name].
Proof.
  revert cur. induction name as [|c name IH]; intros cur Hn; simpl in *.
  - by rewrite string_app_empty_r.
  - apply andb_prop in Hn as [Hc Hn]. apply negb_true_iff in Hc. rewrite Hc.
    rewrite IH by done. by rewrite string_app_assoc.
Qed.

Lemma path_parts_name (name : string) :
  valid_name name = true -> path_parts name = [name].
Proof.
  intros [Hne Hn]%andb_prop. unfold path_parts.
  rewrite parts_go_no_sep by done. simpl.
  apply negb_true_iff in Hne. by rewrite Hne.
Qed.

Lemma parts_go_trailing_sep (cur a : string) :
  parts_go cur (a +:+ "/") = parts_go cur a.
Proof.
  pose proof (parts_go_sep cur a "") as H. simpl in H.
  by rewrite app_nil_r in H.
Qed.

Lemma endswith_sep_split (a : string) :
  endswith_sep a = true -> exists a', a = a' +:+ "/".
Proof.
  induction a as [|c a IH]; [done |]. simpl.
  destruct a as [|d a].
  - intros ->%Ascii.eqb_eq. by exists "".
  - intros [a' Ha]%IH. exists (String c a'). simpl. by rewrite Ha.
Qed.

Lemma valid_name_not_absolute (name : string) :
  valid_name name = true -> startswith name "/" = false.
Proof.
  intros [Hne Hn]%andb_prop. destruct name as [|c name]; [done |].
  apply andb_prop in Hn as [Hc _]. apply negb_true_iff in Hc.
  change (Ascii.eqb "/" c && true = false).
  rewrite Ascii.eqb_sym, Hc. done.
Qed.

(** Joining a directory entry to a path adds one component. *)
Lemma path_parts_join (top name : string) :
  valid_name name = true ->
  path_parts (path_join top name) = path_parts top ++ [name].
Proof.
  intros Hv. unfold path_join. rewrite valid_name_not_absolute by done.
  unfold path_parts.
  destruct (String.eqb top "") eqn:Htop; simpl.
  - apply string_eqb_true in Htop as ->. simpl. by apply path_parts_name.
  - destruct (endswith_sep top) eqn:Hend.
    + apply endswith_sep_split in Hend as [a ->].
      rewrite string_app_assoc, parts_go_sep, parts_go_trailing_sep.
      f_equal. by apply path_parts_name.
    + change (top +:+ String "/" name) with (top +:+ "/" +:+ name).
      rewrite parts_go_sep. f_equal. by apply path_parts_name.
Qed.

(** ** The validator *)

Lemma at_or_under_descends (dir_str p : string) :
  at_or_under dir_str p = true -> equals_or_descends p dir_str = true.
Proof.
  unfold at_or_under, equals_or_descends.
  intros [->|H]%orb_prop; [done |]. apply orb_true_iff. right.
  destruct (endswith_sep p); [| done].
  apply startswith_spec in H as [t ->]. apply startswith_spec.
  exists ("/" +:+ t). by rewrite string_app_assoc.
Qed.

Lemma descends_at_or_under (dir_str p : string) :
  endswith_sep p = false ->
  equals_or_descends p dir_str = at_or_under dir_str p.
Proof. unfold at_or_under, equals_or_descends. by intros ->. Qed.

Lemma critical_dirs_no_sep (r : string) :
  r ∈ critical_dirs -> r <> "/" -> endswith_sep r = false.
Proof.
  unfold critical_dirs. intros Hr Hne.
  repeat (apply elem_of_cons in Hr as [->|Hr]; [done |]).
  by apply elem_of_nil in Hr.
Qed.

Lemma tmp_paths_no_sep (t : string) : t ∈ tmp_paths -> endswith_sep t = false.
Proof.
  unfold tmp_paths. intros Ht.
  repeat (apply elem_of_cons in Ht as [->|Ht]; [done |]).
  by apply elem_of_nil in Ht.
Qed.

(** The loop over [critical_dirs] raises as soon as one entry applies. *)
Lemma critical_loop_raises (f : string -> bool) (l : list string) (r : string) :
  r ∈ l -> f r = true ->
  for_each l (fun sys_dir _ => if f sys_dir then Raise protected_location else Ok tt) tt
  = Raise protected_location.
Proof.
  induction l as [|x l IH]; intros Hr Hf; [by apply elem_of_nil in Hr |].
  simpl. destruct (f x) eqn:Hx; [done |]. simpl.
  apply elem_of_cons in Hr as [->|Hr]; [congruence | by apply IH].
Qed.

Lemma critical_loop_passes (f : string -> bool) (l : list string) :
  (forall r, r ∈ l -> f r = false) ->
  for_each l (fun sys_dir _ => if f sys_dir then Raise protected_location else Ok tt) tt
  = Ok tt.
Proof.
  induction l as [|x l IH]; intros Hf; [done |]. simpl.
  rewrite Hf by apply list_elem_of_here. simpl.
  apply IH. intros r Hr. apply Hf. by apply list_elem_of_further.
Qed.

Lemma validate_directory_missing (w : world) (directory_path cleanup_dir : string) :
  path_exists w directory_path = false ->
  validate_directory w directory_path cleanup_dir
  = Raise (HTTPException 404
             ("Configured directory " +:+ cleanup_dir +:+ " not found")).
Proof. intros H. unfold validate_directory. by rewrite H. Qed.

(** What the code decides, in the terms the code uses. *)
Lemma validate_directory_allowed (w : world) (directory_path cleanup_dir t : string) :
  path_exists w directory_path = true ->
  t ∈ tmp_paths ->
  at_or_under (resolve w directory_path) (resolve w t) = true ->
  validate_directory w directory_path cleanup_dir = Ok tt.
Proof.
  intros Hex Ht Hu. unfold validate_directory. rewrite Hex. cbn [negb].
  assert (existsb (fun tmp_path => at_or_under (resolve w directory_path) tmp_path)
            (map (resolve w) tmp_paths) = true) as ->; [| done].
  apply existsb_exists. exists (resolve w t). split; [| done].
  apply in_map. by apply list_elem_of_In.
Qed.

Lemma validate_directory_denied (w : world) (directory_path cleanup_dir r : string) :
  path_exists w directory_path = true ->
  existsb (fun tmp_path => at_or_under (resolve w directory_path) tmp_path)
          (map (resolve w) tmp_paths) = false ->
  r ∈ critical_dirs ->
  at_or_under (resolve w directory_path) (resolve w r) = true ->
  validate_directory w directory_path cleanup_dir = Raise protected_location.
Proof.
  intros Hex Hallow Hr Hu. unfold validate_directory. rewrite Hex. cbn [negb].
  rewrite Hallow. cbn [negb].
  by apply (critical_loop_raises
              (fun sys_dir => at_or_under (resolve w directory_path) (resolve w sys_dir))
              critical_dirs r).
Qed.

Lemma validate_directory_passes (w : world) (directory_path cleanup_dir : string) :
  path_exists w directory_path = true ->
  (forall r, r ∈ critical_dirs ->
     at_or_under (resolve w directory_path) (resolve w r) = false) ->
  validate_directory w directory_path cleanup_dir = Ok tt.
Proof.
  intros Hex Hr. unfold validate_directory. rewrite Hex. cbn [negb].
  destruct (existsb _ _); [done |]. cbn [negb].
  by apply (critical_loop_passes
              (fun sys_dir => at_or_under (resolve w directory_path) (resolve w sys_dir))).
Qed.

(** The validator answers one of three things. *)
Lemma validate_directory_cases (w : world) (directory_path cleanup_dir : string) :
  validate_directory w directory_path cleanup_dir = Ok tt
  \/ validate_directory w directory_path cleanup_dir = Raise protected_location
  \/ validate_directory w directory_path cleanup_dir
     = Raise (HTTPException 404
                ("Configured directory " +:+ cleanup_dir +:+ " not found")).
Proof.
  unfold validate_directory.
  destruct (path_exists w directory_path); cbn [negb]; [| by right; right].
  destruct (existsb _ _); cbn [negb]; [by left |].
  induction critical_dirs as [|x l IH]; cbn [for_each]; [by left |].
  destruct (at_or_under _ _); cbn [bind]; [right; by left | apply IH].
Qed.

(** C1, as amended.  A path that exists, whose resolved form is neither an
    allowlisted temporary prefix (in resolved form) nor a descendant of one,
    and whose resolved form is a denylisted root (in resolved form), or a
    descendant of one that is not the root directory itself, is refused with
    the 400 "protected system location" error.  For [/] only the root
    directory is refused, not what lies below it. *)
Theorem validate_directory_protected
    (w : world) (directory_path cleanup_dir r : string) :
  path_exists w directory_path = true ->
  (forall t, t ∈ tmp_paths ->
     equals_or_descends (resolve w t) (resolve w directory_path) = false) ->
  r ∈ critical_dirs ->
  resolve w directory_path = resolve w r
  \/ (endswith_sep (resolve w r) = false
      /\ equals_or_descends (resolve w r) (resolve w directory_path) = true) ->
  validate_directory w directory_path cleanup_dir
  = Raise (HTTPException 400
             "Configured cleanup directory is in a protected system location").
Proof.
  intros Hex Htmp Hr Hunder.
  apply (validate_directory_denied w directory_path cleanup_dir r); try done.
  - apply not_true_is_false. intros (t' & Hin & Ht')%existsb_exists.
    apply in_map_iff in Hin as (t & <- & Hin).
    apply at_or_under_descends in Ht'.
    rewrite Htmp in Ht' by (by apply list_elem_of_In). done.
  - destruct Hunder as [->|[Hsep Hd]].
    + unfold at_or_under. by rewrite String.eqb_refl.
    + by rewrite <- descends_at_or_under.
Qed.

Lemma validate_directory_protected_witness :
  validate_directory Examples.linux "/etc/cron.d" "/etc/cron.d"
  = Raise (HTTPException 400
             "Configured cleanup directory is in a protected system location").
Proof.
  apply (validate_directory_protected Examples.linux "/etc/cron.d" "/etc/cron.d" "/etc").
  - reflexivity.
  - intros t Ht. unfold tmp_paths in Ht.
    repeat (apply elem_of_cons in Ht as [->|Ht]; [reflexivity |]).
    by apply elem_of_nil in Ht.
  - unfold critical_dirs. do 3 apply list_elem_of_further. apply list_elem_of_here.
  - right. split; reflexivity.
Defined.

(** C1 as the specification words it fails: [/data], the default cleanup
    root, exists, lies under no temporary prefix, is a descendant of the
    denylisted root [/], and is accepted. *)
Lemma validate_directory_root_descendant_accepted :
  path_exists Examples.linux "/data" = true
  /\ forallb (fun t => negb (equals_or_descends t (resolve Examples.linux "/data")))
       tmp_paths = true
  /\ In "/" critical_dirs
  /\ equals_or_descends "/" (resolve Examples.linux "/data") = true
  /\ validate_directory Examples.linux "/data" "/data" = Ok tt.
Proof. repeat split; try reflexivity. by left. Qed.

(** The eight roots other than [/] resolve to something that is not the
    root directory whenever they resolve to themselves. *)
Lemma critical_dir_self_resolved (w : world) (r : string) :
  r ∈ critical_dirs -> r <> "/" -> resolve w r = r ->
  endswith_sep (resolve w r) = false.
Proof. intros Hr Hne ->. by apply critical_dirs_no_sep. Qed.

(** C5.  A path that exists and whose resolved form is an allowlisted
    temporary prefix (in resolved form, and not the root directory), or a
    descendant of one, is accepted; nothing is asked of the denylist, which
    is not consulted. *)
Theorem validate_directory_allowlisted
    (w : world) (directory_path cleanup_dir t : string) :
  path_exists w directory_path = true ->
  t ∈ tmp_paths ->
  endswith_sep (resolve w t) = false ->
  equals_or_descends (resolve w t) (resolve w directory_path) = true ->
  validate_directory w directory_path cleanup_dir = Ok tt.
Proof.
  intros Hex Ht Hsep Hd.
  apply (validate_directory_allowed w directory_path cleanup_dir t); try done.
  by rewrite <- descends_at_or_under.
Qed.

(** On the macOS layout [/private/var/folders] lies under the denylisted
    [/var] (which resolves to [/private/var]) and is accepted all the same. *)
Lemma validate_directory_allowlisted_witness :
  at_or_under (resolve Examples.macos "/private/var/folders")
              (resolve Examples.macos "/var") = true
  /\ validate_directory Examples.macos "/private/var/folders" "/private/var/folders"
     = Ok tt.
Proof.
  split; [reflexivity |].
  apply (validate_directory_allowlisted Examples.macos _ _ "/private/var").
  - reflexivity.
  - unfold tmp_paths. do 2 apply list_elem_of_further. apply list_elem_of_here.
  - reflexivity.
  - reflexivity.
Defined.

(** A temporary prefix that resolves to itself is in resolved form and is
    not the root directory. *)
Lemma tmp_path_self_resolved (w : world) (t : string) :
  t ∈ tmp_paths -> resolve w t = t -> endswith_sep (resolve w t) = false.
Proof. intros Ht ->. by apply tmp_paths_no_sep. Qed.

(** ** Loops *)

Lemma for_each_pure {A S : Type} (l : list A) (body : A -> S -> result S)
    (g : S -> A -> S) (s : S) :
  (forall x s, x ∈ l -> body x s = Ok (g s x)) ->
  for_each l body s = Ok (foldl g s l).
Proof.
  revert s. induction l as [|x l IH]; intros s Hb; [done |]. simpl.
  rewrite Hb by apply list_elem_of_here. simpl.
  apply IH. intros y s' Hy. apply Hb. by apply list_elem_of_further.
Qed.

Lemma for_each_inv {A S : Type} (P : S -> Prop) (l : list A)
    (body : A -> S -> result S) (s s' : S) :
  (forall x s s', x ∈ l -> P s -> body x s = Ok s' -> P s') ->
  P s -> for_each l body s = Ok s' -> P s'.
Proof.
  revert s. induction l as [|x l IH]; intros s Hb Hs H; simpl in H.
  - by simplify_eq.
  - destruct (body x s) as [s1|e] eqn:Hx; [| done]. simpl in H.
    apply (IH s1); [| | done].
    + intros y t t' Hy. apply Hb. by apply list_elem_of_further.
    + apply (Hb x s s1); [apply list_elem_of_here | done | done].
Qed.

Lemma foldl_bind {A B S : Type} (g : S -> B -> S) (f : A -> list B)
    (l : list A) (s : S) :
  foldl g s (l ≫= f) = foldl (fun s x => foldl g s (f x)) s l.
Proof.
  revert s. induction l as [|x l IH]; intros s; [done |].
  change ((x :: l) ≫= f) with (f x ++ (l ≫= f)).
  by rewrite foldl_app, IH.
Qed.

(** ** The scanner *)

Section Scanner.

Variable re_search : string -> string -> result bool.

Lemma first_match_Some (file : string) (patterns : list string) (p : string) :
  Forall (compiles re_search) patterns ->
  first_match re_search file patterns = Some p
  <-> first_matching re_search file patterns p.
Proof.
  intros Hc. induction Hc as [|q rest Hq Hrest IH]; simpl.
  - split; [done |]. intros (before & after & H & _). by destruct before.
  - destruct (Hq file) as [b Hb]. rewrite Hb. destruct b.
    + split.
      * intros [= <-]. exists [], rest. by repeat split.
      * intros (before & after & H & Hbefore & Hp).
        destruct before as [|q' before]; simplify_eq/=; [done |].
        apply Forall_cons in Hbefore as [Hq' _]. congruence.
    + rewrite IH. split.
      * intros (before & after & -> & Hbefore & Hp).
        exists (q :: before), after. repeat split; [| done].
        by apply Forall_cons.
      * intros (before & after & H & Hbefore & Hp).
        destruct before as [|q' before]; simplify_eq/=; [congruence |].
        apply Forall_cons in Hbefore as [_ Hbefore]. by exists before, after.
Qed.

Lemma first_match_None (file : string) (patterns : list string) :
  Forall (compiles re_search) patterns ->
  first_match re_search file patterns = None
  <-> matches_none re_search file patterns.
Proof.
  intros Hc. unfold matches_none.
  induction Hc as [|q rest Hq Hrest IH]; simpl; [done |].
  destruct (Hq file) as [b Hb]. rewrite Hb. destruct b.
  - split; [done |]. intros [H _]%Forall_cons. congruence.
  - rewrite IH. split; [intros; by apply Forall_cons |].
    by intros [_ H]%Forall_cons.
Qed.

(** A file has at most one first matching pattern. *)
Lemma first_matching_unique (file : string) (patterns : list string) (p q : string) :
  Forall (compiles re_search) patterns ->
  first_matching re_search file patterns p ->
  first_matching re_search file patterns q -> p = q.
Proof.
  intros Hc Hp%first_match_Some Hq%first_match_Some; congruence.
Qed.

Lemma match_patterns_compiles (w : world) (file_path file : string)
    (patterns : list string) (st : scan_state) :
  Forall (compiles re_search) patterns ->
  match_patterns re_search w file_path file patterns st
  = Ok (scan_step re_search w patterns st (file_path, file)).
Proof.
  intros Hc. unfold scan_step. simpl.
  induction Hc as [|q rest Hq Hrest IH]; simpl; [done |].
  destruct (Hq file) as [b Hb]. rewrite Hb. simpl. by destruct b.
Qed.

(** With patterns that compile, the scan is a fold over the walked files. *)
Lemma find_unwanted_files_fold (w : world) (directory_path : string)
    (patterns : list string) :
  Forall (compiles re_search) patterns ->
  find_unwanted_files re_search w directory_path patterns
  = Ok (foldl (scan_step re_search w patterns) empty_scan
          (walk_files w directory_path)).
Proof.
  intros Hc. unfold find_unwanted_files, walk_files, files_of_walk.
  rewrite foldl_bind.
  apply for_each_pure. intros [[root dirs] files] st _.
  rewrite foldl_fmap.
  apply for_each_pure. intros file st' _.
  by apply match_patterns_compiles.
Qed.

Lemma record_match_sizes (w : world) (file_path pattern : string) (st : scan_state) :
  file_sizes (record_match w file_path pattern st)
  = <[file_path := recorded_size w file_path]> (file_sizes st).
Proof. unfold record_match, recorded_size. simpl. by destruct (stat_size _ _). Qed.

Section Fold.

Variables (w : world) (patterns : list string).

Lemma scan_fold_found (st : scan_state) (l : list (string * string)) :
  found_files (foldl (scan_step re_search w patterns) st l)
  = found_files st
    ++ (fst <$> filter (fun f => is_Some (first_match re_search (snd f) patterns)) l).
Proof.
  revert st. induction l as [|[fp f] l IH]; intros st; simpl.
  - by rewrite app_nil_r.
  - rewrite IH. unfold scan_step. simpl.
    rewrite filter_cons. simpl.
    destruct (first_match re_search f patterns) as [p|] eqn:Hf.
    + rewrite decide_True by done. simpl. by rewrite <- app_assoc.
    + rewrite decide_False by (by intros [? ?]). done.
Qed.

Lemma scan_fold_pattern_untouched (st : scan_state)
    (l : list (string * string)) (fp : string) :
  fp ∉ fst <$> l ->
  pattern_matches (foldl (scan_step re_search w patterns) st l) !! fp
  = pattern_matches st !! fp.
Proof.
  revert st. induction l as [|[fp' f] l IH]; intros st Hfp; simpl; [done |].
  rewrite fmap_cons in Hfp. apply not_elem_of_cons in Hfp as [Hne Hfp].
  rewrite IH by done. unfold scan_step. simpl in *.
  destruct (first_match re_search f patterns); [| done]. simpl.
  by rewrite lookup_insert_ne.
Qed.

Lemma scan_fold_pattern (st : scan_state) (l : list (string * string))
    (fp f p : string) :
  NoDup (fst <$> l) -> (fp, f) ∈ l ->
  first_match re_search f patterns = Some p ->
  pattern_matches (foldl (scan_step re_search w patterns) st l) !! fp = Some p.
Proof.
  revert st. induction l as [|[fp' f'] l IH]; intros st Hnd Hin Hf.
  - by apply elem_of_nil in Hin.
  - rewrite fmap_cons in Hnd. apply NoDup_cons in Hnd as [Hfresh Hnd].
    apply elem_of_cons in Hin as [[= <- <-]|Hin]; simpl.
    + rewrite scan_fold_pattern_untouched by done.
      unfold scan_step. simpl. rewrite Hf. simpl.
      by rewrite lookup_insert_eq.
    + by apply IH.
Qed.

Lemma scan_fold_size_kept (st : scan_state) (l : list (string * string))
    (fp : string) :
  file_sizes st !! fp = Some (recorded_size w fp) ->
  file_sizes (foldl (scan_step re_search w patterns) st l) !! fp
  = Some (recorded_size w fp).
Proof.
  revert st. induction l as [|[fp' f'] l IH]; intros st Hst; simpl; [done |].
  apply IH. unfold scan_step. simpl.
  destruct (first_match re_search f' patterns); [| done].
  rewrite record_match_sizes.
  destruct (decide (fp' = fp)) as [->|Hne].
  - by rewrite lookup_insert_eq.
  - by rewrite lookup_insert_ne.
Qed.

Lemma scan_fold_size (st : scan_state) (l : list (string * string))
    (fp f p : string) :
  (fp, f) ∈ l ->
  first_match re_search f patterns = Some p ->
  file_sizes (foldl (scan_step re_search w patterns) st l) !! fp
  = Some (recorded_size w fp).
Proof.
  revert st. induction l as [|[fp' f'] l IH]; intros st Hin Hf.
  - by apply elem_of_nil in Hin.
  - apply elem_of_cons in Hin as [[= <- <-]|Hin]; simpl.
    + apply scan_fold_size_kept. unfold scan_step. simpl.
      rewrite Hf, record_match_sizes. by rewrite lookup_insert_eq.
    + by apply IH.
Qed.

End Fold.

Lemma record_match_recorded (w : world) (fp p : string) (st : scan_state) :
  patterns_recorded st -> patterns_recorded (record_match w fp p st).
Proof.
  intros Hst fp'. unfold record_match. simpl.
  intros [Hin| ->%list_elem_of_singleton]%elem_of_app.
  - destruct (decide (fp = fp')) as [->|Hne].
    + rewrite lookup_insert_eq. by eexists.
    + rewrite lookup_insert_ne by done. by apply Hst.
  - rewrite lookup_insert_eq. by eexists.
Qed.

Lemma match_patterns_recorded (w : world) (fp f : string)
    (patterns : list string) (st st' : scan_state) :
  patterns_recorded st ->
  match_patterns re_search w fp f patterns st = Ok st' ->
  patterns_recorded st'.
Proof.
  intros Hst. induction patterns as [|q rest IH]; simpl.
  - by intros [= <-].
  - destruct (re_search q f) as [[|]|e]; simpl; [| done | done].
    intros [= <-]. by apply record_match_recorded.
Qed.

Lemma find_unwanted_files_recorded (w : world) (directory_path : string)
    (patterns : list string) (st : scan_state) :
  find_unwanted_files re_search w directory_path patterns = Ok st ->
  patterns_recorded st.
Proof.
  unfold find_unwanted_files.
  apply (for_each_inv patterns_recorded).
  - intros [[root dirs] files] s s' _ Hs.
    apply (for_each_inv patterns_recorded); [| done].
    intros file t t' _ Ht. by apply match_patterns_recorded.
  - intros fp Hfp. by apply elem_of_nil in Hfp.
Qed.

End Scanner.

(** ** Trees *)

Lemma node_ind' (P : node -> Prop)
    (Hfile : forall sz ue, P (File sz ue))
    (Hdir : forall l es, Forall (fun e => P (snd e)) es -> P (Dir l es))
    (n : node) : P n.
Proof.
  revert n. fix IH 1. intros [sz ue|l es]; [apply Hfile |].
  apply Hdir. induction es as [|e es IHes].
  - apply Forall_nil_2.
  - apply Forall_cons_2; [apply IH | apply IHes].
Qed.

Lemma walk_node_dir (top : string) (es : list (string * node)) :
  walk_node top (Dir true es)
  = (top, fst <$> filter (fun e => is_dir_node (snd e) = true) es,
          fst <$> filter (fun e => is_dir_node (snd e) = false) es)
    :: (es ≫= fun e =>
          if is_dir_node (snd e) then walk_node (path_join top (fst e)) (snd e)
          else []).
Proof.
  simpl. f_equal.
  induction es as [|[name c] es IH]; [done |].
  rewrite bind_cons, <- IH. done.
Qed.

Lemma rel_files_dir (es : list (string * node)) :
  rel_files (Dir true es)
  = ((fun e => [fst e]) <$> filter (fun e => is_dir_node (snd e) = false) es)
    ++ (es ≫= fun e =>
          if is_dir_node (snd e) then (fst e ::.) <$> rel_files (snd e) else []).
Proof.
  simpl. f_equal.
  induction es as [|[name c] es IH]; [done |].
  rewrite bind_cons, <- IH. done.
Qed.

Lemma wf_node_dir (l : bool) (es : list (string * node)) :
  wf_node (Dir l es) = true <->
  NoDup (fst <$> es)
  /\ Forall (fun e => valid_name (fst e) = true /\ wf_node (snd e) = true) es.
Proof.
  simpl. rewrite !andb_true_iff, bool_decide_eq_true.
  split.
  - intros [[Hnd Hnames] Hsub]. split; [done |].
    induction es as [|[name c] es IH]; [done |].
    simpl in Hnames. apply andb_prop in Hnames as [Hn Hnames].
    apply andb_prop in Hsub as [Hc Hsub].
    rewrite fmap_cons in Hnd. apply NoDup_cons in Hnd as [_ Hnd].
    apply Forall_cons. split; [done | by apply IH].
  - intros [Hnd Hes]. repeat split; [done | |].
    + apply forallb_forall. intros e He%list_elem_of_In.
      by apply (proj1 (Forall_forall _ _) Hes e).
    + clear Hnd. induction Hes as [|[name c] es [_ Hc] Hes IH]; [done |].
      simpl in Hc. by rewrite Hc, IH.
Qed.

Lemma files_of_walk_app (l1 l2 : list (string * list string * list string)) :
  files_of_walk (l1 ++ l2) = files_of_walk l1 ++ files_of_walk l2.
Proof. unfold files_of_walk. apply bind_app. Qed.

Lemma files_of_walk_bind {A : Type}
    (f : A -> list (string * list string * list string)) (l : list A) :
  files_of_walk (l ≫= f) = l ≫= fun x => files_of_walk (f x).
Proof.
  induction l as [|x l IH]; [done |].
  by rewrite !bind_cons, files_of_walk_app, IH.
Qed.

Lemma rel_files_nonempty (n : node) (rel : list string) :
  rel ∈ rel_files n -> rel <> [].
Proof.
  destruct n as [sz ue|[] es]; [by intros ?%elem_of_nil | | by intros ?%elem_of_nil].
  rewrite rel_files_dir.
  intros [(e & -> & _)%list_elem_of_fmap|(e & Hrel & _)%list_elem_of_bind]%elem_of_app;
    [done |].
  destruct (is_dir_node (snd e)); [| by apply elem_of_nil in Hrel].
  by apply list_elem_of_fmap in Hrel as (r & -> & _).
Qed.

(** The walked files are the relative files, joined to the top. *)
Lemma files_of_walk_node (n : node) :
  forall top, files_of_walk (walk_node top n) = place top <$> rel_files n.
Proof.
  induction n as [sz ue|l es IH] using node_ind'; intros top; [done |].
  destruct l; [| done].
  rewrite walk_node_dir, rel_files_dir.
  change (files_of_walk (?x :: ?l)) with (files_of_walk ([x] ++ l)).
  rewrite files_of_walk_app, fmap_app. f_equal.
  - unfold files_of_walk. rewrite bind_singleton.
    rewrite <- !list_fmap_compose. done.
  - rewrite files_of_walk_bind.
    induction IH as [|[name c] es Hc Hes IHes]; [done |].
    rewrite !bind_cons, fmap_app, IHes. f_equal. simpl.
    destruct (is_dir_node c); [| done].
    rewrite Hc, <- list_fmap_compose. apply list_fmap_ext.
    intros i rel Hrel. unfold place. simpl. f_equal.
    apply list_elem_of_lookup_2, rel_files_nonempty in Hrel. by destruct rel.
Qed.

Lemma entry_lookup_elem (es : list (string * node)) (name : string) (c : node) :
  NoDup (fst <$> es) -> (name, c) ∈ es -> entry_lookup name es = Some c.
Proof.
  induction es as [|[n' c'] es IH]; intros Hnd Hin; [by apply elem_of_nil in Hin |].
  rewrite fmap_cons in Hnd. apply NoDup_cons in Hnd as [Hfresh Hnd]. simpl.
  apply elem_of_cons in Hin as [[= <- <-]|Hin].
  - by rewrite String.eqb_refl.
  - destruct (String.eqb_spec n' name) as [->|Hne]; [| by apply IH].
    destruct Hfresh. apply list_elem_of_fmap. by exists (name, c).
Qed.

Lemma entry_lookup_Some (es : list (string * node)) (name : string) (c : node) :
  entry_lookup name es = Some c -> (name, c) ∈ es.
Proof.
  induction es as [|[n' c'] es IH]; [done |]. simpl.
  destruct (String.eqb_spec n' name) as [->|Hne].
  - intros [= <-]. apply list_elem_of_here.
  - intros H. by apply list_elem_of_further, IH.
Qed.

Lemma lookup_node_app (n : node) (a b : list string) :
  lookup_node n (a ++ b) = lookup_node n a ≫= fun c => lookup_node c b.
Proof.
  revert n. induction a as [|name a IH]; intros n; [done |]. simpl.
  destruct n as [sz ue|l es]; [done |].
  destruct (entry_lookup name es); [apply IH | done].
Qed.

Lemma wf_node_lookup (n c : node) (ps : list string) :
  wf_node n = true -> lookup_node n ps = Some c -> wf_node c = true.
Proof.
  revert n. induction ps as [|name ps IH]; intros n Hwf; simpl.
  - by intros [= <-].
  - destruct n as [sz ue|l es]; [done |].
    destruct (entry_lookup name es) as [c'|] eqn:Hc'; [| done].
    apply IH. apply wf_node_dir in Hwf as [_ Hes].
    apply entry_lookup_Some in Hc'.
    by apply (proj1 (Forall_forall _ _) Hes (name, c')).
Qed.

Lemma path_parts_place (top : string) (rel : list string) :
  Forall (fun name => valid_name name = true) rel ->
  path_parts (foldl path_join top rel) = path_parts top ++ rel.
Proof.
  revert top. induction rel as [|name rel IH]; intros top Hrel; simpl.
  - by rewrite app_nil_r.
  - apply Forall_cons in Hrel as [Hname Hrel].
    rewrite IH, path_parts_join by done. by rewrite <- app_assoc.
Qed.

(** A relative file of a well-formed tree is made of valid names and leads
    to a file. *)
Lemma rel_files_lookup (n : node) :
  forall rel, wf_node n = true -> rel ∈ rel_files n ->
    Forall (fun name => valid_name name = true) rel
    /\ exists sz ue, lookup_node n rel = Some (File sz ue).
Proof.
  induction n as [sz ue|l es IH] using node_ind'; intros rel Hwf Hrel;
    [by apply elem_of_nil in Hrel |].
  destruct l; [| by apply elem_of_nil in Hrel].
  apply wf_node_dir in Hwf as [Hnd Hes].
  rewrite rel_files_dir in Hrel.
  apply elem_of_app in Hrel
    as [(e & -> & He)%list_elem_of_fmap|(e & Hrel & He)%list_elem_of_bind].
  - apply list_elem_of_filter in He as [Hfile He]. destruct e as [name c].
    pose proof (proj1 (Forall_forall _ _) Hes _ He) as [Hname _].
    split; [by apply Forall_singleton |]. simpl.
    rewrite (entry_lookup_elem es name c) by done.
    destruct c; [by eexists _, _ | done].
  - destruct e as [name c]. simpl in Hrel.
    destruct (is_dir_node c); [| by apply elem_of_nil in Hrel].
    apply list_elem_of_fmap in Hrel as (r & -> & Hr).
    pose proof (proj1 (Forall_forall _ _) Hes _ He) as [Hname Hc].
    pose proof (proj1 (Forall_forall _ _) IH _ He r Hc Hr) as [Hvalid Hfile].
    split; [by apply Forall_cons |]. simpl.
    by rewrite (entry_lookup_elem es name c).
Qed.

Lemma rel_files_NoDup (n : node) : wf_node n = true -> NoDup (rel_files n).
Proof.
  induction n as [sz ue|l es IH] using node_ind'; intros Hwf;
    [apply NoDup_nil_2 |].
  destruct l; [| apply NoDup_nil_2].
  apply wf_node_dir in Hwf as [Hnd Hes].
  assert (Hsame : forall e1 e2, e1 ∈ es -> e2 ∈ es -> fst e1 = fst e2 -> e1 = e2).
  { intros [n1 c1] [n2 c2] H1 H2 Heq. simpl in Heq. subst n2.
    apply (entry_lookup_elem es n1 c1) in H1; [| done].
    apply (entry_lookup_elem es n1 c2) in H2; [| done]. congruence. }
  rewrite rel_files_dir. apply NoDup_app. repeat split.
  - apply NoDup_fmap_2_strong.
    + intros e1 e2 [_ H1]%list_elem_of_filter [_ H2]%list_elem_of_filter [= Heq].
      by apply Hsame.
    + apply NoDup_filter. by apply NoDup_fmap_1 in Hnd.
  - intros rel (e1 & -> & [Hfile H1]%list_elem_of_filter)%list_elem_of_fmap
      (e2 & Hrel & H2)%list_elem_of_bind.
    destruct (is_dir_node (snd e2)) eqn:Hdir; [| by apply elem_of_nil in Hrel].
    apply list_elem_of_fmap in Hrel as (r & [= Heq _] & Hr).
    rewrite (Hsame e1 e2) in Hfile by done. congruence.
  - apply NoDup_bind.
    + intros e1 e2 rel H1 H2 Hr1 Hr2. apply Hsame; [done | done |].
      destruct (is_dir_node (snd e1)); [| by apply elem_of_nil in Hr1].
      destruct (is_dir_node (snd e2)); [| by apply elem_of_nil in Hr2].
      apply list_elem_of_fmap in Hr1 as (r1 & -> & _).
      apply list_elem_of_fmap in Hr2 as (r2 & [= -> _] & _). done.
    + intros e He. destruct (is_dir_node (snd e)); [| apply NoDup_nil_2].
      apply NoDup_fmap_2; [apply _ |].
      apply (proj1 (Forall_forall _ _) IH _ He).
      by apply (proj1 (Forall_forall _ _) Hes _ He).
    + by apply NoDup_fmap_1 in Hnd.
Qed.

(** No file of a well-formed tree lies below another file. *)
Lemma rel_files_prefix_free (n : node) (a b : list string) :
  wf_node n = true -> a ∈ rel_files n -> b ∈ rel_files n ->
  a `prefix_of` b -> a = b.
Proof.
  intros Hwf Ha Hb [k ->].
  apply rel_files_lookup in Ha as [_ (sz & ue & Ha)]; [| done].
  apply rel_files_lookup in Hb as [_ (sz' & ue' & Hb)]; [| done].
  rewrite lookup_node_app, Ha in Hb. simpl in Hb.
  destruct k; [by rewrite app_nil_r | done].
Qed.

(** In a well-formed tree every walked file has a path of its own. *)
Lemma walk_node_NoDup (top : string) (n : node) :
  wf_node n = true -> NoDup (fst <$> files_of_walk (walk_node top n)).
Proof.
  intros Hwf. rewrite files_of_walk_node, <- list_fmap_compose.
  apply NoDup_fmap_2_strong; [| by apply rel_files_NoDup].
  intros a b Ha Hb Heq. simpl in Heq.
  apply (f_equal path_parts) in Heq.
  rewrite !path_parts_place in Heq by (by eapply rel_files_lookup).
  by apply app_inv_head in Heq.
Qed.

Lemma walk_files_NoDup (w : world) (top : string) :
  wf_node (fs w) = true -> NoDup (fst <$> walk_files w top).
Proof.
  intros Hwf. unfold walk_files, os_walk, node_at.
  destruct (lookup_node (fs w) (path_parts top)) as [n|] eqn:Hn.
  - apply walk_node_NoDup. by eapply wf_node_lookup.
  - apply NoDup_nil_2.
Qed.

Lemma walk_files_elem (w : world) (top root file : string)
    (dirs files : list string) :
  (root, dirs, files) ∈ os_walk w top -> file ∈ files ->
  (path_join root file, file) ∈ walk_files w top.
Proof.
  intros Hentry Hfile. unfold walk_files, files_of_walk.
  apply list_elem_of_bind. exists (root, dirs, files). split; [| done].
  apply list_elem_of_fmap. by exists file.
Qed.

Lemma NoDup_fst_functional {A B : Type} (l : list (A * B)) (a : A) (b b' : B) :
  NoDup (fst <$> l) -> (a, b) ∈ l -> (a, b') ∈ l -> b = b'.
Proof.
  induction l as [|[a0 b0] l IH]; intros Hnd H1 H2; [by apply elem_of_nil in H1 |].
  rewrite fmap_cons in Hnd. apply NoDup_cons in Hnd as [Hfresh Hnd].
  apply elem_of_cons in H1 as [H1|H1];
    apply elem_of_cons in H2 as [H2|H2]; simplify_eq; try done.
  - destruct Hfresh. apply list_elem_of_fmap. by exists (a0, b').
  - destruct Hfresh. apply list_elem_of_fmap. by exists (a0, b).
  - by apply IH.
Qed.

(** ** What a scan returns *)

Section ScanResults.

Variable re_search : string -> string -> result bool.

Lemma matching_has_first (file : string) (patterns : list string) :
  Forall (compiles re_search) patterns ->
  Exists (fun q => re_search q file = Ok true) patterns ->
  exists p, first_matching re_search file patterns p.
Proof.
  intros Hc Hex.
  destruct (first_match re_search file patterns) as [p|] eqn:Hp.
  - exists p. by apply first_match_Some.
  - apply first_match_None in Hp; [| done].
    apply Exists_exists in Hex as (q & Hq & Hm).
    pose proof (proj1 (Forall_forall _ _) Hp q Hq) as Hn. simpl in Hn. congruence.
Qed.

Lemma scan_found_elem (w : world) (patterns : list string)
    (l : list (string * string)) (fp f p : string) :
  (fp, f) ∈ l -> first_match re_search f patterns = Some p ->
  fp ∈ found_files (foldl (scan_step re_search w patterns) empty_scan l).
Proof.
  intros Hin Hp. rewrite scan_fold_found. simpl.
  apply list_elem_of_fmap. exists (fp, f). split; [done |].
  apply list_elem_of_filter. split; [| done]. simpl. rewrite Hp. by eexists.
Qed.

Lemma scan_found_NoDup (w : world) (patterns : list string)
    (l : list (string * string)) :
  NoDup (fst <$> l) ->
  NoDup (found_files (foldl (scan_step re_search w patterns) empty_scan l)).
Proof.
  intros Hnd. rewrite scan_fold_found. simpl.
  eapply sublist_NoDup; [exact Hnd |].
  apply fmap_sublist, sublist_filter.
Qed.

Lemma scan_found_inv (w : world) (patterns : list string)
    (l : list (string * string)) (fp : string) :
  fp ∈ found_files (foldl (scan_step re_search w patterns) empty_scan l) ->
  exists f p, (fp, f) ∈ l /\ first_match re_search f patterns = Some p.
Proof.
  rewrite scan_fold_found. simpl.
  intros ([fp' f] & -> & [[p Hp] Hin]%list_elem_of_filter)%list_elem_of_fmap.
  by exists f, p.
Qed.

(** C3.  With patterns that compile, on a well-formed tree: a walked file
    whose base name matches some pattern is in [found_files] exactly once,
    recorded with the first pattern of the list that matches it; a file
    that matches none is not in [found_files]. *)
Theorem find_unwanted_files_first_match
    (w : world) (directory_path : string) (patterns : list string) :
  wf_node (fs w) = true ->
  Forall (compiles re_search) patterns ->
  exists st,
    find_unwanted_files re_search w directory_path patterns = Ok st
    /\ forall root dirs files file,
         (root, dirs, files) ∈ os_walk w directory_path -> file ∈ files ->
         (Exists (fun q => re_search q file = Ok true) patterns ->
            exists p,
              first_matching re_search file patterns p
              /\ count_occ string_dec (found_files st) (path_join root file) = 1%nat
              /\ pattern_matches st !! path_join root file = Some p)
         /\ (matches_none re_search file patterns ->
               path_join root file ∉ found_files st).
Proof.
  intros Hwf Hc. eexists. split; [by apply find_unwanted_files_fold |].
  intros root dirs files file Hentry Hfile.
  pose proof (walk_files_elem w directory_path root file dirs files Hentry Hfile)
    as Hin.
  pose proof (walk_files_NoDup w directory_path Hwf) as Hnd.
  split.
  - intros Hex. destruct (matching_has_first file patterns Hc Hex) as [p Hp].
    exists p. split; [done |]. apply first_match_Some in Hp; [| done].
    split.
    + apply NoDup_count_occ'; [by apply NoDup_ListNoDup, scan_found_NoDup |].
      apply list_elem_of_In. by eapply scan_found_elem.
    + by eapply scan_fold_pattern.
  - intros Hnone%first_match_None; [| done].
    intros (f & p & Hin' & Hp)%scan_found_inv.
    rewrite (NoDup_fst_functional _ _ _ _ Hnd Hin Hin') in Hnone. congruence.
Qed.

Lemma find_unwanted_files_sizes
    (w : world) (directory_path : string) (patterns : list string) :
  Forall (compiles re_search) patterns ->
  exists st,
    find_unwanted_files re_search w directory_path patterns = Ok st
    /\ forall root dirs files file,
         (root, dirs, files) ∈ os_walk w directory_path -> file ∈ files ->
         Exists (fun q => re_search q file = Ok true) patterns ->
         path_join root file ∈ found_files st
         /\ file_sizes st !! path_join root file
            = Some (recorded_size w (path_join root file)).
Proof.
  intros Hc. eexists. split; [by apply find_unwanted_files_fold |].
  intros root dirs files file Hentry Hfile Hex.
  pose proof (walk_files_elem w directory_path root file dirs files Hentry Hfile)
    as Hin.
  destruct (matching_has_first file patterns Hc Hex) as [p Hp].
  apply first_match_Some in Hp; [| done].
  split; [by eapply scan_found_elem | by eapply scan_fold_size].
Qed.

(** *** The endpoints *)

Lemma resolve_and_validate_ok (w : world) (cleanup_dir : string) :
  validate_directory w (resolve w cleanup_dir) cleanup_dir = Ok tt ->
  resolve_and_validate w cleanup_dir = Ok (resolve w cleanup_dir).
Proof. unfold resolve_and_validate. by intros ->. Qed.

Lemma resolve_and_validate_raise (w : world) (cleanup_dir : string) (e : exn) :
  validate_directory w (resolve w cleanup_dir) cleanup_dir = Raise e ->
  resolve_and_validate w cleanup_dir = Raise e.
Proof. unfold resolve_and_validate. by intros ->. Qed.

Lemma remove_files_dry_run (pm : gmap string string)
    (found removed errors : list string) (w : world) :
  (forall fp, fp ∈ found -> is_Some (pm !! fp)) ->
  remove_files true pm found removed errors w = (Ok (removed, errors), w).
Proof.
  induction found as [|fp found IH]; intros Hpm; [done |]. simpl.
  destruct (Hpm fp) as [p ->]; [apply list_elem_of_here |].
  apply IH. intros fp' Hfp'. apply Hpm. by apply list_elem_of_further.
Qed.

Lemma remove_files_total (dry_run : bool) (pm : gmap string string)
    (found : list string) :
  (forall fp, fp ∈ found -> is_Some (pm !! fp)) ->
  forall removed errors w,
  exists removed' errors' w',
    remove_files dry_run pm found removed errors w = (Ok (removed', errors'), w').
Proof.
  induction found as [|fp found IH]; intros Hpm removed errors w;
    [by eexists _, _, _ |]. simpl.
  destruct (Hpm fp) as [p ->]; [apply list_elem_of_here |].
  assert (forall fp', fp' ∈ found -> is_Some (pm !! fp')) as Hrest.
  { intros fp' Hfp'. apply Hpm. by apply list_elem_of_further. }
  destruct dry_run; simpl; [by apply IH |].
  destruct (unlink w fp); by apply IH.
Qed.

Lemma scan_for_unwanted_files_ok (w : world) (patterns : option (list string))
    (st : scan_state) :
  let cleanup_dir := get_cleanup_directory w in
  let pats := default DEFAULT_UNWANTED_PATTERNS patterns in
  validate_directory w (resolve w cleanup_dir) cleanup_dir = Ok tt ->
  find_unwanted_files re_search w (resolve w cleanup_dir) pats = Ok st ->
  scan_for_unwanted_files re_search w patterns
  = Ok {| scan_directory := resolve w cleanup_dir;
          scan_patterns_used := pats;
          scan_files_found := length (found_files st);
          scan_total_size_bytes := sum_values (file_sizes st);
          scan_found_files := found_files st;
          scan_file_sizes := file_sizes st |}.
Proof.
  intros cleanup_dir pats Hv Hf. unfold scan_for_unwanted_files.
  fold cleanup_dir pats.
  by rewrite (resolve_and_validate_ok _ _ Hv), Hf.
Qed.

Lemma cleanup_unwanted_files_ok (w : world) (dry_run : bool)
    (patterns : option (list string)) (st : scan_state) :
  let cleanup_dir := get_cleanup_directory w in
  let pats := default DEFAULT_UNWANTED_PATTERNS patterns in
  validate_directory w (resolve w cleanup_dir) cleanup_dir = Ok tt ->
  find_unwanted_files re_search w (resolve w cleanup_dir) pats = Ok st ->
  exists removed errors w',
    remove_files dry_run (pattern_matches st) (found_files st) [] [] w
    = (Ok (removed, errors), w')
    /\ cleanup_unwanted_files re_search w dry_run patterns
       = (Ok {| cleanup_directory := resolve w cleanup_dir;
                cleanup_dry_run := dry_run;
                cleanup_patterns_used := pats;
                cleanup_files_found := length (found_files st);
                cleanup_files_removed := length removed;
                cleanup_errors := length errors;
                cleanup_found_files := found_files st;
                cleanup_removed_files := removed;
                cleanup_error_details := errors |}, w').
Proof.
  intros cleanup_dir pats Hv Hf.
  destruct (remove_files_total dry_run (pattern_matches st) (found_files st)
              (find_unwanted_files_recorded re_search _ _ _ _ Hf) [] [] w)
    as (removed & errors & w' & Hr).
  exists removed, errors, w'. split; [done |].
  unfold cleanup_unwanted_files. fold cleanup_dir pats.
  by rewrite (resolve_and_validate_ok _ _ Hv), Hf, Hr.
Qed.

(** C8.  When the validator passes and the patterns compile, scan and
    cleanup both return a result, and a matched file whose [stat] raises is
    in it all the same, with size 0. *)
Theorem unreadable_file_recorded_with_size_zero
    (w : world) (dry_run : bool) (patterns : option (list string)) :
  let cleanup_dir := get_cleanup_directory w in
  let pats := default DEFAULT_UNWANTED_PATTERNS patterns in
  validate_directory w (resolve w cleanup_dir) cleanup_dir = Ok tt ->
  Forall (compiles re_search) pats ->
  exists scan cleanup w',
    scan_for_unwanted_files re_search w patterns = Ok scan
    /\ cleanup_unwanted_files re_search w dry_run patterns = (Ok cleanup, w')
    /\ forall root dirs files file e,
         (root, dirs, files) ∈ os_walk w (resolve w cleanup_dir) ->
         file ∈ files ->
         Exists (fun q => re_search q file = Ok true) pats ->
         stat_size w (path_join root file) = Raise e ->
         path_join root file ∈ scan_found_files scan
         /\ scan_file_sizes scan !! path_join root file = Some 0
         /\ path_join root file ∈ cleanup_found_files cleanup.
Proof.
  intros cleanup_dir pats Hv Hc.
  destruct (find_unwanted_files_sizes w (resolve w cleanup_dir) pats Hc)
    as (st & Hf & Hsizes).
  destruct (cleanup_unwanted_files_ok w dry_run patterns st Hv Hf)
    as (removed & errors & w' & _ & Hcl).
  eexists _, _, w'. split; [by apply scan_for_unwanted_files_ok |].
  split; [exact Hcl |].
  intros root dirs files file e Hentry Hfile Hex Hstat. simpl.
  destruct (Hsizes root dirs files file Hentry Hfile Hex) as [Hfound Hsize].
  unfold recorded_size in Hsize. rewrite Hstat in Hsize. done.
Qed.

End ScanResults.

(** ** Removing files *)

Lemma entry_lookup_remove_ne (es : list (string * node)) (a b : string) :
  a <> b -> entry_lookup b (entry_remove a es) = entry_lookup b es.
Proof.
  intros Hne. induction es as [|[n c] es IH]; [done |]. simpl.
  destruct (String.eqb_spec n a) as [->|Hna]; simpl.
  - by rewrite (proj2 (String.eqb_neq a b)).
  - by rewrite IH.
Qed.

Lemma entry_lookup_replace_ne (es : list (string * node)) (a b : string) (c' : node) :
  a <> b -> entry_lookup b (entry_replace a c' es) = entry_lookup b es.
Proof.
  intros Hne. induction es as [|[n c] es IH]; [done |]. simpl.
  destruct (String.eqb_spec n a) as [->|Hna]; simpl.
  - by rewrite (proj2 (String.eqb_neq a b)).
  - by rewrite IH.
Qed.

Lemma entry_lookup_replace_eq (es : list (string * node)) (a : string) (c c' : node) :
  entry_lookup a es = Some c -> entry_lookup a (entry_replace a c' es) = Some c'.
Proof.
  induction es as [|[n c0] es IH]; [done |]. simpl.
  destruct (String.eqb_spec n a) as [->|Hna]; simpl.
  - by rewrite String.eqb_refl.
  - intros H. rewrite (proj2 (String.eqb_neq n a)) by done. by apply IH.
Qed.

Lemma failure_bind_ok {A B : Type} (r : result A) (f : A -> B) :
  failure (x <- r ;; Ok (f x)) = failure r.
Proof. by destruct r. Qed.

Lemma unlink_node_dir (path : string) (n n' : node) (ps : list string) :
  unlink_node path n ps = Ok n' -> is_dir_node n = true /\ is_dir_node n' = true.
Proof.
  destruct ps as [|name rest]; [done |]. simpl.
  destruct n as [sz ue|l es]; [done |].
  destruct (entry_lookup name es) as [c|]; [| done].
  destruct rest as [|r rs].
  - destruct c as [sz [msg|]|]; [done | | done]. by intros [= <-].
  - destruct (unlink_node path c (r :: rs)); [| done]. by intros [= <-].
Qed.

(** Removing one file does not change what removing another one, not
    below it, answers. *)
Lemma unlink_node_frame (path1 path2 : string) (ps1 : list string) :
  forall n n' ps2,
    unlink_node path1 n ps1 = Ok n' ->
    ~ ps1 `prefix_of` ps2 ->
    failure (unlink_node path2 n' ps2) = failure (unlink_node path2 n ps2).
Proof.
  induction ps1 as [|a rest1 IH]; intros n n' ps2 Hun Hpre; [done |].
  destruct ps2 as [|b rest2].
  { apply unlink_node_dir in Hun as [Hn Hn'].
    by destruct n, n'. }
  simpl in Hun. destruct n as [sz ue|l es]; [done |].
  destruct (entry_lookup a es) as [c|] eqn:Hc; [| done].
  destruct rest1 as [|r rs].
  - destruct c as [sz [msg|]|]; [done | | done].
    injection Hun as <-.
    assert (a <> b) as Hne.
    { intros ->. apply Hpre. by exists rest2. }
    simpl. rewrite entry_lookup_remove_ne by done.
    destruct (entry_lookup b es) as [c2|]; [| done].
    destruct rest2; [by destruct c2 as [? [?|]|] |].
    by rewrite !failure_bind_ok.
  - destruct (unlink_node path1 c (r :: rs)) as [c1|] eqn:Hc1; [| done].
    injection Hun as <-.
    destruct (decide (a = b)) as [<-|Hne].
    + simpl. rewrite (entry_lookup_replace_eq es a c c1), Hc by done.
      destruct rest2 as [|r2 rs2].
      * apply unlink_node_dir in Hc1 as [Hd Hd1]. by destruct c, c1.
      * rewrite !failure_bind_ok. apply (IH c c1); [done |].
        intros [k Hk]. apply Hpre. exists k. simpl. by rewrite Hk.
    + simpl. rewrite entry_lookup_replace_ne by done.
      destruct (entry_lookup b es) as [c2|]; [| done].
      destruct rest2; [by destruct c2 as [? [?|]|] |].
      by rewrite !failure_bind_ok.
Qed.

Lemma unlink_frame (w w' : world) (fp q : string) :
  unlink w fp = Ok w' ->
  ~ path_parts fp `prefix_of` path_parts q ->
  failure (unlink w' q) = failure (unlink w q).
Proof.
  unfold unlink. intros Hun Hpre.
  destruct (unlink_node fp (fs w) (path_parts fp)) as [t|] eqn:Ht; [| done].
  injection Hun as <-. rewrite !failure_bind_ok. simpl.
  by apply (unlink_node_frame fp q (path_parts fp)).
Qed.

(** Two walked files of a well-formed tree: neither lies below the other. *)
Lemma walk_files_prefix_free (w : world) (top fp f q g : string) :
  wf_node (fs w) = true ->
  (fp, f) ∈ walk_files w top -> (q, g) ∈ walk_files w top ->
  path_parts fp `prefix_of` path_parts q -> fp = q.
Proof.
  intros Hwf. unfold walk_files, os_walk, node_at.
  destruct (lookup_node (fs w) (path_parts top)) as [n|] eqn:Hn;
    [| by intros ?%elem_of_nil].
  pose proof (wf_node_lookup _ _ _ Hwf Hn) as Hwfn.
  rewrite files_of_walk_node.
  intros (a & [= -> ->] & Ha)%list_elem_of_fmap (b & [= -> ->] & Hb)%list_elem_of_fmap.
  rewrite !path_parts_place by (by eapply rel_files_lookup).
  intros Hpre%prefix_app_inv.
  by rewrite (rel_files_prefix_free n a b).
Qed.

(** The removal loop decides each file by what its own [unlink] answers in
    the world the loop started from. *)
Lemma remove_files_independent (pm : gmap string string) (w0 : world)
    (found : list string) :
  forall removed errors w,
    (forall fp, fp ∈ found -> is_Some (pm !! fp)) ->
    NoDup found ->
    (forall fp q, fp ∈ found -> q ∈ found ->
       path_parts fp `prefix_of` path_parts q -> fp = q) ->
    (forall q, q ∈ found -> failure (unlink w q) = failure (unlink w0 q)) ->
    exists w',
      remove_files false pm found removed errors w
      = (Ok (removed ++ filter (fun fp => failure (unlink w0 fp) = None) found,
             errors ++ omap (removal_error w0) found), w').
Proof.
  induction found as [|fp found IH]; intros removed errors w Hpm Hnd Hfree Hsame.
  { exists w. simpl. by rewrite !app_nil_r. }
  apply NoDup_cons in Hnd as [Hfresh Hnd].
  assert (forall fp', fp' ∈ found -> is_Some (pm !! fp')) as Hpm'.
  { intros fp' Hfp'. apply Hpm. by apply list_elem_of_further. }
  assert (forall a b, a ∈ found -> b ∈ found ->
            path_parts a `prefix_of` path_parts b -> a = b) as Hfree'.
  { intros a b Ha Hb. apply Hfree; by apply list_elem_of_further. }
  simpl. destruct (Hpm fp) as [p ->]; [apply list_elem_of_here |].
  pose proof (Hsame fp (list_elem_of_here _ _)) as Hfp.
  rewrite filter_cons. unfold removal_error at 1.
  destruct (unlink w fp) as [w1|e] eqn:Hun; simpl in Hfp; rewrite <- Hfp; simpl.
  - match goal with
    | |- exists _, remove_files _ _ _ ?r ?e ?v = _ =>
        destruct (IH r e v Hpm' Hnd Hfree') as [w' Hw']
    end.
    + intros q Hq. rewrite <- Hsame by (by apply list_elem_of_further).
      apply (unlink_frame w w1 fp q Hun).
      intros Hpre. apply Hfresh.
      rewrite (Hfree fp q) by
        (done || apply list_elem_of_here || by apply list_elem_of_further).
      done.
    + exists w'. rewrite Hw'. by rewrite <- app_assoc.
  - match goal with
    | |- exists _, remove_files _ _ _ ?r ?e ?v = _ =>
        destruct (IH r e v Hpm' Hnd Hfree') as [w' Hw']
    end.
    + intros q Hq. apply Hsame. by apply list_elem_of_further.
    + exists w'. rewrite Hw'. by rewrite <- app_assoc.
Qed.

(** ** Cleanup, failures and comparison *)

Section Endpoints.

Variable re_search : string -> string -> result bool.

(** C2.  A dry run leaves the world as it was.  When it returns a result,
    nothing is reported removed and no error is listed, [files_found]
    counts [found_files], these are the files that the same call without
    [dry_run] goes through, and a scan of the world the dry run leaves
    returns the same [found_files]; when it fails, that scan fails with the
    same status. *)
Theorem cleanup_dry_run_no_mutation
    (w : world) (patterns : option (list string)) :
  let after := snd (cleanup_unwanted_files re_search w true patterns) in
  after = w
  /\ match fst (cleanup_unwanted_files re_search w true patterns) with
     | Ok r =>
         cleanup_files_removed r = 0%nat
         /\ cleanup_removed_files r = []
         /\ cleanup_error_details r = []
         /\ cleanup_files_found r = length (cleanup_found_files r)
         /\ (exists r',
               fst (cleanup_unwanted_files re_search w false patterns) = Ok r'
               /\ cleanup_found_files r' = cleanup_found_files r)
         /\ exists s,
              scan_for_unwanted_files re_search after patterns = Ok s
              /\ scan_found_files s = cleanup_found_files r
              /\ scan_files_found s = cleanup_files_found r
     | Raise e =>
         status_of (scan_for_unwanted_files re_search after patterns)
         = status_of (Raise (A := unit) e)
     end.
Proof.
  unfold cleanup_unwanted_files, scan_for_unwanted_files.
  destruct (resolve_and_validate w (get_cleanup_directory w)) as [dir|e] eqn:Hv;
    simpl; [| by rewrite Hv].
  destruct (find_unwanted_files re_search w dir _) as [st|e] eqn:Hf;
    simpl; [| by rewrite Hv, Hf].
  pose proof (find_unwanted_files_recorded re_search _ _ _ _ Hf) as Hrec.
  rewrite remove_files_dry_run by done.
  simpl. rewrite Hv, Hf. repeat split; try done; [| by eexists].
  destruct (remove_files_total false (pattern_matches st) (found_files st)
              Hrec [] [] w) as (removed & errors & w' & ->).
  by eexists.
Qed.

Lemma filter_omap_length {A B : Type} (P : A -> Prop) `{!forall x, Decision (P x)}
    (f : A -> option B) (l : list A) :
  (forall x, P x <-> f x = None) ->
  (length (filter P l) + length (omap f l))%nat = length l.
Proof.
  intros HP. induction l as [|x l IH]; [done |].
  rewrite filter_cons. cbn [omap list_omap].
  destruct (decide (P x)) as [Hx|Hx], (f x) as [y|] eqn:Hf; simpl.
  - apply HP in Hx. congruence.
  - change (list_omap A B f l) with (omap f l). lia.
  - change (list_omap A B f l) with (omap f l). lia.
  - by apply HP in Hf.
Qed.

Lemma removal_outcomes_length (w : world) (found : list string) :
  (length (filter (fun fp => failure (unlink w fp) = None) found)
   + length (omap (removal_error w) found))%nat = length found.
Proof.
  apply filter_omap_length. intros fp. unfold removal_error.
  by destruct (failure (unlink w fp)).
Qed.

(** C4.  On a well-formed tree, with a root that passes validation and
    patterns that compile, a cleanup that is not a dry run returns a
    result, never an operation-level error, and in it every matched file
    has the outcome of its own [unlink]: removed when that succeeds; an
    entry in [error_details], and not in [removed_files], when it raises.
    Every matched file is accounted for in one list or the other. *)
Theorem cleanup_removes_each_file_independently
    (w : world) (patterns : option (list string)) :
  let cleanup_dir := get_cleanup_directory w in
  let pats := default DEFAULT_UNWANTED_PATTERNS patterns in
  wf_node (fs w) = true ->
  validate_directory w (resolve w cleanup_dir) cleanup_dir = Ok tt ->
  Forall (compiles re_search) pats ->
  exists r w',
    cleanup_unwanted_files re_search w false patterns = (Ok r, w')
    /\ (cleanup_files_removed r + cleanup_errors r = cleanup_files_found r)%nat
    /\ cleanup_files_removed r = length (cleanup_removed_files r)
    /\ cleanup_errors r = length (cleanup_error_details r)
    /\ forall fp, fp ∈ cleanup_found_files r ->
         match unlink w fp with
         | Ok _ => fp ∈ cleanup_removed_files r
         | Raise e =>
             ("Failed to remove " +:+ fp +:+ ": " +:+ str_exn e)
               ∈ cleanup_error_details r
             /\ fp ∉ cleanup_removed_files r
         end.
Proof.
  intros cleanup_dir pats Hwf Hv Hc.
  pose proof (find_unwanted_files_fold re_search w (resolve w cleanup_dir) pats Hc)
    as Hf.
  set (l := walk_files w (resolve w cleanup_dir)) in *.
  set (st := foldl (scan_step re_search w pats) empty_scan l) in *.
  destruct (cleanup_unwanted_files_ok re_search w false patterns st Hv Hf)
    as (removed & errors & w' & Hr & Hcl).
  destruct (remove_files_independent (pattern_matches st) w (found_files st)
              [] [] w) as [w'' Hind].
  - by eapply find_unwanted_files_recorded.
  - apply scan_found_NoDup. by apply walk_files_NoDup.
  - intros fp q (f & p & Hfp & _)%scan_found_inv (g & p' & Hq & _)%scan_found_inv.
    by apply (walk_files_prefix_free w (resolve w cleanup_dir) fp f q g).
  - done.
  - rewrite Hr in Hind. injection Hind as -> -> _.
    eexists _, w'. split; [exact Hcl |]. simpl.
    split; [apply removal_outcomes_length |].
    split; [done |]. split; [done |].
    intros fp Hfp. destruct (unlink w fp) as [w1|e] eqn:Hun.
    + apply list_elem_of_filter. split; [| done]. by rewrite Hun.
    + split.
      * apply list_elem_of_omap. exists fp. split; [done |].
        unfold removal_error. by rewrite Hun.
      * intros [Hok _]%list_elem_of_filter. by rewrite Hun in Hok.
Qed.

(** A pattern that does not compile stops the scan at the first file. *)
Lemma find_unwanted_files_bad_pattern (w : world) (directory_path bad : string)
    (rest : list string) (e : exn) :
  (forall s, re_search bad s = Raise e) ->
  find_unwanted_files re_search w directory_path (bad :: rest)
  = match walk_files w directory_path with
    | [] => Ok empty_scan
    | _ :: _ => Raise e
    end.
Proof.
  intros Hbad. unfold find_unwanted_files, walk_files.
  generalize empty_scan as st.
  induction (os_walk w directory_path) as [|[[root dirs] files] entries IH];
    intros st; [done |].
  unfold files_of_walk. rewrite bind_cons. fold (files_of_walk entries).
  destruct files as [|file files]; simpl.
  - apply IH.
  - by rewrite Hbad.
Qed.

(** C10.  A pattern list that starts with a pattern that does not compile
    passes the boundary: over a root without files the scan succeeds.  As
    soon as the walk reaches a file, scan and cleanup fail as a whole with
    status 500, the message of [re.error] in the detail, and the world
    untouched. *)
Theorem invalid_pattern_fails_the_operation
    (w : world) (dry_run : bool) (bad msg : string) (rest : list string) :
  let cleanup_dir := get_cleanup_directory w in
  validate_directory w (resolve w cleanup_dir) cleanup_dir = Ok tt ->
  (forall s, re_search bad s = Raise (re_error msg)) ->
  match walk_files w (resolve w cleanup_dir) with
  | [] =>
      exists s,
        scan_for_unwanted_files re_search w (Some (bad :: rest)) = Ok s
        /\ scan_found_files s = []
  | _ :: _ =>
      scan_for_unwanted_files re_search w (Some (bad :: rest))
      = Raise (HTTPException 500 ("Error during scan: " +:+ msg))
      /\ cleanup_unwanted_files re_search w dry_run (Some (bad :: rest))
         = (Raise (HTTPException 500 ("Error during cleanup: " +:+ msg)), w)
  end.
Proof.
  intros cleanup_dir Hv Hbad.
  pose proof (find_unwanted_files_bad_pattern w (resolve w cleanup_dir) bad rest
                _ Hbad) as Hf.
  unfold scan_for_unwanted_files, cleanup_unwanted_files. fold cleanup_dir.
  rewrite (resolve_and_validate_ok _ _ Hv). simpl.
  rewrite Hf. destruct (walk_files w (resolve w cleanup_dir)); simpl.
  - by eexists.
  - done.
Qed.

(** C6, what the code does.  Whatever the validator raises, the scan and
    cleanup endpoints answer with status 400: a missing root and a
    protected root get the same status there, and the 404 that
    [validate_directory] raises for a missing root is lost. *)
Theorem validator_errors_answered_with_400
    (w : world) (dry_run : bool) (patterns : option (list string)) (e : exn) :
  let cleanup_dir := get_cleanup_directory w in
  validate_directory w (resolve w cleanup_dir) cleanup_dir = Raise e ->
  scan_for_unwanted_files re_search w patterns
  = Raise (HTTPException 400 ("Invalid cleanup directory: " +:+ str_exn e))
  /\ cleanup_unwanted_files re_search w dry_run patterns
     = (Raise (HTTPException 400 ("Invalid cleanup directory: " +:+ str_exn e)), w).
Proof.
  intros cleanup_dir Hv.
  unfold scan_for_unwanted_files, cleanup_unwanted_files. fold cleanup_dir.
  by rewrite (resolve_and_validate_raise _ _ _ Hv).
Qed.

End Endpoints.

(** The comparison endpoint, for its part, passes the validator's error on
    as it is. *)
Lemma compare_directories_validator_error (w : world) (verbose : bool) (e : exn) :
  validate_directory w (resolve w (get_cleanup_directory w))
    (get_cleanup_directory w) = Raise e ->
  compare_directories w verbose = Raise e.
Proof.
  intros Hv. unfold compare_directories, compare_body. rewrite Hv. simpl.
  destruct (validate_directory_cases w (resolve w (get_cleanup_directory w))
              (get_cleanup_directory w)) as [H|[H|H]];
    rewrite H in Hv; by simplify_eq.
Qed.

(** ** Subdirectories and comparison *)

Lemma filter_fmap_fst {B : Type} (P : string -> Prop) (Q : string * B -> Prop)
    `{!forall x, Decision (P x)} `{!forall e, Decision (Q e)}
    (es : list (string * B)) :
  (forall e, e ∈ es -> P (fst e) <-> Q e) ->
  filter P (fst <$> es) = fst <$> filter Q es.
Proof.
  induction es as [|e es IH]; intros HPQ; [done |].
  rewrite fmap_cons, !filter_cons.
  rewrite IH by (intros e' He'; apply HPQ; by apply list_elem_of_further).
  pose proof (HPQ e (list_elem_of_here _ _)) as He.
  destruct (decide (P (fst e))), (decide (Q e)); tauto || done.
Qed.

Lemma node_at_child (w : world) (directory_path name : string) (l : bool)
    (es : list (string * node)) (c : node) :
  wf_node (fs w) = true ->
  node_at w directory_path = Some (Dir l es) ->
  (name, c) ∈ es ->
  node_at w (path_join directory_path name) = Some c.
Proof.
  unfold node_at. intros Hwf Hn Hc.
  pose proof (wf_node_lookup _ _ _ Hwf Hn) as [Hnd Hes]%wf_node_dir.
  pose proof (proj1 (Forall_forall _ _) Hes _ Hc) as [Hname _].
  rewrite path_parts_join, lookup_node_app, Hn by done. simpl.
  by rewrite (entry_lookup_elem es name c).
Qed.

(** C9.  When the directory cannot be read (it is missing, is not a
    directory, or listing it fails) the result is empty.  Otherwise, on a
    well-formed tree, the result is the names of the entries of that
    directory that are directories: names without a separator, of
    immediate children only. *)
Theorem get_subdirectories_immediate_names (w : world) (directory_path : string) :
  wf_node (fs w) = true ->
  match iterdir w directory_path with
  | Raise _ => get_subdirectories w directory_path = []
  | Ok _ =>
      exists n,
        node_at w directory_path = Some n
        /\ get_subdirectories w directory_path = child_directory_names n
        /\ Forall (fun name => valid_name name = true)
             (get_subdirectories w directory_path)
  end.
Proof.
  intros Hwf. unfold get_subdirectories, iterdir.
  destruct (node_at w directory_path) as [[sz ue|[] es]|] eqn:Hn; try done.
  exists (Dir true es). split; [done |].
  assert (filter (fun name => is_dir w (path_join directory_path name) = true)
            (fst <$> es)
          = fst <$> filter (fun e => is_dir_node (snd e) = true) es) as ->.
  { apply filter_fmap_fst. intros [name c] Hc. unfold is_dir. simpl.
    by rewrite (node_at_child w directory_path name true es c). }
  split; [done |].
  pose proof (wf_node_lookup _ _ _ Hwf Hn) as [_ Hes]%wf_node_dir.
  apply Forall_forall. intros name (e & -> & [_ He]%list_elem_of_filter)%list_elem_of_fmap.
  by apply (proj1 (Forall_forall _ _) Hes e).
Qed.

Lemma get_cleanup_directory_with_dirs (w : world) (a b : string) :
  get_cleanup_directory (with_dirs w a b) = a.
Proof.
  unfold get_cleanup_directory, getenv, with_dirs. simpl.
  by rewrite lookup_insert_eq.
Qed.

Lemma get_target_directory_with_dirs (w : world) (a b : string) :
  get_target_directory (with_dirs w a b) = b.
Proof.
  unfold get_target_directory, getenv, with_dirs. simpl.
  rewrite lookup_insert_ne by done. by rewrite lookup_insert_eq.
Qed.

Lemma compare_directories_ok (w : world) (a b : string) (verbose : bool) :
  validate_directory w (resolve w a) a = Ok tt ->
  validate_directory w (resolve w b) b = Ok tt ->
  exists r,
    compare_directories (with_dirs w a b) verbose = Ok r
    /\ cmp_duplicates r
       = elements (list_to_set (get_subdirectories w (resolve w a))
                   ∩ list_to_set (get_subdirectories w (resolve w b)) : gset string)
    /\ cmp_duplicate_count r = length (cmp_duplicates r)
    /\ cmp_total_cleanup_subdirectories r
       = length (get_subdirectories w (resolve w a))
    /\ cmp_total_target_subdirectories r
       = length (get_subdirectories w (resolve w b)).
Proof.
  intros Ha Hb. unfold compare_directories, compare_body.
  rewrite get_cleanup_directory_with_dirs, get_target_directory_with_dirs.
  change (validate_directory (with_dirs w a b)) with (validate_directory w).
  change (resolve (with_dirs w a b)) with (resolve w).
  rewrite Ha, Hb. simpl. by eexists.
Qed.

(** C7.  For two roots that pass validation, comparing them in either
    order returns the same set of duplicates: the names that occur both
    among the subdirectories of the one and among those of the other,
    compared as strings. *)
Theorem compare_directories_symmetric (w : world) (a b : string) (verbose : bool) :
  validate_directory w (resolve w a) a = Ok tt ->
  validate_directory w (resolve w b) b = Ok tt ->
  exists r1 r2,
    compare_directories (with_dirs w a b) verbose = Ok r1
    /\ compare_directories (with_dirs w b a) verbose = Ok r2
    /\ (list_to_set (cmp_duplicates r1) : gset string)
       = list_to_set (cmp_duplicates r2)
    /\ forall name,
         name ∈ cmp_duplicates r1
         <-> name ∈ get_subdirectories w (resolve w a)
             /\ name ∈ get_subdirectories w (resolve w b).
Proof.
  intros Ha Hb.
  destruct (compare_directories_ok w a b verbose Ha Hb) as (r1 & H1 & Hd1 & Hn1).
  destruct (compare_directories_ok w b a verbose Hb Ha) as (r2 & H2 & Hd2 & Hn2).
  exists r1, r2. split; [done |]. split; [done |]. split.
  - rewrite Hd1, Hd2, !list_to_set_elements_L. apply (comm_L (∩)).
  - intros name.
    by rewrite Hd1, elem_of_elements, elem_of_intersection, !elem_of_list_to_set.
Qed.

(** ** Worked examples *)

Lemma all_compile_spec (patterns : list string) :
  all_compile patterns = true -> Forall (compiles Re.search) patterns.
Proof.
  unfold all_compile. rewrite forallb_forall. intros H.
  apply Forall_forall. intros p Hp%list_elem_of_In. specialize (H p Hp).
  intros s0. unfold Re.search.
  destruct (Re.compile p) as [r|]; [by eexists | done].
Qed.

Lemma default_patterns_compile : all_compile DEFAULT_UNWANTED_PATTERNS = true.
Proof. reflexivity. Qed.

Example scan_spec_example :
  (fun st => (found_files st,
              file_sizes st !! "/data/a/x.tmp",
              file_sizes st !! "/data/a/Thumbs.db",
              pattern_matches st !! "/data/a/Thumbs.db"))
    <$> (match find_unwanted_files Re.search Examples.linux "/data/a"
                 [".tmp$"; "Thumbs\.db$"] with
         | Ok st => Some st
         | Raise _ => None
         end)
  = Some (["/data/a/x.tmp"; "/data/a/Thumbs.db"],
          Some 10, Some 0, Some "Thumbs\.db$").
Proof. vm_compute. reflexivity. Qed.

(** Matching ignores case, and the first pattern of the list wins. *)
Example first_match_example :
  Re.search "\.tmp$" "X.TMP" = Ok true
  /\ first_match Re.search "Thumbs.db" ["\.tmp$"; "thumbs"; "Thumbs\.db$"]
     = Some "thumbs".
Proof. split; reflexivity. Qed.

Example walk_example :
  os_walk Examples.linux "/data"
  = [ ("/data", ["a"; "movieA"; "movieB"], ["locked.bak"; "b.log"]);
      ("/data/a", [], ["x.tmp"; "Thumbs.db"; "keep.txt"]);
      ("/data/movieA", [], []);
      ("/data/movieB", ["inner"], []);
      ("/data/movieB/inner", [], []) ].
Proof. reflexivity. Qed.

Lemma find_unwanted_files_first_match_witness :
  wf_node (fs Examples.linux) = true
  /\ Forall (compiles Re.search) Examples.junk
  /\ exists st,
       find_unwanted_files Re.search Examples.linux "/data" Examples.junk = Ok st
       /\ forall root dirs files file,
            (root, dirs, files) ∈ os_walk Examples.linux "/data" -> file ∈ files ->
            (Exists (fun q => Re.search q file = Ok true) Examples.junk ->
               exists p,
                 first_matching Re.search file Examples.junk p
                 /\ count_occ string_dec (found_files st) (path_join root file) = 1%nat
                 /\ pattern_matches st !! path_join root file = Some p)
            /\ (matches_none Re.search file Examples.junk ->
                  path_join root file ∉ found_files st).
Proof.
  split; [reflexivity |].
  split; [by apply all_compile_spec |].
  apply (find_unwanted_files_first_match Re.search Examples.linux "/data" Examples.junk).
  - reflexivity.
  - by apply all_compile_spec.
Defined.

Lemma unreadable_file_recorded_with_size_zero_witness :
  exists scan cleanup w',
    scan_for_unwanted_files Re.search Examples.housekeeping (Some Examples.junk)
    = Ok scan
    /\ cleanup_unwanted_files Re.search Examples.housekeeping true (Some Examples.junk)
       = (Ok cleanup, w')
    /\ forall root dirs files file e,
         (root, dirs, files) ∈ os_walk Examples.housekeeping "/data" ->
         file ∈ files ->
         Exists (fun q => Re.search q file = Ok true) Examples.junk ->
         stat_size Examples.housekeeping (path_join root file) = Raise e ->
         path_join root file ∈ scan_found_files scan
         /\ scan_file_sizes scan !! path_join root file = Some 0
         /\ path_join root file ∈ cleanup_found_files cleanup.
Proof.
  apply (unreadable_file_recorded_with_size_zero Re.search Examples.housekeeping
           true (Some Examples.junk)).
  - reflexivity.
  - by apply all_compile_spec.
Defined.

Example unreadable_file_example :
  stat_size Examples.housekeeping "/data/a/Thumbs.db"
  = Raise (OSError "[Errno 13] Permission denied" "/data/a/Thumbs.db")
  /\ (fun s => (scan_found_files s, scan_file_sizes s !! "/data/a/Thumbs.db",
                scan_total_size_bytes s))
       <$> (match scan_for_unwanted_files Re.search Examples.housekeeping
                    (Some Examples.junk) with
            | Ok s => Some s
            | Raise _ => None
            end)
     = Some (["/data/a/x.tmp"; "/data/a/Thumbs.db"], Some 0, 10).
Proof. split; vm_compute; reflexivity. Qed.

Lemma cleanup_removes_each_file_independently_witness :
  exists r w',
    cleanup_unwanted_files Re.search Examples.housekeeping false None = (Ok r, w')
    /\ (cleanup_files_removed r + cleanup_errors r = cleanup_files_found r)%nat
    /\ cleanup_files_removed r = length (cleanup_removed_files r)
    /\ cleanup_errors r = length (cleanup_error_details r)
    /\ forall fp, fp ∈ cleanup_found_files r ->
         match unlink Examples.housekeeping fp with
         | Ok _ => fp ∈ cleanup_removed_files r
         | Raise e =>
             ("Failed to remove " +:+ fp +:+ ": " +:+ str_exn e)
               ∈ cleanup_error_details r
             /\ fp ∉ cleanup_removed_files r
         end.
Proof.
  apply (cleanup_removes_each_file_independently Re.search Examples.housekeeping None).
  - reflexivity.
  - reflexivity.
  - by apply all_compile_spec.
Defined.

Example cleanup_example :
  (fun r => (cleanup_found_files r, cleanup_removed_files r, cleanup_error_details r))
    <$> (match fst (cleanup_unwanted_files Re.search Examples.housekeeping false None) with
         | Ok r => Some r
         | Raise _ => None
         end)
  = Some (["/data/locked.bak"; "/data/b.log"; "/data/a/x.tmp"; "/data/a/Thumbs.db"],
          ["/data/b.log"; "/data/a/x.tmp"; "/data/a/Thumbs.db"],
          ["Failed to remove /data/locked.bak: [Errno 13] Permission denied: '/data/locked.bak'"]).
Proof. vm_compute. reflexivity. Qed.

Example cleanup_example_world :
  os_walk (snd (cleanup_unwanted_files Re.search Examples.housekeeping false None))
    "/data"
  = [ ("/data", ["a"; "movieA"; "movieB"], ["locked.bak"]);
      ("/data/a", [], ["keep.txt"]);
      ("/data/movieA", [], []);
      ("/data/movieB", ["inner"], []);
      ("/data/movieB/inner", [], []) ].
Proof. vm_compute. reflexivity. Qed.

Example dry_run_example :
  snd (cleanup_unwanted_files Re.search Examples.housekeeping true None)
  = Examples.housekeeping
  /\ (fun r => (cleanup_files_found r, cleanup_files_removed r, cleanup_found_files r))
       <$> (match fst (cleanup_unwanted_files Re.search Examples.housekeeping true None) with
            | Ok r => Some r
            | Raise _ => None
            end)
     = Some (4%nat, 0%nat,
             ["/data/locked.bak"; "/data/b.log"; "/data/a/x.tmp"; "/data/a/Thumbs.db"]).
Proof. split; vm_compute; reflexivity. Qed.

Lemma invalid_pattern_fails_the_operation_witness :
  Re.search "(" "locked.bak"
  = Raise (re_error "missing ), unterminated subpattern at position 0")
  /\ scan_for_unwanted_files Re.search Examples.housekeeping (Some ["("; "\.tmp$"])
     = Raise (HTTPException 500
                "Error during scan: missing ), unterminated subpattern at position 0")
  /\ cleanup_unwanted_files Re.search Examples.housekeeping false (Some ["("; "\.tmp$"])
     = (Raise (HTTPException 500
                 "Error during cleanup: missing ), unterminated subpattern at position 0"),
        Examples.housekeeping).
Proof.
  split; [reflexivity |].
  apply (invalid_pattern_fails_the_operation Re.search Examples.housekeeping false
           "(" "missing ), unterminated subpattern at position 0" ["\.tmp$"]).
  - reflexivity.
  - intros s0. reflexivity.
Defined.

(** Over a root without files the same pattern list goes unnoticed. *)
Example invalid_pattern_empty_root :
  (fun s => scan_found_files s)
    <$> (match scan_for_unwanted_files Re.search
                 (with_dirs Examples.linux "/empty" "/target")
                 (Some ["("; "\.tmp$"]) with
         | Ok s => Some s
         | Raise _ => None
         end)
  = Some [].
Proof. vm_compute. reflexivity. Qed.

Lemma validator_errors_answered_with_400_witness :
  validate_directory Examples.linux "/missing" "/missing"
  = Raise (HTTPException 404 "Configured directory /missing not found")
  /\ scan_for_unwanted_files Re.search
       (with_dirs Examples.linux "/missing" "/target") None
     = Raise (HTTPException 400
                "Invalid cleanup directory: 404: Configured directory /missing not found")
  /\ cleanup_unwanted_files Re.search
       (with_dirs Examples.linux "/missing" "/target") true None
     = (Raise (HTTPException 400
                 "Invalid cleanup directory: 404: Configured directory /missing not found"),
        with_dirs Examples.linux "/missing" "/target").
Proof.
  split; [reflexivity |].
  apply (validator_errors_answered_with_400 Re.search
           (with_dirs Examples.linux "/missing" "/target") true None
           (HTTPException 404 "Configured directory /missing not found")).
  reflexivity.
Defined.

(** The three endpoints on a missing root and on a protected root. *)
Example validator_errors_by_endpoint :
  status_of (scan_for_unwanted_files Re.search
               (with_dirs Examples.linux "/missing" "/target") None) = Some 400%nat
  /\ status_of (scan_for_unwanted_files Re.search
                  (with_dirs Examples.linux "/etc" "/target") None) = Some 400%nat
  /\ status_of (compare_directories
                  (with_dirs Examples.linux "/missing" "/target") false) = Some 404%nat
  /\ status_of (compare_directories
                  (with_dirs Examples.linux "/etc" "/target") false) = Some 400%nat.
Proof. repeat split; vm_compute; reflexivity. Qed.

Lemma get_subdirectories_immediate_names_witness :
  get_subdirectories Examples.linux "/data" = ["a"; "movieA"; "movieB"]
  /\ match iterdir Examples.linux "/data" with
     | Raise _ => get_subdirectories Examples.linux "/data" = []
     | Ok _ =>
         exists n,
           node_at Examples.linux "/data" = Some n
           /\ get_subdirectories Examples.linux "/data" = child_directory_names n
           /\ Forall (fun name => valid_name name = true)
                (get_subdirectories Examples.linux "/data")
     end.
Proof.
  split; [reflexivity |].
  apply (get_subdirectories_immediate_names Examples.linux "/data").
  reflexivity.
Defined.

Example get_subdirectories_unreadable :
  get_subdirectories Examples.linux "/missing" = []
  /\ get_subdirectories Examples.linux "/data/b.log" = [].
Proof. split; reflexivity. Qed.

Lemma compare_directories_symmetric_witness :
  exists r1 r2,
    compare_directories (with_dirs Examples.linux "/data" "/target") false = Ok r1
    /\ compare_directories (with_dirs Examples.linux "/target" "/data") false = Ok r2
    /\ (list_to_set (cmp_duplicates r1) : gset string)
       = list_to_set (cmp_duplicates r2)
    /\ forall name,
         name ∈ cmp_duplicates r1
         <-> name ∈ get_subdirectories Examples.linux "/data"
             /\ name ∈ get_subdirectories Examples.linux "/target".
Proof.
  apply (compare_directories_symmetric Examples.linux "/data" "/target" false);
    reflexivity.
Defined.

Example compare_example :
  (fun r => (cmp_duplicates r, cmp_duplicate_count r,
             cmp_total_cleanup_subdirectories r, cmp_total_target_subdirectories r))
    <$> (match compare_directories Examples.housekeeping false with
         | Ok r => Some r
         | Raise _ => None
         end)
  = Some (["movieB"], 1%nat, 3%nat, 3%nat).
Proof. vm_compute. reflexivity. Qed.

(** * Further properties of the code *)

(** ** The validator, as a decision *)











(** ** Comparison *)

Lemma compare_directories_decides (w : world) (verbose : bool) :
  let cleanup_dir := get_cleanup_directory w in
  let target_dir := get_target_directory w in
  compare_directories w verbose
  = match validate_directory w (resolve w cleanup_dir) cleanup_dir with
    | Raise e => Raise e
    | Ok _ =>
        match validate_directory w (resolve w target_dir) target_dir with
        | Raise e => Raise e
        | Ok _ =>
            let cleanup_subdirs := get_subdirectories w (resolve w cleanup_dir) in
            let target_subdirs := get_subdirectories w (resolve w target_dir) in
            let duplicates :=
              elements (list_to_set cleanup_subdirs ∩ list_to_set target_subdirs
                        : gset string) in
            Ok {| cmp_cleanup_directory := resolve w cleanup_dir;
                  cmp_target_directory := resolve w target_dir;
                  cmp_duplicates := duplicates;
                  cmp_duplicate_count := length duplicates;
                  cmp_total_cleanup_subdirectories := length cleanup_subdirs;
                  cmp_total_target_subdirectories := length target_subdirs;
                  cmp_cleanup_subdirectories :=
                    if verbose then Some cleanup_subdirs else None;
                  cmp_target_subdirectories :=
                    if verbose then Some target_subdirs else None |}
        end
    end.
Proof.
  intros cleanup_dir target_dir. unfold compare_directories, compare_body.
  fold cleanup_dir target_dir.
  destruct (validate_directory_cases w (resolve w cleanup_dir) cleanup_dir)
    as [Hc|[Hc|Hc]]; rewrite Hc; cbn [bind]; try done.
  destruct (validate_directory_cases w (resolve w target_dir) target_dir)
    as [Ht|[Ht|Ht]]; rewrite Ht; cbn [bind]; done.
Qed.



Lemma size_list_to_set_le (l : list string) :
  (size (list_to_set l : gset string) <= length l)%nat.
Proof.
  induction l as [|x l IH]; [done |].
  rewrite list_to_set_cons, size_union_alt, size_singleton. simpl.
  assert (size (list_to_set l ∖ {[x]} : gset string)
          <= size (list_to_set l : gset string))%nat.
  { apply subseteq_size. apply subseteq_difference_l. done. }
  lia.
Qed.

(** X5.  In a comparison result [duplicate_count] is the number of entries
    of [duplicates], no name is listed twice, and the count exceeds neither
    root's number of subdirectories. *)
Theorem compare_directories_counts (w : world) (verbose : bool)
    (r : compare_response) :
  compare_directories w verbose = Ok r ->
  cmp_duplicate_count r = length (cmp_duplicates r)
  /\ NoDup (cmp_duplicates r)
  /\ (cmp_duplicate_count r <= cmp_total_cleanup_subdirectories r)%nat
  /\ (cmp_duplicate_count r <= cmp_total_target_subdirectories r)%nat.
Proof.
  rewrite compare_directories_decides.
  destruct (validate_directory w _ (get_cleanup_directory w)) as [[]|]; [| done].
  destruct (validate_directory w _ (get_target_directory w)) as [[]|]; [| done].
  intros [= <-]. cbn.
  split; [done |]. split; [apply NoDup_elements |].
  set (A := list_to_set (get_subdirectories w _) : gset string).
  set (B := list_to_set (get_subdirectories w _) : gset string).
  assert (size (A ∩ B) <= size A)%nat as HA
    by apply subseteq_size, intersection_subseteq_l.
  assert (size (A ∩ B) <= size B)%nat as HB
    by apply subseteq_size, intersection_subseteq_r.
  pose proof (size_list_to_set_le
                (get_subdirectories w (resolve w (get_cleanup_directory w)))) as HlA.
  pose proof (size_list_to_set_le
                (get_subdirectories w (resolve w (get_target_directory w)))) as HlB.
  fold A in HlA. fold B in HlB.
  change (length (elements (A ∩ B))) with (size (A ∩ B)). lia.
Qed.

Lemma compare_directories_counts_witness :
  exists r,
    compare_directories Examples.housekeeping false = Ok r
    /\ cmp_duplicate_count r = length (cmp_duplicates r)
    /\ NoDup (cmp_duplicates r)
    /\ (cmp_duplicate_count r <= cmp_total_cleanup_subdirectories r)%nat
    /\ (cmp_duplicate_count r <= cmp_total_target_subdirectories r)%nat.
Proof.
  destruct (compare_directories Examples.housekeeping false) as [r|e] eqn:Hr;
    [| by vm_compute in Hr].
  exists r. split; [done |].
  by apply (compare_directories_counts Examples.housekeeping false r).
Defined.

(** X6.  [verbose] only adds the two lists of subdirectory names: the
    directories, the duplicates and the three counts are the same with and
    without it, the lists are absent without it and are the subdirectories
    of the two roots with it. *)
Theorem compare_directories_verbose (w : world) (r : compare_response) :
  compare_directories w true = Ok r ->
  exists r',
    compare_directories w false = Ok r'
    /\ cmp_cleanup_directory r' = cmp_cleanup_directory r
    /\ cmp_target_directory r' = cmp_target_directory r
    /\ cmp_duplicates r' = cmp_duplicates r
    /\ cmp_duplicate_count r' = cmp_duplicate_count r
    /\ cmp_total_cleanup_subdirectories r' = cmp_total_cleanup_subdirectories r
    /\ cmp_total_target_subdirectories r' = cmp_total_target_subdirectories r
    /\ cmp_cleanup_subdirectories r' = None
    /\ cmp_target_subdirectories r' = None
    /\ cmp_cleanup_subdirectories r
       = Some (get_subdirectories w (resolve w (get_cleanup_directory w)))
    /\ cmp_target_subdirectories r
       = Some (get_subdirectories w (resolve w (get_target_directory w))).
Proof.
  rewrite !compare_directories_decides.
  destruct (validate_directory w _ (get_cleanup_directory w)) as [[]|]; [| done].
  destruct (validate_directory w _ (get_target_directory w)) as [[]|]; [| done].
  intros [= <-]. eexists. split; [done |]. cbn. by repeat split.
Qed.

Lemma compare_directories_verbose_witness :
  exists r r',
    compare_directories Examples.housekeeping true = Ok r
    /\ compare_directories Examples.housekeeping false = Ok r'
    /\ cmp_duplicates r' = cmp_duplicates r
    /\ cmp_cleanup_subdirectories r' = None
    /\ cmp_cleanup_subdirectories r = Some ["a"; "movieA"; "movieB"].
Proof.
  destruct (compare_directories Examples.housekeeping true) as [r|e] eqn:Hr;
    [| by vm_compute in Hr].
  destruct (compare_directories_verbose Examples.housekeeping r Hr)
    as (r' & Hr' & _ & _ & Hd & _ & _ & _ & Hn & _ & Hc & _).
  exists r, r'. by repeat split.
Defined.

Lemma get_subdirectories_names (w : world) (directory_path : string)
    (es : list (string * node)) :
  wf_node (fs w) = true ->
  node_at w directory_path = Some (Dir true es) ->
  get_subdirectories w directory_path
  = fst <$> filter (fun e => is_dir_node (snd e) = true) es.
Proof.
  intros Hwf Hn. unfold get_subdirectories, iterdir. rewrite Hn.
  apply filter_fmap_fst. intros [name c] Hc. unfold is_dir. simpl.
  by rewrite (node_at_child w directory_path name true es c).
Qed.

Lemma get_subdirectories_NoDup (w : world) (directory_path : string) :
  wf_node (fs w) = true -> NoDup (get_subdirectories w directory_path).
Proof.
  intros Hwf.
  destruct (node_at w directory_path) as [[sz ue|[] es]|] eqn:Hn.
  - unfold get_subdirectories, iterdir. rewrite Hn. apply NoDup_nil_2.
  - rewrite (get_subdirectories_names w directory_path es) by done.
    pose proof (wf_node_lookup _ _ _ Hwf Hn) as [Hnd _]%wf_node_dir.
    eapply sublist_NoDup; [exact Hnd |]. apply fmap_sublist, sublist_filter.
  - unfold get_subdirectories, iterdir. rewrite Hn. apply NoDup_nil_2.
  - unfold get_subdirectories, iterdir. rewrite Hn. apply NoDup_nil_2.
Qed.

(** X7.  Comparing a root that passes validation with itself, on a
    well-formed tree, reports every one of its subdirectories as a
    duplicate: the duplicates are its subdirectory names, each once, and
    the three counts coincide. *)
Theorem compare_directories_self (w : world) (a : string) (verbose : bool) :
  wf_node (fs w) = true ->
  validate_directory w (resolve w a) a = Ok tt ->
  exists r,
    compare_directories (with_dirs w a a) verbose = Ok r
    /\ cmp_duplicates r ≡ₚ get_subdirectories w (resolve w a)
    /\ cmp_duplicate_count r = cmp_total_cleanup_subdirectories r
    /\ cmp_total_target_subdirectories r = cmp_total_cleanup_subdirectories r.
Proof.
  intros Hwf Ha.
  destruct (compare_directories_ok w a a verbose Ha Ha)
    as (r & Hr & Hd & Hc & Hca & Hta).
  exists r. split; [done |].
  assert (cmp_duplicates r ≡ₚ get_subdirectories w (resolve w a)) as Hperm.
  { rewrite Hd, (idemp_L (∩)).
    apply elements_list_to_set. by apply get_subdirectories_NoDup. }
  split; [done |]. split; [| congruence].
  rewrite Hc, Hca. by apply Permutation_length.
Qed.

Lemma compare_directories_self_witness :
  exists r,
    compare_directories (with_dirs Examples.linux "/data" "/data") false = Ok r
    /\ cmp_duplicates r ≡ₚ get_subdirectories Examples.linux "/data"
    /\ cmp_duplicate_count r = cmp_total_cleanup_subdirectories r
    /\ cmp_total_target_subdirectories r = cmp_total_cleanup_subdirectories r.
Proof.
  apply (compare_directories_self Examples.linux "/data" false); reflexivity.
Defined.

(** ** More on scanning *)

Lemma for_each_ext {A S : Type} (l : list A) (body1 body2 : A -> S -> result S)
    (s : S) :
  (forall x s, x ∈ l -> body1 x s = body2 x s) ->
  for_each l body1 s = for_each l body2 s.
Proof.
  revert s. induction l as [|x l IH]; intros s Hb; [done |]. simpl.
  rewrite Hb by apply list_elem_of_here.
  destruct (body2 x s) as [s'|e]; [| done]. simpl.
  apply IH. intros y t Hy. apply Hb. by apply list_elem_of_further.
Qed.

Section MoreScanning.

Variable re_search : string -> string -> result bool.

(** X8.  With patterns that compile, [found_files] is the list of the walked
    files that match some pattern, in the order in which the walk reaches
    them; in particular it is empty when no walked file matches. *)
Theorem find_unwanted_files_in_walk_order
    (w : world) (directory_path : string) (patterns : list string) :
  Forall (compiles re_search) patterns ->
  exists st,
    find_unwanted_files re_search w directory_path patterns = Ok st
    /\ found_files st
       = fst <$> filter (fun f => is_Some (first_match re_search (snd f) patterns))
                   (walk_files w directory_path)
    /\ ((forall f, f ∈ walk_files w directory_path ->
           matches_none re_search (snd f) patterns) ->
        found_files st = []).
Proof.
  intros Hc. eexists. split; [by apply find_unwanted_files_fold |].
  rewrite scan_fold_found. simpl. split; [done |].
  intros Hnone.
  induction (walk_files w directory_path) as [|f l IH]; [done |].
  rewrite filter_cons.
  pose proof (Hnone f (list_elem_of_here _ _)) as Hf.
  apply first_match_None in Hf; [| done]. rewrite Hf.
  rewrite decide_False by (by intros [? ?]).
  apply IH. intros g Hg. apply Hnone. by apply list_elem_of_further.
Qed.

Lemma match_patterns_prefix (w : world) (file_path file p : string)
    (before after : list string) (st : scan_state) :
  Forall (compiles re_search) before ->
  first_match re_search file before = Some p ->
  match_patterns re_search w file_path file (before ++ after) st
  = match_patterns re_search w file_path file before st.
Proof.
  intros Hc. induction Hc as [|q rest Hq Hrest IH]; [done |]. simpl.
  destruct (Hq file) as [b Hb]. rewrite Hb. simpl.
  destruct b; [done | apply IH].
Qed.

(** X9.  A pattern is only tried on a file that no earlier pattern matches:
    when every walked file matches one of the first patterns, and these
    compile, the patterns after them are never evaluated, so the scan
    returns what it returns for the first patterns alone, whatever the
    later ones are. *)
Theorem find_unwanted_files_later_patterns_unused
    (w : world) (directory_path : string) (before after : list string) :
  Forall (compiles re_search) before ->
  (forall f, f ∈ walk_files w directory_path ->
     is_Some (first_match re_search (snd f) before)) ->
  find_unwanted_files re_search w directory_path (before ++ after)
  = find_unwanted_files re_search w directory_path before.
Proof.
  intros Hc Hall. unfold find_unwanted_files.
  apply for_each_ext. intros [[root dirs] files] st Hentry.
  apply for_each_ext. intros file st' Hfile.
  destruct (Hall (path_join root file, file)) as [p Hp].
  { by eapply walk_files_elem. }
  by apply (match_patterns_prefix w _ file p).
Qed.

End MoreScanning.

Lemma find_unwanted_files_in_walk_order_witness :
  exists st,
    find_unwanted_files Re.search Examples.linux "/data" Examples.junk = Ok st
    /\ found_files st
       = fst <$> filter (fun f => is_Some (first_match Re.search (snd f) Examples.junk))
                   (walk_files Examples.linux "/data")
    /\ ((forall f, f ∈ walk_files Examples.linux "/data" ->
           matches_none Re.search (snd f) Examples.junk) ->
        found_files st = []).
Proof.
  apply (find_unwanted_files_in_walk_order Re.search Examples.linux "/data"
           Examples.junk).
  by apply all_compile_spec.
Defined.

Lemma find_unwanted_files_later_patterns_unused_witness :
  find_unwanted_files Re.search Examples.linux "/data/a" (["\."] ++ ["("])
  = find_unwanted_files Re.search Examples.linux "/data/a" ["\."].
Proof.
  apply (find_unwanted_files_later_patterns_unused Re.search Examples.linux
           "/data/a" ["\."] ["("]).
  - by apply all_compile_spec.
  - intros f Hf%list_elem_of_In. vm_compute in Hf.
    destruct Hf as [<-|[<-|[<-|[]]]]; vm_compute; eauto.
Defined.

(** A located file of the walk: where it sits below the top, and what is
    there. *)
Lemma walk_files_located (w : world) (top fp f : string) :
  wf_node (fs w) = true ->
  (fp, f) ∈ walk_files w top ->
  exists rel sz ue,
    rel <> []
    /\ path_parts fp = path_parts top ++ rel
    /\ node_at w fp = Some (File sz ue).
Proof.
  intros Hwf. unfold walk_files, os_walk.
  destruct (node_at w top) as [n|] eqn:Hn; [| by intros ?%elem_of_nil].
  pose proof (wf_node_lookup _ _ _ Hwf Hn) as Hwfn.
  rewrite files_of_walk_node.
  intros (rel & [= -> ->] & Hrel)%list_elem_of_fmap.
  destruct (rel_files_lookup n rel Hwfn Hrel) as (Hvalid & sz & ue & Hfile).
  exists rel, sz, ue. split; [by eapply rel_files_nonempty |].
  assert (path_parts (foldl path_join top rel) = path_parts top ++ rel) as Hparts
    by by apply path_parts_place.
  split; [done |].
  unfold node_at in *. by rewrite Hparts, lookup_node_app, Hn.
Qed.

Lemma NoDup_app_drop_middle (l k : list string) (x : string) :
  NoDup (l ++ x :: k) -> NoDup (l ++ k).
Proof.
  rewrite !NoDup_app. intros (Hl & Hdis & [_ Hk]%NoDup_cons).
  repeat split; [done | | done].
  intros y Hy Hk'. apply (Hdis y Hy). by apply list_elem_of_further.
Qed.

Lemma sum_values_insert (m : gmap string Z) (k : string) (v : Z) :
  m !! k = None -> sum_values (<[k := v]> m) = v + sum_values m.
Proof.
  intros Hk. unfold sum_values.
  rewrite map_fold_insert_L; [done | | done]. intros. lia.
Qed.

Lemma sizes_total_snoc (w : world) (paths : list string) (fp : string) :
  sizes_total w (paths ++ [fp]) = sizes_total w paths + recorded_size w fp.
Proof.
  unfold sizes_total. induction paths as [|q paths IH]; simpl; [lia |].
  rewrite IH. lia.
Qed.

Section ScanTotals.

Variable re_search : string -> string -> result bool.

Lemma scan_fold_total (w : world) (patterns : list string)
    (l : list (string * string)) :
  forall st,
    NoDup (found_files st ++ (fst <$> l)) ->
    (forall fp, is_Some (file_sizes st !! fp) -> fp ∈ found_files st) ->
    sum_values (file_sizes st) = sizes_total w (found_files st) ->
    sum_values (file_sizes (foldl (scan_step re_search w patterns) st l))
    = sizes_total w (found_files (foldl (scan_step re_search w patterns) st l)).
Proof.
  induction l as [|[fp f] l IH]; intros st Hnd Hdom Hsum; [done |].
  simpl. apply IH; unfold scan_step; simpl;
    destruct (first_match re_search f patterns) as [p|].
  - simpl. by rewrite <- app_assoc.
  - rewrite fmap_cons in Hnd. by apply NoDup_app_drop_middle in Hnd.
  - intros q. rewrite record_match_sizes. simpl.
    destruct (decide (fp = q)) as [->|Hne].
    + intros _. apply elem_of_app. right. apply list_elem_of_here.
    + rewrite lookup_insert_ne by done. intros Hq%Hdom.
      apply elem_of_app. by left.
  - done.
  - rewrite record_match_sizes. simpl.
    rewrite sizes_total_snoc, sum_values_insert; [lia |].
    destruct (file_sizes st !! fp) eqn:Hfp; [| done].
    assert (fp ∈ found_files st) as Hin by (apply Hdom; by eexists).
    rewrite fmap_cons in Hnd. apply NoDup_app in Hnd as (_ & Hdis & _).
    destruct (Hdis fp Hin). apply list_elem_of_here.
  - done.
Qed.

Lemma scan_empty_response (w : world) (patterns : option (list string)) :
  let cleanup_dir := get_cleanup_directory w in
  let pats := default DEFAULT_UNWANTED_PATTERNS patterns in
  validate_directory w (resolve w cleanup_dir) cleanup_dir = Ok tt ->
  find_unwanted_files re_search w (resolve w cleanup_dir) pats = Ok empty_scan ->
  scan_for_unwanted_files re_search w patterns
  = Ok {| scan_directory := resolve w cleanup_dir;
          scan_patterns_used := pats;
          scan_files_found := 0;
          scan_total_size_bytes := 0;
          scan_found_files := [];
          scan_file_sizes := ∅ |}
  /\ forall dry_run,
       cleanup_unwanted_files re_search w dry_run patterns
       = (Ok {| cleanup_directory := resolve w cleanup_dir;
                cleanup_dry_run := dry_run;
                cleanup_patterns_used := pats;
                cleanup_files_found := 0;
                cleanup_files_removed := 0;
                cleanup_errors := 0;
                cleanup_found_files := [];
                cleanup_removed_files := [];
                cleanup_error_details := [] |}, w).
Proof.
  intros cleanup_dir pats Hv Hf. split.
  - by rewrite (scan_for_unwanted_files_ok re_search w patterns empty_scan Hv Hf).
  - intros dry_run. unfold cleanup_unwanted_files. fold cleanup_dir pats.
    by rewrite (resolve_and_validate_ok _ _ Hv), Hf.
Qed.

(** X10.  A root that passes validation but cannot be listed (a regular
    file, or a directory whose listing fails) is no error for scan and
    cleanup: the walk yields nothing, and both return an empty result,
    whatever the patterns, with the world untouched. *)
Theorem unlistable_root_gives_empty_result
    (w : world) (patterns : option (list string)) (dry_run : bool) (e : exn) :
  let cleanup_dir := get_cleanup_directory w in
  validate_directory w (resolve w cleanup_dir) cleanup_dir = Ok tt ->
  iterdir w (resolve w cleanup_dir) = Raise e ->
  (exists s,
     scan_for_unwanted_files re_search w patterns = Ok s
     /\ scan_found_files s = []
     /\ scan_files_found s = 0%nat
     /\ scan_total_size_bytes s = 0)
  /\ exists r,
       cleanup_unwanted_files re_search w dry_run patterns = (Ok r, w)
       /\ cleanup_found_files r = []
       /\ cleanup_removed_files r = []
       /\ cleanup_error_details r = [].
Proof.
  intros cleanup_dir Hv Hiter.
  assert (find_unwanted_files re_search w (resolve w cleanup_dir)
            (default DEFAULT_UNWANTED_PATTERNS patterns) = Ok empty_scan) as Hf.
  { unfold find_unwanted_files, os_walk. unfold iterdir in Hiter.
    by destruct (node_at w (resolve w cleanup_dir)) as [[sz ue|[] es]|]. }
  destruct (scan_empty_response w patterns Hv Hf) as [Hs Hc].
  split; [by eexists | rewrite Hc; by eexists].
Qed.

(** X11.  With an empty pattern list nothing matches: if the root passes
    validation, scan returns an empty result and cleanup, dry run or not,
    removes nothing and leaves the world as it is. *)
Theorem empty_pattern_list_matches_nothing (w : world) (dry_run : bool) :
  let cleanup_dir := get_cleanup_directory w in
  validate_directory w (resolve w cleanup_dir) cleanup_dir = Ok tt ->
  (exists s,
     scan_for_unwanted_files re_search w (Some []) = Ok s
     /\ scan_found_files s = []
     /\ scan_files_found s = 0%nat
     /\ scan_total_size_bytes s = 0)
  /\ exists r,
       cleanup_unwanted_files re_search w dry_run (Some []) = (Ok r, w)
       /\ cleanup_found_files r = []
       /\ cleanup_removed_files r = []
       /\ cleanup_error_details r = [].
Proof.
  intros cleanup_dir Hv.
  assert (find_unwanted_files re_search w (resolve w cleanup_dir) [] = Ok empty_scan)
    as Hf.
  { unfold find_unwanted_files.
    rewrite (for_each_pure _ _ (fun st _ => st)).
    - f_equal. by induction (os_walk w (resolve w cleanup_dir)).
    - intros [[root dirs] files] st _.
      rewrite (for_each_pure _ _ (fun st _ => st)) by done.
      f_equal. by induction files. }
  destruct (scan_empty_response w (Some []) Hv Hf) as [Hs Hc].
  split; [by eexists | rewrite Hc; by eexists].
Qed.

(** X12.  When the validator passes and the patterns compile, on a
    well-formed tree, the [total_size_bytes] of a scan is the sum, over the
    files found, of the size recorded for each (0 for a file whose [stat]
    raises), and [files_found] is their number. *)
Theorem scan_total_size_is_sum
    (w : world) (patterns : option (list string)) :
  let cleanup_dir := get_cleanup_directory w in
  let pats := default DEFAULT_UNWANTED_PATTERNS patterns in
  wf_node (fs w) = true ->
  validate_directory w (resolve w cleanup_dir) cleanup_dir = Ok tt ->
  Forall (compiles re_search) pats ->
  exists s,
    scan_for_unwanted_files re_search w patterns = Ok s
    /\ scan_total_size_bytes s = sizes_total w (scan_found_files s)
    /\ scan_files_found s = length (scan_found_files s).
Proof.
  intros cleanup_dir pats Hwf Hv Hc.
  pose proof (find_unwanted_files_fold re_search w (resolve w cleanup_dir) pats Hc)
    as Hf.
  eexists. split; [by apply scan_for_unwanted_files_ok |]. simpl.
  split; [| done].
  apply scan_fold_total; [| by intros fp [? ?] | done].
  simpl. by apply walk_files_NoDup.
Qed.

(** X13.  On a well-formed tree, with patterns that compile, every path in
    [found_files] is that of an existing regular file strictly below the
    scanned directory: its components are those of the directory followed
    by at least one more. *)
Theorem found_files_are_files_below_root
    (w : world) (directory_path : string) (patterns : list string) :
  wf_node (fs w) = true ->
  Forall (compiles re_search) patterns ->
  exists st,
    find_unwanted_files re_search w directory_path patterns = Ok st
    /\ forall fp, fp ∈ found_files st ->
         exists rel sz ue,
           rel <> []
           /\ path_parts fp = path_parts directory_path ++ rel
           /\ node_at w fp = Some (File sz ue).
Proof.
  intros Hwf Hc. eexists. split; [by apply find_unwanted_files_fold |].
  intros fp (f & p & Hin & _)%scan_found_inv.
  by apply (walk_files_located w directory_path fp f).
Qed.

End ScanTotals.

Lemma unlistable_root_gives_empty_result_witness :
  (exists s,
     scan_for_unwanted_files Re.search
       (with_dirs Examples.linux "/data/b.log" "/target") None = Ok s
     /\ scan_found_files s = []
     /\ scan_files_found s = 0%nat
     /\ scan_total_size_bytes s = 0)
  /\ exists r,
       cleanup_unwanted_files Re.search
         (with_dirs Examples.linux "/data/b.log" "/target") false None
       = (Ok r, with_dirs Examples.linux "/data/b.log" "/target")
       /\ cleanup_found_files r = []
       /\ cleanup_removed_files r = []
       /\ cleanup_error_details r = [].
Proof.
  apply (unlistable_root_gives_empty_result Re.search
           (with_dirs Examples.linux "/data/b.log" "/target") None false
           (OSError ENOTDIR "/data/b.log")).
  - vm_compute. reflexivity.
  - vm_compute. reflexivity.
Defined.

Lemma empty_pattern_list_matches_nothing_witness :
  (exists s,
     scan_for_unwanted_files Re.search Examples.housekeeping (Some []) = Ok s
     /\ scan_found_files s = []
     /\ scan_files_found s = 0%nat
     /\ scan_total_size_bytes s = 0)
  /\ exists r,
       cleanup_unwanted_files Re.search Examples.housekeeping false (Some [])
       = (Ok r, Examples.housekeeping)
       /\ cleanup_found_files r = []
       /\ cleanup_removed_files r = []
       /\ cleanup_error_details r = [].
Proof.
  apply (empty_pattern_list_matches_nothing Re.search Examples.housekeeping false).
  vm_compute. reflexivity.
Defined.

Lemma scan_total_size_is_sum_witness :
  exists s,
    scan_for_unwanted_files Re.search Examples.housekeeping None = Ok s
    /\ scan_total_size_bytes s = sizes_total Examples.housekeeping (scan_found_files s)
    /\ scan_files_found s = length (scan_found_files s).
Proof.
  apply (scan_total_size_is_sum Re.search Examples.housekeeping None).
  - reflexivity.
  - vm_compute. reflexivity.
  - by apply all_compile_spec.
Defined.

Example scan_total_example :
  (fun s => (scan_found_files s, scan_total_size_bytes s))
    <$> (match scan_for_unwanted_files Re.search Examples.housekeeping None with
         | Ok s => Some s
         | Raise _ => None
         end)
  = Some (["/data/locked.bak"; "/data/b.log"; "/data/a/x.tmp"; "/data/a/Thumbs.db"],
          20).
Proof. vm_compute. reflexivity. Qed.

Lemma found_files_are_files_below_root_witness :
  exists st,
    find_unwanted_files Re.search Examples.linux "/data" Examples.junk = Ok st
    /\ forall fp, fp ∈ found_files st ->
         exists rel sz ue,
           rel <> []
           /\ path_parts fp = path_parts "/data" ++ rel
           /\ node_at Examples.linux fp = Some (File sz ue).
Proof.
  apply (found_files_are_files_below_root Re.search Examples.linux "/data"
           Examples.junk).
  - reflexivity.
  - by apply all_compile_spec.
Defined.

(** ** The world after a cleanup *)

Lemma entry_lookup_remove_eq (es : list (string * node)) (a : string) :
  NoDup (fst <$> es) -> entry_lookup a (entry_remove a es) = None.
Proof.
  induction es as [|[n c] es IH]; [done |]. rewrite fmap_cons.
  intros [Hfresh Hnd]%NoDup_cons. simpl.
  destruct (String.eqb_spec n a) as [->|Hne].
  - destruct (entry_lookup a es) as [c'|] eqn:Hc'; [| done].
    destruct Hfresh. apply entry_lookup_Some in Hc'.
    apply list_elem_of_fmap. by exists (a, c').
  - simpl. rewrite (proj2 (String.eqb_neq n a)) by done. by apply IH.
Qed.

Lemma entry_remove_sublist (es : list (string * node)) (a : string) :
  entry_remove a es `sublist_of` es.
Proof.
  induction es as [|[n c] es IH]; [done |]. simpl.
  destruct (String.eqb n a); [by apply sublist_cons | by apply sublist_skip].
Qed.

Lemma entry_replace_names (es : list (string * node)) (a : string) (c' : node) :
  fst <$> entry_replace a c' es = fst <$> es.
Proof.
  induction es as [|[n c] es IH]; [done |]. simpl.
  destruct (String.eqb_spec n a) as [->|Hne]; [done |].
  change (n :: (fst <$> entry_replace a c' es) = n :: (fst <$> es)).
  by rewrite IH.
Qed.

Lemma entry_replace_elem (es : list (string * node)) (a : string) (c' : node)
    (e : string * node) :
  e ∈ entry_replace a c' es -> e ∈ es \/ (e = (a, c') /\ a ∈ fst <$> es).
Proof.
  induction es as [|[n c] es IH]; [by intros ?%elem_of_nil |]. simpl.
  destruct (String.eqb_spec n a) as [->|Hne].
  - intros [->|He]%elem_of_cons.
    + right. split; [done |]. apply list_elem_of_here.
    + left. by apply list_elem_of_further.
  - intros [->|He]%elem_of_cons; [left; apply list_elem_of_here |].
    destruct (IH He) as [H|[-> H]].
    + left. by apply list_elem_of_further.
    + right. split; [done |]. by apply list_elem_of_further.
Qed.

Lemma unlink_node_wf (path : string) (ps : list string) :
  forall n n',
    wf_node n = true -> unlink_node path n ps = Ok n' -> wf_node n' = true.
Proof.
  induction ps as [|a rest IH]; intros n n' Hwf Hun; [done |].
  simpl in Hun. destruct n as [sz ue|l es]; [done |].
  destruct (entry_lookup a es) as [c|] eqn:Hc; [| done].
  apply wf_node_dir in Hwf as [Hnd Hes].
  pose proof (entry_lookup_Some _ _ _ Hc) as Hin.
  pose proof (proj1 (Forall_forall _ _) Hes _ Hin) as [Hname Hwfc].
  destruct rest as [|r rs].
  - destruct c as [sz [msg|]|]; [done | | done]. injection Hun as <-.
    apply wf_node_dir. split.
    + eapply sublist_NoDup; [exact Hnd |].
      apply fmap_sublist, entry_remove_sublist.
    + apply Forall_forall. intros e He.
      apply (proj1 (Forall_forall _ _) Hes e).
      eapply elem_of_sublist; [exact He | apply entry_remove_sublist].
  - destruct (unlink_node path c (r :: rs)) as [c'|] eqn:Hc'; [| done].
    injection Hun as <-. apply wf_node_dir. split.
    + by rewrite entry_replace_names.
    + apply Forall_forall. intros e [He|[-> _]]%entry_replace_elem.
      * by apply (proj1 (Forall_forall _ _) Hes e).
      * split; [done |]. simpl. by apply (IH c c').
Qed.

(** After a file is removed nothing is found at its path. *)
Lemma unlink_node_gone (path : string) (ps : list string) :
  forall n n',
    wf_node n = true -> unlink_node path n ps = Ok n' ->
    lookup_node n' ps = None.
Proof.
  induction ps as [|a rest IH]; intros n n' Hwf Hun; [done |].
  simpl in Hun. destruct n as [sz ue|l es]; [done |].
  destruct (entry_lookup a es) as [c|] eqn:Hc; [| done].
  apply wf_node_dir in Hwf as [Hnd Hes].
  pose proof (entry_lookup_Some _ _ _ Hc) as Hin.
  pose proof (proj1 (Forall_forall _ _) Hes _ Hin) as [Hname Hwfc].
  destruct rest as [|r rs].
  - destruct c as [sz [msg|]|]; [done | | done]. injection Hun as <-.
    simpl. by rewrite entry_lookup_remove_eq.
  - destruct (unlink_node path c (r :: rs)) as [c'|] eqn:Hc'; [| done].
    injection Hun as <-.
    change (lookup_node (Dir l (entry_replace a c' es)) (a :: r :: rs))
      with (match entry_lookup a (entry_replace a c' es) with
            | Some c0 => lookup_node c0 (r :: rs)
            | None => None
            end).
    rewrite (entry_lookup_replace_eq es a c c') by done.
    by apply (IH c c').
Qed.

(** Removing a file creates nothing. *)
Lemma unlink_node_keeps_none (path : string) (ps1 : list string) :
  forall n n' ps2,
    wf_node n = true -> unlink_node path n ps1 = Ok n' ->
    lookup_node n ps2 = None -> lookup_node n' ps2 = None.
Proof.
  induction ps1 as [|a rest1 IH]; intros n n' ps2 Hwf Hun Hnone; [done |].
  simpl in Hun. destruct n as [sz ue|l es]; [done |].
  destruct (entry_lookup a es) as [c|] eqn:Hc; [| done].
  apply wf_node_dir in Hwf as [Hnd Hes].
  pose proof (entry_lookup_Some _ _ _ Hc) as Hin.
  pose proof (proj1 (Forall_forall _ _) Hes _ Hin) as [Hname Hwfc].
  destruct ps2 as [|b rest2]; [done |].
  change (match entry_lookup b es with
          | Some c0 => lookup_node c0 rest2
          | None => None
          end = None) in Hnone.
  destruct rest1 as [|r rs].
  - destruct c as [sz [msg|]|]; [done | | done]. injection Hun as <-.
    simpl. destruct (decide (a = b)) as [<-|Hne].
    + by rewrite entry_lookup_remove_eq.
    + by rewrite entry_lookup_remove_ne.
  - destruct (unlink_node path c (r :: rs)) as [c'|] eqn:Hc'; [| done].
    injection Hun as <-.
    change (match entry_lookup b (entry_replace a c' es) with
            | Some c0 => lookup_node c0 rest2
            | None => None
            end = None).
    destruct (decide (a = b)) as [<-|Hne].
    + rewrite (entry_lookup_replace_eq es a c c') by done.
      rewrite Hc in Hnone. by apply (IH c c').
    + by rewrite entry_lookup_replace_ne.
Qed.

(** Removing a file leaves every other file as it is. *)
Lemma unlink_node_keeps_file (path : string) (ps1 : list string) :
  forall n n' ps2 sz ue,
    unlink_node path n ps1 = Ok n' ->
    lookup_node n ps2 = Some (File sz ue) -> ps2 <> ps1 ->
    lookup_node n' ps2 = Some (File sz ue).
Proof.
  induction ps1 as [|a rest1 IH]; intros n n' ps2 sz ue Hun Hfile Hne; [done |].
  simpl in Hun. destruct n as [sz0 ue0|l es].
  { done. }
  destruct (entry_lookup a es) as [c|] eqn:Hc; [| done].
  destruct ps2 as [|b rest2]; [done |].
  change (match entry_lookup b es with
          | Some c0 => lookup_node c0 rest2
          | None => None
          end = Some (File sz ue)) in Hfile.
  destruct rest1 as [|r rs].
  - destruct c as [sz1 [msg|]|]; [done | | done]. injection Hun as <-.
    simpl. destruct (decide (a = b)) as [<-|Hab].
    + rewrite Hc in Hfile. destruct rest2; [done | done].
    + by rewrite entry_lookup_remove_ne.
  - destruct (unlink_node path c (r :: rs)) as [c'|] eqn:Hc'; [| done].
    injection Hun as <-.
    change (match entry_lookup b (entry_replace a c' es) with
            | Some c0 => lookup_node c0 rest2
            | None => None
            end = Some (File sz ue)).
    destruct (decide (a = b)) as [<-|Hab].
    + rewrite (entry_lookup_replace_eq es a c c') by done.
      rewrite Hc in Hfile. apply (IH c c'); [done | done | congruence].
    + by rewrite entry_lookup_replace_ne.
Qed.

Lemma unlink_world (w w1 : world) (fp : string) :
  unlink w fp = Ok w1 ->
  exists t,
    unlink_node fp (fs w) (path_parts fp) = Ok t /\ w1 = set_fs w t.
Proof.
  unfold unlink.
  destruct (unlink_node fp (fs w) (path_parts fp)) as [t|]; [| done].
  intros [= <-]. by exists t.
Qed.

(** What the removal loop does to the world. *)
Lemma remove_files_effects (pm : gmap string string) (found : list string) :
  forall removed errors w removed' errors' w',
    remove_files false pm found removed errors w = (Ok (removed', errors'), w') ->
    wf_node (fs w) = true ->
    exists new,
      removed' = removed ++ new
      /\ (forall fp, fp ∈ new -> fp ∈ found)
      /\ wf_node (fs w') = true
      /\ resolve w' = resolve w
      /\ environ w' = environ w
      /\ (forall q, node_at w q = None -> node_at w' q = None)
      /\ (forall fp, fp ∈ new -> node_at w' fp = None)
      /\ (forall q sz ue,
            node_at w q = Some (File sz ue) ->
            (forall fp, fp ∈ new -> path_parts fp <> path_parts q) ->
            node_at w' q = Some (File sz ue)).
Proof.
  induction found as [|fp found IH];
    intros removed errors w removed' errors' w' Hrun Hwf.
  { injection Hrun as <- <- <-. exists []. rewrite app_nil_r.
    repeat split; try done; by intros ? ?%elem_of_nil. }
  simpl in Hrun. destruct (pm !! fp) as [p|]; [| done].
  destruct (unlink w fp) as [w1|e] eqn:Hun.
  - destruct (unlink_world w w1 fp Hun) as (t & Ht & ->).
    assert (wf_node (fs (set_fs w t)) = true) as Hwf1
      by (by apply (unlink_node_wf fp (path_parts fp) (fs w))).
    destruct (IH _ _ _ _ _ _ Hrun Hwf1)
      as (new & -> & Hsub & Hwf' & Hres & Henv & Hnone & Hgone & Hkeep).
    exists (fp :: new). rewrite <- app_assoc.
    repeat split; try done.
    + intros x [->|Hx]%elem_of_cons;
        [apply list_elem_of_here | by apply list_elem_of_further, Hsub].
    + intros q Hq. apply Hnone. unfold node_at in *. simpl.
      by apply (unlink_node_keeps_none fp (path_parts fp) (fs w)).
    + intros x [->|Hx]%elem_of_cons; [| by apply Hgone].
      apply Hnone. unfold node_at. simpl.
      by apply (unlink_node_gone fp (path_parts fp) (fs w)).
    + intros q sz ue Hq Hother. apply Hkeep.
      * unfold node_at in *. simpl.
        apply (unlink_node_keeps_file fp (path_parts fp) (fs w)); [done | done |].
        intros Heq. by apply (Hother fp (list_elem_of_here _ _)).
      * intros x Hx. apply Hother. by apply list_elem_of_further.
  - destruct (IH _ _ _ _ _ _ Hrun Hwf)
      as (new & -> & Hsub & Hwf' & Hres & Henv & Hnone & Hgone & Hkeep).
    exists new. repeat split; try done.
    intros x Hx. by apply list_elem_of_further, Hsub.
Qed.

Section AfterCleanup.

Variable re_search : string -> string -> result bool.

Lemma cleanup_effects (w : world) (patterns : option (list string)) :
  let cleanup_dir := get_cleanup_directory w in
  let pats := default DEFAULT_UNWANTED_PATTERNS patterns in
  wf_node (fs w) = true ->
  validate_directory w (resolve w cleanup_dir) cleanup_dir = Ok tt ->
  Forall (compiles re_search) pats ->
  exists st r w',
    find_unwanted_files re_search w (resolve w cleanup_dir) pats = Ok st
    /\ cleanup_unwanted_files re_search w false patterns = (Ok r, w')
    /\ cleanup_found_files r = found_files st
    /\ remove_files false (pattern_matches st) (found_files st) [] [] w
       = (Ok (cleanup_removed_files r, cleanup_error_details r), w').
Proof.
  intros cleanup_dir pats Hwf Hv Hc.
  pose proof (find_unwanted_files_fold re_search w (resolve w cleanup_dir) pats Hc)
    as Hf.
  destruct (cleanup_unwanted_files_ok re_search w false patterns _ Hv Hf)
    as (removed & errors & w' & Hr & Hcl).
  by eexists _, _, w'.
Qed.

(** X14.  After a cleanup that is not a dry run (well-formed tree, root
    that passes validation, patterns that compile), every file listed in
    [removed_files] was one of the files found, existed before, no longer
    exists, and is not found by a scan of the world the cleanup leaves,
    whatever patterns that scan uses. *)
Theorem cleanup_removed_files_are_gone
    (w : world) (patterns : option (list string)) :
  let cleanup_dir := get_cleanup_directory w in
  let pats := default DEFAULT_UNWANTED_PATTERNS patterns in
  wf_node (fs w) = true ->
  validate_directory w (resolve w cleanup_dir) cleanup_dir = Ok tt ->
  Forall (compiles re_search) pats ->
  exists r w',
    cleanup_unwanted_files re_search w false patterns = (Ok r, w')
    /\ forall fp, fp ∈ cleanup_removed_files r ->
         fp ∈ cleanup_found_files r
         /\ path_exists w fp = true
         /\ path_exists w' fp = false
         /\ forall directory_path later st,
              Forall (compiles re_search) later ->
              find_unwanted_files re_search w' directory_path later = Ok st ->
              fp ∉ found_files st.
Proof.
  intros cleanup_dir pats Hwf Hv Hc.
  destruct (cleanup_effects w patterns Hwf Hv Hc)
    as (st & r & w' & Hf & Hcl & Hfound & Hrun).
  destruct (remove_files_effects _ _ _ _ _ _ _ _ Hrun Hwf)
    as (new & Hnew & Hsub & Hwf' & _ & _ & _ & Hgone & _).
  simpl in Hnew. exists r, w'. split; [done |].
  intros fp Hfp. rewrite Hnew in Hfp.
  pose proof (Hsub fp Hfp) as Hin.
  split; [by rewrite Hfound |].
  split.
  - rewrite (find_unwanted_files_fold re_search _ _ _ Hc) in Hf.
    injection Hf as <-.
    apply scan_found_inv in Hin as (f & p & Hwalk & _).
    destruct (walk_files_located w _ fp f Hwf Hwalk) as (rel & sz & ue & _ & _ & Hn).
    unfold path_exists. rewrite Hn. by apply bool_decide_eq_true.
  - split.
    + unfold path_exists. rewrite (Hgone fp Hfp).
      apply bool_decide_eq_false. by intros [? ?].
    + intros directory_path later st' Hlater Hst' Hin'.
      rewrite (find_unwanted_files_fold re_search _ _ _ Hlater) in Hst'.
      injection Hst' as <-.
      apply scan_found_inv in Hin' as (f & p & Hwalk & _).
      destruct (walk_files_located w' _ fp f Hwf' Hwalk)
        as (rel & sz & ue & _ & _ & Hn).
      rewrite (Hgone fp Hfp) in Hn. done.
Qed.

(** X15.  Such a cleanup touches nothing else: a regular file whose path is
    not that of a file listed in [removed_files] is still there with the
    same size and permissions, nothing appears where nothing was, and the
    environment and the resolution of paths are unchanged. *)
Theorem cleanup_leaves_other_files
    (w : world) (patterns : option (list string)) :
  let cleanup_dir := get_cleanup_directory w in
  let pats := default DEFAULT_UNWANTED_PATTERNS patterns in
  wf_node (fs w) = true ->
  validate_directory w (resolve w cleanup_dir) cleanup_dir = Ok tt ->
  Forall (compiles re_search) pats ->
  exists r w',
    cleanup_unwanted_files re_search w false patterns = (Ok r, w')
    /\ (forall q sz ue,
          node_at w q = Some (File sz ue) ->
          (forall fp, fp ∈ cleanup_removed_files r ->
             path_parts fp <> path_parts q) ->
          node_at w' q = Some (File sz ue))
    /\ (forall q, node_at w q = None -> node_at w' q = None)
    /\ environ w' = environ w
    /\ resolve w' = resolve w
    /\ wf_node (fs w') = true.
Proof.
  intros cleanup_dir pats Hwf Hv Hc.
  destruct (cleanup_effects w patterns Hwf Hv Hc)
    as (st & r & w' & Hf & Hcl & Hfound & Hrun).
  destruct (remove_files_effects _ _ _ _ _ _ _ _ Hrun Hwf)
    as (new & Hnew & Hsub & Hwf' & Hres & Henv & Hnone & Hgone & Hkeep).
  simpl in Hnew. exists r, w'. split; [done |].
  rewrite Hnew. by repeat split.
Qed.

End AfterCleanup.

Lemma cleanup_removed_files_are_gone_witness :
  exists r w',
    cleanup_unwanted_files Re.search Examples.housekeeping false None = (Ok r, w')
    /\ forall fp, fp ∈ cleanup_removed_files r ->
         fp ∈ cleanup_found_files r
         /\ path_exists Examples.housekeeping fp = true
         /\ path_exists w' fp = false
         /\ forall directory_path later st,
              Forall (compiles Re.search) later ->
              find_unwanted_files Re.search w' directory_path later = Ok st ->
              fp ∉ found_files st.
Proof.
  apply (cleanup_removed_files_are_gone Re.search Examples.housekeeping None).
  - reflexivity.
  - vm_compute. reflexivity.
  - by apply all_compile_spec.
Defined.

Lemma cleanup_leaves_other_files_witness :
  exists r w',
    cleanup_unwanted_files Re.search Examples.housekeeping false None = (Ok r, w')
    /\ (forall q sz ue,
          node_at Examples.housekeeping q = Some (File sz ue) ->
          (forall fp, fp ∈ cleanup_removed_files r ->
             path_parts fp <> path_parts q) ->
          node_at w' q = Some (File sz ue))
    /\ (forall q, node_at Examples.housekeeping q = None -> node_at w' q = None)
    /\ environ w' = environ Examples.housekeeping
    /\ resolve w' = resolve Examples.housekeeping
    /\ wf_node (fs w') = true.
Proof.
  apply (cleanup_leaves_other_files Re.search Examples.housekeeping None).
  - reflexivity.
  - vm_compute. reflexivity.
  - by apply all_compile_spec.
Defined.

(** * The metrics *)

Lemma counter_value_inc (name : string) (labels : list string) (amount : Z)
    (m : registry) (name' : string) (labels' : list string) :
  counter_value (inc name labels amount m) name' labels'
  = if decide ((name, labels) = (name', labels'))
    then counter_value m name labels + amount
    else counter_value m name' labels'.
Proof.
  unfold counter_value, inc. cbn [counters].
  destruct (decide _) as [<-|Hne].
  - by rewrite lookup_insert_eq.
  - by rewrite lookup_insert_ne.
Qed.

Lemma gauge_value_gauge_set (name : string) (labels : list string) (value : Z)
    (m : registry) (name' : string) (labels' : list string) :
  gauge_value (gauge_set name labels value m) name' labels'
  = if decide ((name, labels) = (name', labels'))
    then value
    else gauge_value m name' labels'.
Proof.
  unfold gauge_value, gauge_set. cbn [gauges].
  destruct (decide _) as [<-|Hne].
  - by rewrite lookup_insert_eq.
  - by rewrite lookup_insert_ne.
Qed.

Lemma observations_observe (name : string) (labels : list string)
    (value : option Z) (m : registry) (name' : string) (labels' : list string) :
  observations (observe name labels value m) name' labels'
  = if decide ((name, labels) = (name', labels'))
    then observations m name labels ++ [value]
    else observations m name' labels'.
Proof.
  unfold observations, observe. cbn [histograms].
  destruct (decide _) as [<-|Hne].
  - by rewrite lookup_insert_eq.
  - by rewrite lookup_insert_ne.
Qed.

(** ** The results do not depend on the registry *)

Lemma validate_directory_observed_fst (w : world)
    (directory_path cleanup_dir operation_type : string) (m : registry) :
  fst (validate_directory_observed w directory_path cleanup_dir operation_type m)
  = validate_directory w directory_path cleanup_dir.
Proof.
  unfold validate_directory_observed, validate_directory.
  destruct (negb (path_exists w directory_path)); [done|].
  cbv zeta. by destruct (negb (existsb _ _)).
Qed.

Lemma for_each_observed_fst {A S : Type} (l : list A)
    (body_o : A -> S -> registry -> result S * registry)
    (body : A -> S -> result S) :
  (forall x s m, fst (body_o x s m) = body x s) ->
  forall s m, fst (for_each_observed l body_o s m) = for_each l body s.
Proof.
  intros Hb. induction l as [|x l IH]; intros s m; [done|].
  cbn [for_each_observed for_each]. specialize (Hb x s m).
  destruct (body_o x s m) as [[s'|e] m']; cbn [fst] in Hb; rewrite <- Hb;
    cbn [bind]; [apply IH | done].
Qed.

Lemma remove_files_observed_fst (cleanup_dir : string) (dry_run : bool)
    (pm : gmap string string) (found : list string) :
  forall removed errors w m,
    fst (remove_files_observed cleanup_dir dry_run pm found removed errors w m)
    = remove_files dry_run pm found removed errors w.
Proof.
  induction found as [|fp found IH]; intros removed errors w m; [done|].
  cbn [remove_files_observed remove_files].
  destruct (pm !! fp) as [p|]; [|done].
  destruct (negb dry_run); [|apply IH].
  destruct (unlink w fp) as [w'|e]; apply IH.
Qed.

Section ObservedResults.

Variable re_search : string -> string -> result bool.

Lemma match_patterns_observed_fst (w : world)
    (directory_path operation_type file_path file : string)
    (patterns : list string) (st : scan_state) (m : registry) :
  fst (match_patterns_observed re_search w directory_path operation_type
         file_path file patterns st m)
  = match_patterns re_search w file_path file patterns st.
Proof.
  induction patterns as [|p patterns IH]; [done|].
  cbn [match_patterns_observed match_patterns].
  destruct (re_search p file) as [[|]|e]; cbn [bind]; [done | apply IH | done].
Qed.

Lemma find_unwanted_files_observed_fst (w : world) (directory_path : string)
    (patterns : list string) (operation_type : string) (m : registry) :
  fst (find_unwanted_files_observed re_search w directory_path patterns
         operation_type m)
  = find_unwanted_files re_search w directory_path patterns.
Proof.
  unfold find_unwanted_files_observed, find_unwanted_files.
  apply for_each_observed_fst. intros [[root dirs] files] st m'.
  apply for_each_observed_fst. intros file st' m''.
  apply match_patterns_observed_fst.
Qed.

Lemma scan_for_unwanted_files_observed_fst (w : world)
    (patterns : option (list string)) (m : registry) :
  fst (scan_for_unwanted_files_observed re_search w patterns m)
  = scan_for_unwanted_files re_search w patterns.
Proof.
  unfold scan_for_unwanted_files_observed, scan_for_unwanted_files,
    resolve_and_validate. cbv zeta.
  pose proof (validate_directory_observed_fst w
                (resolve w (get_cleanup_directory w))
                (get_cleanup_directory w) "scan" m) as Hv.
  destruct (validate_directory_observed _ _ _ _ _) as [[[]|e] m1];
    cbn [fst] in Hv; rewrite <- Hv; cbn [bind]; [|done].
  pose proof (find_unwanted_files_observed_fst w
                (resolve w (get_cleanup_directory w))
                (default DEFAULT_UNWANTED_PATTERNS patterns) "scan" m1) as Hf.
  destruct (find_unwanted_files_observed _ _ _ _ _ _) as [[st|e] m2];
    cbn [fst] in Hf; rewrite <- Hf; done.
Qed.

Lemma cleanup_unwanted_files_observed_fst (w : world) (dry_run : bool)
    (patterns : option (list string)) (m : registry) :
  fst (cleanup_unwanted_files_observed re_search w dry_run patterns m)
  = cleanup_unwanted_files re_search w dry_run patterns.
Proof.
  unfold cleanup_unwanted_files_observed, cleanup_unwanted_files,
    resolve_and_validate. cbv zeta.
  pose proof (validate_directory_observed_fst w
                (resolve w (get_cleanup_directory w))
                (get_cleanup_directory w) "cleanup" m) as Hv.
  destruct (validate_directory_observed _ _ _ _ _) as [[[]|e] m1];
    cbn [fst] in Hv; rewrite <- Hv; cbn [bind]; [|done].
  pose proof (find_unwanted_files_observed_fst w
                (resolve w (get_cleanup_directory w))
                (default DEFAULT_UNWANTED_PATTERNS patterns) "cleanup" m1) as Hf.
  destruct (find_unwanted_files_observed _ _ _ _ _ _) as [[st|e] m2];
    cbn [fst] in Hf; rewrite <- Hf; [|done].
  pose proof (remove_files_observed_fst (get_cleanup_directory w) dry_run
                (pattern_matches st) (found_files st) [] [] w m2) as Hr.
  destruct (remove_files_observed _ _ _ _ _ _ _ _) as [[[[removed errors]|e] w'] m3];
    cbn [fst] in Hr; rewrite <- Hr; done.
Qed.

Lemma compare_directories_observed_fst (w : world) (verbose : bool)
    (m : registry) :
  fst (compare_directories_observed w verbose m) = compare_directories w verbose.
Proof.
  unfold compare_directories_observed, compare_directories, compare_body.
  cbv zeta.
  pose proof (validate_directory_observed_fst w
                (resolve w (get_cleanup_directory w))
                (get_cleanup_directory w) "comparison" m) as Hv.
  destruct (validate_directory_observed _ _ _ _ _) as [[[]|e] m1];
    cbn [fst] in Hv; rewrite <- Hv; cbn [bind]; [|by destruct e].
  pose proof (validate_directory_observed_fst w
                (resolve w (get_target_directory w))
                (get_target_directory w) "comparison" m1) as Hv'.
  destruct (validate_directory_observed _ _ _ _ _) as [[[]|e] m2];
    cbn [fst] in Hv'; rewrite <- Hv'; cbn [bind]; [|by destruct e].
  unfold get_subdirectories_observed. done.
Qed.

(** X16.  Recording metrics changes no result: whatever the registry holds,
    each endpoint returns the response or raises the exception, and leaves
    the world, that it returns, raises and leaves when the registry is left
    out. *)
Theorem metrics_do_not_change_results (w : world) (m : registry)
    (patterns : option (list string)) (dry_run verbose : bool) :
  fst (scan_for_unwanted_files_observed re_search w patterns m)
  = scan_for_unwanted_files re_search w patterns
  /\ fst (cleanup_unwanted_files_observed re_search w dry_run patterns m)
     = cleanup_unwanted_files re_search w dry_run patterns
  /\ fst (compare_directories_observed w verbose m)
     = compare_directories w verbose.
Proof.
  split; [|split].
  - apply scan_for_unwanted_files_observed_fst.
  - apply cleanup_unwanted_files_observed_fst.
  - apply compare_directories_observed_fst.
Qed.

End ObservedResults.

(** ** What an endpoint may do to the registry *)

Lemma updates_trans (cs gs hs : list string) (m1 m2 m3 : registry) :
  updates cs gs hs m1 m2 -> updates cs gs hs m2 m3 -> updates cs gs hs m1 m3.
Proof.
  intros H12 H23.
  induction H23;
    [done | by apply updates_inc | by apply updates_set | by apply updates_observe].
Qed.

Lemma updates_counter_le (cs gs hs : list string) (m m' : registry)
    (name : string) (labels : list string) :
  updates cs gs hs m m' ->
  counter_value m name labels <= counter_value m' name labels.
Proof.
  induction 1 as [|m' n l a _ IH _ Ha|m' n l v _ IH _|m' n l v _ IH _];
    [lia | | done | done].
  rewrite counter_value_inc. destruct (decide _) as [[= <- <-]|_]; lia.
Qed.

Lemma updates_counter_outside (cs gs hs : list string) (m m' : registry)
    (name : string) (labels : list string) :
  updates cs gs hs m m' -> name ∉ cs ->
  counter_value m' name labels = counter_value m name labels.
Proof.
  intros H Hn.
  induction H as [|m' n l a _ IH Hin _|m' n l v _ IH _|m' n l v _ IH _];
    [done | | done | done].
  rewrite counter_value_inc. destruct (decide _) as [[= <- <-]|_]; done.
Qed.

Lemma updates_gauge_outside (cs gs hs : list string) (m m' : registry)
    (name : string) (labels : list string) :
  updates cs gs hs m m' -> name ∉ gs ->
  gauge_value m' name labels = gauge_value m name labels.
Proof.
  intros H Hn.
  induction H as [|m' n l a _ IH _ _|m' n l v _ IH Hin|m' n l v _ IH _];
    [done | done | | done].
  rewrite gauge_value_gauge_set. destruct (decide _) as [[= <- <-]|_]; done.
Qed.

Lemma updates_observations_outside (cs gs hs : list string) (m m' : registry)
    (name : string) (labels : list string) :
  updates cs gs hs m m' -> name ∉ hs ->
  observations m' name labels = observations m name labels.
Proof.
  intros H Hn.
  induction H as [|m' n l a _ IH _ _|m' n l v _ IH _|m' n l v _ IH Hin];
    [done | done | done |].
  rewrite observations_observe. destruct (decide _) as [[= <- <-]|_]; done.
Qed.

Lemma updates_observations_prefix (cs gs hs : list string) (m m' : registry)
    (name : string) (labels : list string) :
  updates cs gs hs m m' ->
  observations m name labels `prefix_of` observations m' name labels.
Proof.
  induction 1 as [|m' n l a _ IH _ _|m' n l v _ IH _|m' n l v _ IH _];
    [done | done | done |].
  rewrite observations_observe. destruct (decide _) as [[= <- <-]|_]; [|done].
  by apply prefix_app_r.
Qed.

Lemma for_each_observed_updates {A S : Type} (cs gs hs : list string)
    (l : list A) (body : A -> S -> registry -> result S * registry) :
  (forall x s m, updates cs gs hs m (snd (body x s m))) ->
  forall s m, updates cs gs hs m (snd (for_each_observed l body s m)).
Proof.
  intros Hb. induction l as [|x l IH]; intros s m; [apply updates_refl|].
  cbn [for_each_observed]. specialize (Hb x s m).
  destruct (body x s m) as [[s'|e] m']; cbn [snd] in Hb; [|done].
  eapply updates_trans; [exact Hb | apply IH].
Qed.

Lemma foldl_updates {A : Type} (cs gs hs : list string) (l : list A)
    (f : registry -> A -> registry) :
  (forall m x, updates cs gs hs m (f m x)) ->
  forall m, updates cs gs hs m (foldl f m l).
Proof.
  intros Hf. induction l as [|x l IH]; intros m; [apply updates_refl|].
  cbn [foldl]. eapply updates_trans; [apply Hf | apply IH].
Qed.

Lemma validate_directory_observed_updates (cs gs hs : list string) (w : world)
    (directory_path cleanup_dir operation_type : string) (m : registry) :
  (operation_type = "scan" -> scan_errors_total ∈ cs) ->
  (operation_type = "cleanup" -> cleanup_errors_total ∈ cs) ->
  (operation_type = "comparison" -> comparison_errors_total ∈ cs) ->
  updates cs gs hs m
    (snd (validate_directory_observed w directory_path cleanup_dir
            operation_type m)).
Proof.
  intros Hs Hc Hk. unfold validate_directory_observed.
  destruct (negb (path_exists w directory_path)).
  - cbn [snd].
    destruct (String.eqb_spec operation_type "scan");
      [apply updates_inc; [apply updates_refl | auto | lia]|].
    destruct (String.eqb_spec operation_type "cleanup");
      [apply updates_inc; [apply updates_refl | auto | lia]|].
    destruct (String.eqb_spec operation_type "comparison");
      [apply updates_inc; [apply updates_refl | auto | lia]|].
    apply updates_refl.
  - cbv zeta. destruct (negb (existsb _ _)); apply updates_refl.
Qed.

Lemma pattern_counts_lookup (pm : gmap string string) (pattern : string) :
  default 0 (pattern_counts pm !! pattern) = Z.of_nat (matched_with pm pattern).
Proof.
  unfold pattern_counts, matched_with. revert pattern.
  apply (map_fold_weak_ind
           (fun r (m : gmap string string) =>
              forall pattern,
                default 0 (r !! pattern)
                = Z.of_nat (length (filter (fun kv => kv.2 = pattern)
                                      (map_to_list m))))).
  - intros pattern. by rewrite map_to_list_empty, lookup_empty.
  - intros fp p m r Hfp IH pattern.
    rewrite (Permutation_length
               (filter_Permutation _ _ _ (map_to_list_insert m fp p Hfp))).
    rewrite filter_cons. cbn [snd].
    destruct (decide (p = pattern)) as [->|Hne].
    + rewrite lookup_insert_eq. cbn [default length]. unfold id. rewrite IH. lia.
    + rewrite lookup_insert_ne by done. apply IH.
Qed.

Lemma foldl_pointwise {A B : Type} (f g : B -> A -> B) (l : list A) :
  (forall b x, f b x = g b x) -> forall b, foldl f b l = foldl g b l.
Proof.
  intros Hfg. induction l as [|x l IH]; intros b; [done|].
  cbn [foldl]. by rewrite Hfg, IH.
Qed.

Lemma record_found_fold (found_total current_files cleanup_dir : string)
    (patterns : list string) (pm : gmap string string) (m : registry) :
  record_found found_total current_files cleanup_dir patterns pm m
  = foldl
      (fun m pattern =>
         gauge_set current_files [cleanup_dir; pattern]
           (Z.of_nat (matched_with pm pattern))
           (inc found_total [cleanup_dir; pattern]
              (Z.of_nat (matched_with pm pattern)) m))
      m patterns.
Proof.
  unfold record_found. case_bool_decide as Hpm.
  - cbv zeta. apply foldl_pointwise. intros m' p.
    by rewrite pattern_counts_lookup.
  - assert (pm = ∅) as -> by (by destruct (decide (pm = ∅))).
    apply foldl_pointwise. intros m' p. unfold matched_with.
    by rewrite map_to_list_empty.
Qed.

Lemma record_found_updates (cs gs hs : list string)
    (found_total current_files cleanup_dir : string)
    (patterns : list string) (pm : gmap string string) (m : registry) :
  found_total ∈ cs -> current_files ∈ gs ->
  updates cs gs hs m
    (record_found found_total current_files cleanup_dir patterns pm m).
Proof.
  intros Hc Hg. rewrite record_found_fold. apply foldl_updates.
  intros m' p. apply updates_set; [|done].
  apply updates_inc; [apply updates_refl | done | lia].
Qed.

Lemma zero_removed_updates (cs gs hs : list string) (cleanup_dir : string)
    (pm : gmap string string) (removed : list string) (m : registry) :
  cleanup_current_files ∈ gs ->
  updates cs gs hs m (zero_removed cleanup_dir pm removed m).
Proof.
  intros Hg. unfold zero_removed. cbv zeta. apply foldl_updates.
  intros m' p. apply updates_set; [apply updates_refl | done].
Qed.

Lemma remove_files_observed_updates (cs gs hs : list string)
    (cleanup_dir : string) (dry_run : bool) (pm : gmap string string)
    (found : list string) :
  cleanup_files_removed_total ∈ cs -> cleanup_errors_total ∈ cs ->
  forall removed errors w m,
    updates cs gs hs m
      (snd (remove_files_observed cleanup_dir dry_run pm found removed errors
              w m)).
Proof.
  intros Hr He.
  induction found as [|fp found IH]; intros removed errors w m;
    [apply updates_refl|].
  cbn [remove_files_observed].
  destruct (pm !! fp) as [p|]; [|apply updates_refl].
  destruct (negb dry_run); [|apply IH].
  destruct (unlink w fp) as [w'|e].
  - eapply updates_trans; [|apply IH].
    apply updates_inc; [apply updates_refl | done | lia].
  - eapply updates_trans; [|apply IH].
    apply updates_inc; [apply updates_refl | done | lia].
Qed.

Ltac metric_listed :=
  solve [intros;
         repeat first [apply list_elem_of_here | apply list_elem_of_further]].

Section ObservedUpdates.

Variable re_search : string -> string -> result bool.

Lemma find_unwanted_files_observed_updates (cs gs hs : list string) (w : world)
    (directory_path : string) (patterns : list string) (operation_type : string)
    (m : registry) :
  (operation_type = "scan" -> scan_directory_size_bytes ∈ hs) ->
  (operation_type <> "scan" -> cleanup_directory_size_bytes ∈ hs) ->
  updates cs gs hs m
    (snd (find_unwanted_files_observed re_search w directory_path patterns
            operation_type m)).
Proof.
  intros Hs Hc. unfold find_unwanted_files_observed.
  apply for_each_observed_updates. intros [[root dirs] files] st m'.
  apply for_each_observed_updates. intros file st' m''.
  generalize (path_join root file). intros file_path.
  induction patterns as [|p patterns IH]; [apply updates_refl|].
  cbn [match_patterns_observed].
  destruct (re_search p file) as [[|]|e]; [|apply IH|apply updates_refl].
  cbn [snd]. destruct (stat_size w file_path) as [sz|e]; [|apply updates_refl].
  destruct (String.eqb_spec operation_type "scan");
    (apply updates_observe; [apply updates_refl | auto]).
Qed.

Lemma scan_for_unwanted_files_observed_updates (w : world)
    (patterns : option (list string)) (m : registry) :
  updates scan_metrics scan_metrics scan_metrics m
    (snd (scan_for_unwanted_files_observed re_search w patterns m)).
Proof.
  unfold scan_for_unwanted_files_observed. cbv zeta.
  pose proof (validate_directory_observed_updates scan_metrics scan_metrics
                scan_metrics w (resolve w (get_cleanup_directory w))
                (get_cleanup_directory w) "scan" m) as Hv.
  destruct (validate_directory_observed _ _ _ _ _) as [[[]|e] m1];
    cbn [snd] in Hv.
  - pose proof (find_unwanted_files_observed_updates scan_metrics scan_metrics
                  scan_metrics w (resolve w (get_cleanup_directory w))
                  (default DEFAULT_UNWANTED_PATTERNS patterns) "scan" m1) as Hf.
    destruct (find_unwanted_files_observed _ _ _ _ _ _) as [[st|e] m2];
      cbn [snd] in Hf |- *.
    + apply updates_observe; [|metric_listed].
      eapply updates_trans; [apply Hv; (metric_listed || done)|].
      eapply updates_trans; [apply Hf; (metric_listed || done)|].
      apply record_found_updates; metric_listed.
    + apply updates_inc; [|metric_listed|lia].
      eapply updates_trans; [apply Hv; (metric_listed || done)|].
      apply Hf; (metric_listed || done).
  - cbn [snd]. apply updates_inc; [|metric_listed|lia].
    apply Hv; (metric_listed || done).
Qed.

Lemma cleanup_unwanted_files_observed_updates (w : world) (dry_run : bool)
    (patterns : option (list string)) (m : registry) :
  updates cleanup_metrics cleanup_metrics cleanup_metrics m
    (snd (cleanup_unwanted_files_observed re_search w dry_run patterns m)).
Proof.
  unfold cleanup_unwanted_files_observed. cbv zeta.
  pose proof (validate_directory_observed_updates cleanup_metrics
                cleanup_metrics cleanup_metrics w
                (resolve w (get_cleanup_directory w))
                (get_cleanup_directory w) "cleanup" m) as Hv.
  destruct (validate_directory_observed _ _ _ _ _) as [[[]|e] m1];
    cbn [snd] in Hv.
  - pose proof (find_unwanted_files_observed_updates cleanup_metrics
                  cleanup_metrics cleanup_metrics w
                  (resolve w (get_cleanup_directory w))
                  (default DEFAULT_UNWANTED_PATTERNS patterns) "cleanup" m1)
      as Hf.
    destruct (find_unwanted_files_observed _ _ _ _ _ _) as [[st|e] m2];
      cbn [snd] in Hf.
    + pose proof (remove_files_observed_updates cleanup_metrics cleanup_metrics
                    cleanup_metrics (get_cleanup_directory w) dry_run
                    (pattern_matches st) (found_files st)
                    ltac:(metric_listed) ltac:(metric_listed) [] [] w m2) as Hr.
      assert (updates cleanup_metrics cleanup_metrics cleanup_metrics m m2)
        as Hm2.
      { eapply updates_trans; [apply Hv; (metric_listed || done)|].
        apply Hf; (metric_listed || done). }
      destruct (remove_files_observed _ _ _ _ _ _ _ _)
        as [[[[removed errors]|e] w'] m3]; cbn [snd] in Hr |- *.
      * apply updates_observe; [|metric_listed].
        eapply updates_trans; [exact Hm2|].
        eapply updates_trans; [exact Hr|].
        apply (updates_trans _ _ _ _
                 (record_found cleanup_files_found_total cleanup_current_files
                    (get_cleanup_directory w)
                    (default DEFAULT_UNWANTED_PATTERNS patterns)
                    (pattern_matches st) m3));
          [apply record_found_updates; metric_listed|].
        destruct (negb dry_run && negb (is_empty_list removed));
          [apply zero_removed_updates; metric_listed | apply updates_refl].
      * apply updates_inc; [|metric_listed|lia].
        eapply updates_trans; [exact Hm2 | exact Hr].
    + cbn [snd]. apply updates_inc; [|metric_listed|lia].
      eapply updates_trans; [apply Hv; (metric_listed || done)|].
      apply Hf; (metric_listed || done).
  - cbn [snd]. apply updates_inc; [|metric_listed|lia].
    apply Hv; (metric_listed || done).
Qed.

End ObservedUpdates.

Lemma compare_directories_observed_updates (w : world) (verbose : bool)
    (m : registry) :
  updates comparison_metrics comparison_metrics comparison_metrics m
    (snd (compare_directories_observed w verbose m)).
Proof.
  unfold compare_directories_observed. cbv zeta.
  pose proof (validate_directory_observed_updates comparison_metrics
                comparison_metrics comparison_metrics w
                (resolve w (get_cleanup_directory w))
                (get_cleanup_directory w) "comparison" m) as Hv.
  destruct (validate_directory_observed _ _ _ _ _) as [[[]|e] m1];
    cbn [snd] in Hv.
  - pose proof (validate_directory_observed_updates comparison_metrics
                  comparison_metrics comparison_metrics w
                  (resolve w (get_target_directory w))
                  (get_target_directory w) "comparison" m1) as Hv'.
    assert (updates comparison_metrics comparison_metrics comparison_metrics
              m m1) as Hm1 by (apply Hv; (metric_listed || done)).
    destruct (validate_directory_observed _ _ _ _ _) as [[[]|e] m2];
      cbn [snd] in Hv'.
    + unfold get_subdirectories_observed. cbn [negb String.eqb snd].
      apply updates_observe; [|metric_listed].
      apply updates_set; [|metric_listed].
      eapply updates_trans; [exact Hm1 | apply Hv'; (metric_listed || done)].
    + assert (updates comparison_metrics comparison_metrics comparison_metrics
                m m2) as Hm2.
      { eapply updates_trans; [exact Hm1 | apply Hv'; (metric_listed || done)]. }
      destruct e; cbn [snd]; try done;
        (apply updates_inc; [done | metric_listed | lia]).
  - assert (updates comparison_metrics comparison_metrics comparison_metrics
              m m1) as Hm1 by (apply Hv; (metric_listed || done)).
    destruct e; cbn [snd]; try done;
      (apply updates_inc; [done | metric_listed | lia]).
Qed.

Section EndpointMetrics.

Variable re_search : string -> string -> result bool.

(** X17.  Whatever an endpoint returns or raises, no counter of the registry
    decreases (no increment is by a negative amount) and the observations
    of a histogram are only appended to. *)
Theorem counters_never_decrease (w : world) (patterns : option (list string))
    (dry_run verbose : bool) (m : registry) (name : string)
    (labels : list string) :
  let after_scan := snd (scan_for_unwanted_files_observed re_search w patterns m) in
  let after_cleanup :=
    snd (cleanup_unwanted_files_observed re_search w dry_run patterns m) in
  let after_compare := snd (compare_directories_observed w verbose m) in
  (counter_value m name labels <= counter_value after_scan name labels
   /\ observations m name labels `prefix_of` observations after_scan name labels)
  /\ (counter_value m name labels <= counter_value after_cleanup name labels
      /\ observations m name labels
           `prefix_of` observations after_cleanup name labels)
  /\ (counter_value m name labels <= counter_value after_compare name labels
      /\ observations m name labels
           `prefix_of` observations after_compare name labels).
Proof.
  cbv zeta.
  pose proof (scan_for_unwanted_files_observed_updates re_search w patterns m).
  pose proof (cleanup_unwanted_files_observed_updates re_search w dry_run
                patterns m).
  pose proof (compare_directories_observed_updates w verbose m).
  repeat split;
    first [by eapply updates_counter_le | by eapply updates_observations_prefix].
Qed.

(** X18.  Each endpoint keeps to its own metrics: a scan changes no value
    of a metric other than the five scan metrics, a cleanup none other than
    the six cleanup metrics, a comparison none other than the three
    comparison metrics.  In particular none of them touches
    [subdirectories_found_total]. *)
Theorem endpoints_keep_to_their_metrics (w : world)
    (patterns : option (list string)) (dry_run verbose : bool) (m : registry)
    (name : string) (labels : list string) :
  let after_scan := snd (scan_for_unwanted_files_observed re_search w patterns m) in
  let after_cleanup :=
    snd (cleanup_unwanted_files_observed re_search w dry_run patterns m) in
  let after_compare := snd (compare_directories_observed w verbose m) in
  (name ∉ scan_metrics ->
   counter_value after_scan name labels = counter_value m name labels
   /\ gauge_value after_scan name labels = gauge_value m name labels
   /\ observations after_scan name labels = observations m name labels)
  /\ (name ∉ cleanup_metrics ->
      counter_value after_cleanup name labels = counter_value m name labels
      /\ gauge_value after_cleanup name labels = gauge_value m name labels
      /\ observations after_cleanup name labels = observations m name labels)
  /\ (name ∉ comparison_metrics ->
      counter_value after_compare name labels = counter_value m name labels
      /\ gauge_value after_compare name labels = gauge_value m name labels
      /\ observations after_compare name labels = observations m name labels).
Proof.
  cbv zeta.
  pose proof (scan_for_unwanted_files_observed_updates re_search w patterns m).
  pose proof (cleanup_unwanted_files_observed_updates re_search w dry_run
                patterns m).
  pose proof (compare_directories_observed_updates w verbose m).
  repeat split;
    first [by eapply updates_counter_outside
          | by eapply updates_gauge_outside
          | by eapply updates_observations_outside].
Qed.

(** X19.  A request that the validator refuses is counted once by the
    endpoint, under the error type [directory_error] for a scan and
    [validation_error] for a cleanup, and, when the root does not exist,
    once more by the validator under [directory_not_found]: a missing root
    adds two to the error counters of the endpoint, a protected root one. *)
Theorem validation_failure_is_counted (w : world)
    (patterns : option (list string)) (dry_run : bool) (m : registry) (e : exn) :
  let cleanup_dir := get_cleanup_directory w in
  validate_directory w (resolve w cleanup_dir) cleanup_dir = Raise e ->
  snd (scan_for_unwanted_files_observed re_search w patterns m)
  = inc scan_errors_total [cleanup_dir; "directory_error"] 1
      (if path_exists w (resolve w cleanup_dir) then m
       else inc scan_errors_total [cleanup_dir; "directory_not_found"] 1 m)
  /\ snd (cleanup_unwanted_files_observed re_search w dry_run patterns m)
     = inc cleanup_errors_total [cleanup_dir; "validation_error"] 1
         (if path_exists w (resolve w cleanup_dir) then m
          else inc cleanup_errors_total [cleanup_dir; "directory_not_found"] 1 m).
Proof.
  cbv zeta. intros Hv. split.
  - unfold scan_for_unwanted_files_observed. cbv zeta.
    pose proof (validate_directory_observed_fst w
                  (resolve w (get_cleanup_directory w))
                  (get_cleanup_directory w) "scan" m) as Hfst.
    rewrite Hv in Hfst.
    destruct (validate_directory_observed _ _ _ _ _) as [[[]|e'] m1] eqn:Ho;
      cbn [fst] in Hfst; [done|]. cbn [snd]. f_equal.
    unfold validate_directory_observed in Ho.
    destruct (path_exists w (resolve w (get_cleanup_directory w)));
      cbn [negb] in Ho.
    + cbv zeta in Ho. destruct (negb (existsb _ _)); by injection Ho.
    + by injection Ho.
  - unfold cleanup_unwanted_files_observed. cbv zeta.
    pose proof (validate_directory_observed_fst w
                  (resolve w (get_cleanup_directory w))
                  (get_cleanup_directory w) "cleanup" m) as Hfst.
    rewrite Hv in Hfst.
    destruct (validate_directory_observed _ _ _ _ _) as [[[]|e'] m1] eqn:Ho;
      cbn [fst] in Hfst; [done|]. cbn [snd]. f_equal.
    unfold validate_directory_observed in Ho.
    destruct (path_exists w (resolve w (get_cleanup_directory w)));
      cbn [negb] in Ho.
    + cbv zeta in Ho. destruct (negb (existsb _ _)); by injection Ho.
    + by injection Ho.
Qed.

End EndpointMetrics.

Lemma endpoints_keep_to_their_metrics_witness :
  let after :=
    snd (scan_for_unwanted_files_observed Re.search Examples.housekeeping None
           empty_registry) in
  (subdirectories_found_total ∉ scan_metrics)
  /\ counter_value after subdirectories_found_total ["/data"; "general"]
     = counter_value empty_registry subdirectories_found_total
         ["/data"; "general"]
  /\ gauge_value after subdirectories_found_total ["/data"; "general"]
     = gauge_value empty_registry subdirectories_found_total
         ["/data"; "general"]
  /\ observations after subdirectories_found_total ["/data"; "general"]
     = observations empty_registry subdirectories_found_total
         ["/data"; "general"].
Proof.
  assert (subdirectories_found_total ∉ scan_metrics) as Hout.
  { apply (bool_decide_unpack _). vm_compute. exact I. }
  split; [exact Hout|].
  apply (proj1 (endpoints_keep_to_their_metrics Re.search Examples.housekeeping
                  None true false empty_registry subdirectories_found_total
                  ["/data"; "general"])).
  exact Hout.
Defined.

Lemma validation_failure_is_counted_witness :
  let w := with_dirs Examples.linux "/nowhere" "/target" in
  snd (scan_for_unwanted_files_observed Re.search w None empty_registry)
  = inc scan_errors_total ["/nowhere"; "directory_error"] 1
      (inc scan_errors_total ["/nowhere"; "directory_not_found"] 1
         empty_registry)
  /\ snd (cleanup_unwanted_files_observed Re.search w false None empty_registry)
     = inc cleanup_errors_total ["/nowhere"; "validation_error"] 1
         (inc cleanup_errors_total ["/nowhere"; "directory_not_found"] 1
            empty_registry).
Proof.
  apply (validation_failure_is_counted Re.search
           (with_dirs Examples.linux "/nowhere" "/target") None false
           empty_registry
           (HTTPException 404 "Configured directory /nowhere not found")).
  vm_compute. reflexivity.
Defined.




(** ** What a scan and a cleanup record for each pattern *)

Lemma validate_directory_observed_ok (w : world)
    (directory_path cleanup_dir operation_type : string) (m : registry) :
  validate_directory w directory_path cleanup_dir = Ok tt ->
  validate_directory_observed w directory_path cleanup_dir operation_type m
  = (Ok tt, m).
Proof.
  unfold validate_directory, validate_directory_observed.
  destruct (negb (path_exists w directory_path)); [discriminate|].
  cbv zeta. destruct (negb (existsb _ _)); [|done]. by intros ->.
Qed.

Lemma record_found_gauge (found_total current_files cleanup_dir : string)
    (patterns : list string) (pm : gmap string string) (m : registry)
    (p : string) :
  gauge_value
    (record_found found_total current_files cleanup_dir patterns pm m)
    current_files [cleanup_dir; p]
  = if decide (p ∈ patterns) then Z.of_nat (matched_with pm p)
    else gauge_value m current_files [cleanup_dir; p].
Proof.
  rewrite record_found_fold.
  induction patterns as [|x patterns IH] using rev_ind.
  - destruct (decide _) as [H|_]; [by apply elem_of_nil in H | done].
  - rewrite foldl_app. cbn [foldl]. rewrite gauge_value_gauge_set.
    destruct (decide ((current_files, [cleanup_dir; x])
                      = (current_files, [cleanup_dir; p]))) as [[= ->]|Hne].
    + rewrite decide_True; [done|].
      apply elem_of_app. right. apply list_elem_of_here.
    + change (gauge_value (inc ?n ?l ?a ?m') ?n' ?l') with (gauge_value m' n' l').
      rewrite IH.
      destruct (decide (p ∈ patterns)) as [Hin|Hnin].
      * rewrite decide_True; [done | apply elem_of_app; by left].
      * rewrite decide_False; [done|].
        intros [Hin|Hin%list_elem_of_singleton]%elem_of_app; [done|].
        by subst.
Qed.

Lemma record_found_counter (found_total current_files cleanup_dir : string)
    (patterns : list string) (pm : gmap string string) (m : registry)
    (p : string) :
  counter_value
    (record_found found_total current_files cleanup_dir patterns pm m)
    found_total [cleanup_dir; p]
  = counter_value m found_total [cleanup_dir; p]
    + Z.of_nat (matched_with pm p)
      * Z.of_nat (length (filter (fun q => q = p) patterns)).
Proof.
  rewrite record_found_fold.
  induction patterns as [|x patterns IH] using rev_ind.
  - cbn [foldl filter list_filter length]. lia.
  - rewrite foldl_app, filter_app, length_app. cbn [foldl].
    change (counter_value (gauge_set ?n ?l ?a ?m') ?n' ?l')
      with (counter_value m' n' l').
    rewrite counter_value_inc, filter_cons, filter_nil.
    destruct (decide ((found_total, [cleanup_dir; x])
                      = (found_total, [cleanup_dir; p]))) as [[= ->]|Hne].
    + rewrite decide_True by done. rewrite IH. cbn [length]. lia.
    + rewrite decide_False by (by intros ->). rewrite IH. cbn [length]. lia.
Qed.

Lemma matched_with_empty (p : string) : matched_with ∅ p = 0%nat.
Proof. unfold matched_with. by rewrite map_to_list_empty. Qed.

Lemma matched_with_insert (pm : gmap string string) (fp q p : string) :
  pm !! fp = None ->
  matched_with (<[fp := q]> pm) p
  = if decide (q = p) then S (matched_with pm p) else matched_with pm p.
Proof.
  intros Hfp. unfold matched_with.
  rewrite (Permutation_length
             (filter_Permutation _ _ _ (map_to_list_insert pm fp q Hfp))).
  rewrite filter_cons. cbn [snd]. by destruct (decide (q = p)).
Qed.

Lemma zero_removed_gauge (cleanup_dir : string) (pm : gmap string string)
    (removed : list string) (m : registry) (p : string) :
  gauge_value (zero_removed cleanup_dir pm removed m)
    cleanup_current_files [cleanup_dir; p]
  = if decide (p ∈ omap (fun fp => pm !! fp) removed) then 0
    else gauge_value m cleanup_current_files [cleanup_dir; p].
Proof.
  unfold zero_removed. cbv zeta.
  assert (forall ps : list string,
            gauge_value
              (foldl (fun m q => gauge_set cleanup_current_files [cleanup_dir; q] 0 m)
                 m ps)
              cleanup_current_files [cleanup_dir; p]
            = if decide (p ∈ ps) then 0
              else gauge_value m cleanup_current_files [cleanup_dir; p]) as Hps.
  { intros ps. induction ps as [|x ps IH] using rev_ind.
    - destruct (decide _) as [H|_]; [by apply elem_of_nil in H | done].
    - rewrite foldl_app. cbn [foldl]. rewrite gauge_value_gauge_set.
      destruct (decide ((cleanup_current_files, [cleanup_dir; x])
                        = (cleanup_current_files, [cleanup_dir; p])))
        as [[= ->]|Hne].
      + rewrite decide_True; [done|].
        apply elem_of_app. right. apply list_elem_of_here.
      + rewrite IH. destruct (decide (p ∈ ps)) as [Hin|Hnin].
        * rewrite decide_True; [done | apply elem_of_app; by left].
        * rewrite decide_False; [done|].
          intros [Hin|Hin%list_elem_of_singleton]%elem_of_app; [done|].
          by subst. }
  rewrite Hps.
  destruct (decide (p ∈ elements _)) as [Hin|Hnin];
    rewrite elem_of_elements, elem_of_list_to_set in *.
  - by rewrite decide_True.
  - by rewrite decide_False.
Qed.

Lemma remove_files_observed_counts (cleanup_dir : string) (dry_run : bool)
    (pm : gmap string string) (found : list string) :
  forall removed errors w m removed' errors' w' m',
    remove_files_observed cleanup_dir dry_run pm found removed errors w m
    = (Ok (removed', errors'), w', m') ->
    exists new new_errors,
      removed' = removed ++ new
      /\ errors' = errors ++ new_errors
      /\ (dry_run = true -> new = [] /\ new_errors = [])
      /\ (forall p,
            counter_value m' cleanup_files_removed_total [cleanup_dir; p]
            = counter_value m cleanup_files_removed_total [cleanup_dir; p]
              + Z.of_nat (length (filter (fun fp => pm !! fp = Some p) new)))
      /\ counter_value m' cleanup_errors_total
           [cleanup_dir; "file_removal_error"]
         = counter_value m cleanup_errors_total
             [cleanup_dir; "file_removal_error"]
           + Z.of_nat (length new_errors)
      /\ (forall name labels,
            gauge_value m' name labels = gauge_value m name labels).
Proof.
  induction found as [|fp found IH];
    intros removed errors w m removed' errors' w' m' H.
  - injection H as <- <- <- <-. exists [], [].
    rewrite !app_nil_r.
    split; [done|]. split; [done|]. split; [done|]. split; [|split; [|done]].
    + intros p. cbn [filter list_filter length]. lia.
    + cbn [length]. lia.
  - cbn [remove_files_observed] in H.
    destruct (pm !! fp) as [q|] eqn:Hq; [|discriminate].
    destruct dry_run; cbn [negb] in H.
    { apply IH in H as (new & new_errors & -> & -> & Hdry & Hc & He & Hg).
      by exists new, new_errors. }
    destruct (unlink w fp) as [w1|e].
    + apply IH in H as (new & new_errors & -> & -> & _ & Hc & He & Hg).
      exists (fp :: new), new_errors.
      split; [by rewrite <- app_assoc|]. split; [done|]. split; [done|].
      split; [|split].
      * intros p. rewrite Hc, counter_value_inc, filter_cons. rewrite Hq.
        destruct (decide ((cleanup_files_removed_total, [cleanup_dir; q])
                          = (cleanup_files_removed_total, [cleanup_dir; p])))
          as [[= ->]|Hne].
        -- rewrite decide_True by done. cbn [length]. lia.
        -- rewrite decide_False by (intros [= ->]; done). lia.
      * rewrite He, counter_value_inc.
        destruct (decide _) as [Heq|_]; [by vm_compute in Heq | done].
      * intros name labels. by rewrite Hg.
    + apply IH in H as (new & new_errors & -> & -> & _ & Hc & He & Hg).
      exists new,
        (("Failed to remove " +:+ fp +:+ ": " +:+ str_exn e) :: new_errors).
      split; [done|]. split; [by rewrite <- app_assoc|]. split; [done|].
      split; [|split].
      * intros p. rewrite Hc, counter_value_inc.
        destruct (decide _) as [Heq|_]; [by vm_compute in Heq | done].
      * rewrite He, counter_value_inc. rewrite decide_True by done.
        cbn [length]. lia.
      * intros name labels. by rewrite Hg.
Qed.

Section PerPattern.

Variable re_search : string -> string -> result bool.

Lemma find_unwanted_files_observed_keeps (w : world) (directory_path : string)
    (patterns : list string) (operation_type : string) (m : registry)
    (name : string) (labels : list string) :
  let after := snd (find_unwanted_files_observed re_search w directory_path
                      patterns operation_type m) in
  counter_value after name labels = counter_value m name labels
  /\ gauge_value after name labels = gauge_value m name labels.
Proof.
  cbv zeta.
  pose proof (find_unwanted_files_observed_updates re_search [] []
                [scan_directory_size_bytes; cleanup_directory_size_bytes]
                w directory_path patterns operation_type m
                ltac:(metric_listed) ltac:(metric_listed)) as Hu.
  split.
  - eapply updates_counter_outside; [exact Hu | apply not_elem_of_nil].
  - eapply updates_gauge_outside; [exact Hu | apply not_elem_of_nil].
Qed.

Lemma scan_fold_matched (w : world) (patterns : list string)
    (l : list (string * string)) (p : string) :
  forall st,
    NoDup (fst <$> l) ->
    (forall f, f ∈ l -> pattern_matches st !! fst f = None) ->
    matched_with
      (pattern_matches (foldl (scan_step re_search w patterns) st l)) p
    = (matched_with (pattern_matches st) p
       + length (filter (fun f => first_match re_search (snd f) patterns = Some p)
                   l))%nat.
Proof.
  induction l as [|f l IH]; intros st Hnd Hnone.
  - cbn [foldl filter list_filter length]. lia.
  - cbn [foldl]. rewrite fmap_cons in Hnd. apply NoDup_cons in Hnd as [Hf Hnd].
    rewrite IH; [|done|].
    + rewrite filter_cons. unfold scan_step at 1.
      destruct (first_match re_search (snd f) patterns) as [q|] eqn:Hq.
      * cbn [pattern_matches record_match].
        rewrite matched_with_insert by (apply Hnone, list_elem_of_here).
        destruct (decide (q = p)) as [->|Hne].
        -- rewrite decide_True by done. cbn [length]. lia.
        -- rewrite decide_False by (intros [= ->]; done). lia.
      * rewrite decide_False by done. lia.
    + intros g Hg. unfold scan_step.
      destruct (first_match re_search (snd f) patterns) as [q|];
        [|by apply Hnone, list_elem_of_further].
      cbn [pattern_matches record_match]. rewrite lookup_insert_ne.
      * by apply Hnone, list_elem_of_further.
      * intros Heq. apply Hf. rewrite Heq. apply list_elem_of_fmap.
        by exists g.
Qed.

(** X21.  After a scan of a root that passes validation, with patterns
    that compile, on a well-formed tree: for each pattern used, the gauge
    of current files holds the number of walked files whose first matching
    pattern it is, and the counter of files found has grown by that number
    once for each time the pattern occurs in the list; for a pattern that
    is not used the gauge is as before.  No error is counted. *)
Theorem scan_records_matches_per_pattern (w : world)
    (patterns : option (list string)) (m : registry) (p : string) :
  let cleanup_dir := get_cleanup_directory w in
  let pats := default DEFAULT_UNWANTED_PATTERNS patterns in
  let after := snd (scan_for_unwanted_files_observed re_search w patterns m) in
  let matching :=
    length (filter (fun f => first_match re_search (snd f) pats = Some p)
              (walk_files w (resolve w cleanup_dir))) in
  wf_node (fs w) = true ->
  validate_directory w (resolve w cleanup_dir) cleanup_dir = Ok tt ->
  Forall (compiles re_search) pats ->
  gauge_value after scan_current_files [cleanup_dir; p]
  = (if decide (p ∈ pats) then Z.of_nat matching
     else gauge_value m scan_current_files [cleanup_dir; p])
  /\ counter_value after scan_files_found_total [cleanup_dir; p]
     = counter_value m scan_files_found_total [cleanup_dir; p]
       + Z.of_nat matching * Z.of_nat (length (filter (fun q => q = p) pats))
  /\ forall labels,
       counter_value after scan_errors_total labels
       = counter_value m scan_errors_total labels.
Proof.
  cbv zeta. intros Hwf Hv Hc.
  unfold scan_for_unwanted_files_observed. cbv zeta.
  rewrite (validate_directory_observed_ok _ _ _ _ _ Hv).
  pose proof (find_unwanted_files_observed_fst re_search w
                (resolve w (get_cleanup_directory w))
                (default DEFAULT_UNWANTED_PATTERNS patterns) "scan" m) as Hfst.
  rewrite (find_unwanted_files_fold re_search _ _ _ Hc) in Hfst.
  pose proof (find_unwanted_files_observed_keeps w
                (resolve w (get_cleanup_directory w))
                (default DEFAULT_UNWANTED_PATTERNS patterns) "scan" m) as Hkeep.
  cbv zeta in Hkeep.
  destruct (find_unwanted_files_observed _ _ _ _ _ _) as [[st|e] m2];
    cbn [fst snd] in Hfst, Hkeep |- *; [|discriminate].
  injection Hfst as ->.
  change (gauge_value (observe ?n ?l ?a ?m') ?n' ?l') with (gauge_value m' n' l').
  change (counter_value (observe ?n ?l ?a ?m') ?n' ?l')
    with (counter_value m' n' l').
  rewrite record_found_gauge, record_found_counter.
  rewrite (scan_fold_matched w _ _ p empty_scan);
    [|by apply walk_files_NoDup | done].
  cbn [pattern_matches empty_scan]. rewrite matched_with_empty, Nat.add_0_l.
  rewrite !(proj1 (Hkeep _ _)), !(proj2 (Hkeep _ _)).
  split; [done|]. split; [done|]. intros labels.
  rewrite (updates_counter_outside [scan_files_found_total] [scan_current_files]
             [] m2 _ scan_errors_total labels).
  - apply Hkeep.
  - apply record_found_updates; metric_listed.
  - intros Hin%list_elem_of_singleton. by vm_compute in Hin.
Qed.

(** X22.  After a cleanup that returns, with the scan result [st] it
    worked on: the counter of removed files of a pattern has grown by the
    number of removed files recorded with that pattern, and the counter of
    [file_removal_error] by the number of entries of [error_details].  The
    gauge of current files of a pattern used is 0 as soon as one file
    recorded with it was removed, also when others recorded with it could
    not be removed; otherwise it holds the number of files recorded with
    it.  A dry run counts no removal and no error. *)
Theorem cleanup_records_removals_per_pattern (w : world) (dry_run : bool)
    (patterns : option (list string)) (m : registry)
    (r : cleanup_response) (w' : world) (m' : registry) :
  let cleanup_dir := get_cleanup_directory w in
  let pats := default DEFAULT_UNWANTED_PATTERNS patterns in
  cleanup_unwanted_files_observed re_search w dry_run patterns m
  = (Ok r, w', m') ->
  exists st,
    find_unwanted_files re_search w (resolve w cleanup_dir) pats = Ok st
    /\ cleanup_found_files r = found_files st
    /\ (forall p,
          counter_value m' cleanup_files_removed_total [cleanup_dir; p]
          = counter_value m cleanup_files_removed_total [cleanup_dir; p]
            + Z.of_nat (length (filter
                                  (fun fp => pattern_matches st !! fp = Some p)
                                  (cleanup_removed_files r))))
    /\ counter_value m' cleanup_errors_total [cleanup_dir; "file_removal_error"]
       = counter_value m cleanup_errors_total
           [cleanup_dir; "file_removal_error"]
         + Z.of_nat (cleanup_errors r)
    /\ (forall p,
          p ∈ pats ->
          ((exists fp, fp ∈ cleanup_removed_files r
                       /\ pattern_matches st !! fp = Some p) ->
           gauge_value m' cleanup_current_files [cleanup_dir; p] = 0)
          /\ ((forall fp, fp ∈ cleanup_removed_files r ->
                 pattern_matches st !! fp <> Some p) ->
              gauge_value m' cleanup_current_files [cleanup_dir; p]
              = Z.of_nat (matched_with (pattern_matches st) p)))
    /\ (dry_run = true ->
        cleanup_removed_files r = [] /\ cleanup_error_details r = []).
Proof.
  cbv zeta. unfold cleanup_unwanted_files_observed. cbv zeta.
  pose proof (validate_directory_observed_fst w
                (resolve w (get_cleanup_directory w))
                (get_cleanup_directory w) "cleanup" m) as Hv.
  destruct (validate_directory_observed _ _ _ _ _) as [[[]|e] m1] eqn:Hvo;
    [|discriminate].
  cbn [fst] in Hv. symmetry in Hv.
  rewrite (validate_directory_observed_ok _ _ _ _ _ Hv) in Hvo.
  injection Hvo as <-.
  pose proof (find_unwanted_files_observed_fst re_search w
                (resolve w (get_cleanup_directory w))
                (default DEFAULT_UNWANTED_PATTERNS patterns) "cleanup" m) as Hfst.
  pose proof (find_unwanted_files_observed_keeps w
                (resolve w (get_cleanup_directory w))
                (default DEFAULT_UNWANTED_PATTERNS patterns) "cleanup" m) as Hkeep.
  cbv zeta in Hkeep.
  destruct (find_unwanted_files_observed _ _ _ _ _ _) as [[st|e] m2];
    cbn [fst snd] in Hfst, Hkeep; [|discriminate].
  destruct (remove_files_observed _ _ _ _ _ _ _ _)
    as [[[[removed errors]|e] w1] m3] eqn:Hr; [|discriminate].
  intros [= <- <- <-]. exists st. split; [done|]. split; [done|].
  cbn [cleanup_removed_files cleanup_errors cleanup_error_details].
  apply remove_files_observed_counts in Hr
    as (new & new_errors & Hnew & Herr & Hdry & Hc & He & Hg).
  cbn [app] in Hnew, Herr. subst removed errors.
  set (m4 := record_found cleanup_files_found_total cleanup_current_files
               (get_cleanup_directory w)
               (default DEFAULT_UNWANTED_PATTERNS patterns)
               (pattern_matches st) m3).
  set (m5 := if negb dry_run && negb (is_empty_list new)
             then zero_removed (get_cleanup_directory w) (pattern_matches st)
                    new m4
             else m4).
  assert (updates [cleanup_files_found_total] [cleanup_current_files] [] m3 m5)
    as Hu.
  { eapply updates_trans;
      [apply (record_found_updates _ _ _ cleanup_files_found_total
                cleanup_current_files); metric_listed|].
    fold m4. subst m5.
    destruct (negb dry_run && negb (is_empty_list new));
      [apply zero_removed_updates; metric_listed | apply updates_refl]. }
  change (counter_value (observe ?n ?l ?a ?m') ?n' ?l')
    with (counter_value m' n' l').
  change (gauge_value (observe ?n ?l ?a ?m') ?n' ?l') with (gauge_value m' n' l').
  assert (forall p,
            gauge_value m5 cleanup_current_files [get_cleanup_directory w; p]
            = if decide (p ∈ omap (fun fp => pattern_matches st !! fp) new)
              then 0
              else gauge_value m4 cleanup_current_files
                     [get_cleanup_directory w; p]) as Hm5.
  { intros p. subst m5.
    destruct (negb dry_run && negb (is_empty_list new)) eqn:Hb.
    - apply zero_removed_gauge.
    - assert (new = []) as ->.
      { destruct dry_run; [by destruct (Hdry eq_refl)|]. by destruct new. }
      cbn [omap list_omap]. rewrite decide_False; [done | apply not_elem_of_nil]. }
  split; [|split; [|split; [|exact Hdry]]].
  - intros p.
    rewrite (updates_counter_outside _ _ _ _ _ cleanup_files_removed_total
               _ Hu).
    + rewrite Hc. by rewrite (proj1 (Hkeep _ _)).
    + intros Hin%list_elem_of_singleton. by vm_compute in Hin.
  - rewrite (updates_counter_outside _ _ _ _ _ cleanup_errors_total _ Hu).
    + rewrite He. by rewrite (proj1 (Hkeep _ _)).
    + intros Hin%list_elem_of_singleton. by vm_compute in Hin.
  - intros p Hp. split.
    + intros (fp & Hfp & Hpat). rewrite Hm5. rewrite decide_True; [done|].
      apply list_elem_of_omap. by exists fp.
    + intros Hnone. rewrite Hm5. rewrite decide_False.
      * subst m4. rewrite record_found_gauge. by rewrite decide_True.
      * intros (fp & Hfp & Hpat)%list_elem_of_omap. by apply (Hnone fp).
Qed.

End PerPattern.

Lemma scan_records_matches_per_pattern_witness :
  let w := Examples.housekeeping in
  let after :=
    snd (scan_for_unwanted_files_observed Re.search w (Some Examples.junk)
           empty_registry) in
  let matching :=
    length (filter (fun f => first_match Re.search (snd f) Examples.junk
                             = Some ".tmp$")
              (walk_files w (resolve w (get_cleanup_directory w)))) in
  gauge_value after scan_current_files [get_cleanup_directory w; ".tmp$"]
  = (if decide (".tmp$" ∈ Examples.junk) then Z.of_nat matching
     else gauge_value empty_registry scan_current_files
            [get_cleanup_directory w; ".tmp$"])
  /\ counter_value after scan_files_found_total
       [get_cleanup_directory w; ".tmp$"]
     = counter_value empty_registry scan_files_found_total
         [get_cleanup_directory w; ".tmp$"]
       + Z.of_nat matching
         * Z.of_nat (length (filter (fun q => q = ".tmp$") Examples.junk))
  /\ forall labels,
       counter_value after scan_errors_total labels
       = counter_value empty_registry scan_errors_total labels.
Proof.
  apply (scan_records_matches_per_pattern Re.search Examples.housekeeping
           (Some Examples.junk) empty_registry ".tmp$").
  - reflexivity.
  - vm_compute. reflexivity.
  - by apply all_compile_spec.
Defined.

Lemma cleanup_records_removals_per_pattern_witness :
  let w := Examples.housekeeping in
  exists r w' m',
    cleanup_unwanted_files_observed Re.search w false None empty_registry
    = (Ok r, w', m')
    /\ counter_value m' cleanup_errors_total
         [get_cleanup_directory w; "file_removal_error"]
       = counter_value empty_registry cleanup_errors_total
           [get_cleanup_directory w; "file_removal_error"]
         + Z.of_nat (cleanup_errors r).
Proof.
  cbv zeta.
  destruct (cleanup_unwanted_files_observed Re.search Examples.housekeeping
              false None empty_registry) as [[[r|e] w'] m'] eqn:H;
    [| by vm_compute in H].
  exists r, w', m'. split; [done|].
  destruct (cleanup_records_removals_per_pattern Re.search
              Examples.housekeeping false None empty_registry r w' m' H)
    as (st & _ & _ & _ & He & _).
  exact He.
Defined.

(** ** The size histograms *)

Lemma for_each_observed_pure {A S : Type} (l : list A)
    (body : A -> S -> registry -> result S * registry)
    (g : S -> A -> S) (h : registry -> A -> registry) :
  (forall x s m, x ∈ l -> body x s m = (Ok (g s x), h m x)) ->
  forall s m, for_each_observed l body s m = (Ok (foldl g s l), foldl h m l).
Proof.
  induction l as [|x l IH]; intros Hb s m; [done|].
  cbn [for_each_observed foldl]. rewrite Hb by apply list_elem_of_here.
  apply IH. intros y s' m' Hy. apply Hb. by apply list_elem_of_further.
Qed.

Section SizeHistograms.

Variable re_search : string -> string -> result bool.

Lemma match_patterns_observed_compiles (w : world)
    (directory_path operation_type file_path file : string)
    (patterns : list string) (st : scan_state) (m : registry) :
  Forall (compiles re_search) patterns ->
  match_patterns_observed re_search w directory_path operation_type
    file_path file patterns st m
  = (Ok (scan_step re_search w patterns st (file_path, file)),
     observe_size re_search w directory_path operation_type patterns m
       (file_path, file)).
Proof.
  intros Hc. unfold scan_step, observe_size. cbn [fst snd].
  induction Hc as [|p patterns Hp _ IH]; [done|].
  cbn [match_patterns_observed first_match].
  destruct (Hp file) as [[|] ->]; [|exact IH].
  by destruct (stat_size w file_path), (String.eqb operation_type "scan").
Qed.

Lemma find_unwanted_files_observed_fold (w : world) (directory_path : string)
    (patterns : list string) (operation_type : string) (m : registry) :
  Forall (compiles re_search) patterns ->
  find_unwanted_files_observed re_search w directory_path patterns
    operation_type m
  = (Ok (foldl (scan_step re_search w patterns) empty_scan
           (walk_files w directory_path)),
     foldl (observe_size re_search w directory_path operation_type patterns) m
       (walk_files w directory_path)).
Proof.
  intros Hc. unfold find_unwanted_files_observed, walk_files, files_of_walk.
  rewrite !foldl_bind.
  apply for_each_observed_pure. intros [[root dirs] files] st m' _.
  rewrite !foldl_fmap.
  apply for_each_observed_pure. intros file st' m'' _.
  by apply match_patterns_observed_compiles.
Qed.

Lemma observe_size_observations (w : world) (directory_path : string)
    (patterns : list string) (p : string) (l : list (string * string)) :
  forall m,
    observations
      (foldl (observe_size re_search w directory_path "scan" patterns) m l)
      scan_directory_size_bytes [directory_path; p]
    = observations m scan_directory_size_bytes [directory_path; p]
      ++ (Some <$> readable_sizes re_search w patterns p l).
Proof.
  unfold readable_sizes.
  induction l as [|f l IH]; intros m.
  - cbn [foldl filter list_filter omap list_omap fmap list_fmap].
    by rewrite app_nil_r.
  - cbn [foldl]. rewrite IH, filter_cons. unfold observe_size.
    destruct (first_match re_search (snd f) patterns) as [q|] eqn:Hq.
    + destruct (decide (Some q = Some p)) as [[= ->]|Hne].
      * cbn [omap list_omap].
        destruct (stat_size w (fst f)) as [sz|e]; [|done].
        cbn [String.eqb Ascii.eqb Bool.eqb andb]. rewrite observations_observe.
        rewrite decide_True by done. cbn [fmap list_fmap].
        by rewrite <- app_assoc.
      * destruct (stat_size w (fst f)) as [sz|e]; [|done].
        cbn [String.eqb Ascii.eqb Bool.eqb andb]. rewrite observations_observe.
        rewrite decide_False; [done|]. intros [= ->]. done.
    + by rewrite decide_False.
Qed.

(** X23.  After a scan of a root that passes validation, with patterns
    that compile, the size histogram labelled with the resolved root and a
    pattern has received, in the order of the walk, the size of each
    walked file whose first matching pattern this is and whose [stat]
    succeeds: a file whose [stat] raises is reported with size 0 but is not
    observed.  One duration is observed, labelled with the configured
    name of the root. *)
Theorem scan_observes_readable_sizes (w : world)
    (patterns : option (list string)) (m : registry) (p : string) :
  let cleanup_dir := get_cleanup_directory w in
  let pats := default DEFAULT_UNWANTED_PATTERNS patterns in
  let after := snd (scan_for_unwanted_files_observed re_search w patterns m) in
  validate_directory w (resolve w cleanup_dir) cleanup_dir = Ok tt ->
  Forall (compiles re_search) pats ->
  observations after scan_directory_size_bytes [resolve w cleanup_dir; p]
  = observations m scan_directory_size_bytes [resolve w cleanup_dir; p]
    ++ (Some <$> readable_sizes re_search w pats p
                   (walk_files w (resolve w cleanup_dir)))
  /\ observations after scan_operation_duration ["scan"; cleanup_dir]
     = observations m scan_operation_duration ["scan"; cleanup_dir] ++ [None].
Proof.
  cbv zeta. intros Hv Hc.
  unfold scan_for_unwanted_files_observed. cbv zeta.
  rewrite (validate_directory_observed_ok _ _ _ _ _ Hv).
  rewrite (find_unwanted_files_observed_fold _ _ _ _ _ Hc). cbn [snd].
  set (st := foldl _ empty_scan _). set (m2 := foldl _ m _).
  assert (forall name labels,
            observations
              (record_found scan_files_found_total scan_current_files
                 (get_cleanup_directory w)
                 (default DEFAULT_UNWANTED_PATTERNS patterns)
                 (pattern_matches st) m2) name labels
            = observations m2 name labels) as Hrf.
  { intros name labels.
    apply (updates_observations_outside [scan_files_found_total]
             [scan_current_files] []); [|apply not_elem_of_nil].
    apply record_found_updates; metric_listed. }
  rewrite !observations_observe. split.
  - rewrite decide_False by (intros Heq; by vm_compute in Heq).
    rewrite Hrf. subst m2. apply observe_size_observations.
  - rewrite decide_True by done. rewrite Hrf. subst m2. f_equal.
    apply (updates_observations_outside [] [] [scan_directory_size_bytes]).
    + clear. generalize (walk_files w (resolve w (get_cleanup_directory w))).
      intros l. apply foldl_updates. intros m' f. unfold observe_size.
      destruct (first_match _ _ _); [|apply updates_refl].
      destruct (stat_size _ _); [|apply updates_refl].
      apply updates_observe; [apply updates_refl | metric_listed].
    + intros Hin%list_elem_of_singleton. by vm_compute in Hin.
Qed.

End SizeHistograms.

Lemma scan_observes_readable_sizes_witness :
  let w := Examples.housekeeping in
  let after :=
    snd (scan_for_unwanted_files_observed Re.search w (Some Examples.junk)
           empty_registry) in
  observations after scan_directory_size_bytes
    [resolve w (get_cleanup_directory w); "Thumbs\.db$"]
  = observations empty_registry scan_directory_size_bytes
      [resolve w (get_cleanup_directory w); "Thumbs\.db$"]
    ++ (Some <$> readable_sizes Re.search w Examples.junk "Thumbs\.db$"
                   (walk_files w (resolve w (get_cleanup_directory w))))
  /\ observations after scan_operation_duration
       ["scan"; get_cleanup_directory w]
     = observations empty_registry scan_operation_duration
         ["scan"; get_cleanup_directory w] ++ [None].
Proof.
  apply (scan_observes_readable_sizes Re.search Examples.housekeeping
           (Some Examples.junk) empty_registry "Thumbs\.db$").
  - vm_compute. reflexivity.
  - by apply all_compile_spec.
Defined.

(** The scan of the example tree with the two patterns of the
    specification: [x.tmp] is observed with its size, [Thumbs.db], whose
    [stat] raises, is counted but not observed. *)
Example scan_metrics_example :
  let after :=
    snd (scan_for_unwanted_files_observed Re.search Examples.housekeeping
           (Some Examples.junk) empty_registry) in
  gauge_value after scan_current_files ["/data"; ".tmp$"] = 1
  /\ gauge_value after scan_current_files ["/data"; "Thumbs\.db$"] = 1
  /\ observations after scan_directory_size_bytes ["/data"; ".tmp$"] = [Some 10]
  /\ observations after scan_directory_size_bytes ["/data"; "Thumbs\.db$"] = [].
Proof. vm_compute. repeat split. Qed.
